(** * SAAMGE: construction of the tentative prolongator (contrib.cpp) and the
    aggregate-only matrix provider of the nonconforming module (nonconf.hpp).

    Conventions of the embedding.
    - A C++ [double] is a binary64 float: Rocq's primitive [float].
    - A C++ [int] is an integer of [Z]; signed overflow is undefined behaviour
      in C++, so the model covers the executions in which it does not happen.
    - A raw array ([int *], [double *], [DenseMatrix **]) is a total map from
      offsets to values: the code checks no bound, and supplying enough
      storage is the caller's duty.
    - [SA_ASSERT], [throw] and the print macros are effects: a computation
      either stops with a [fault] or returns a value with what it printed. *)

From Stdlib Require Import ZArith List Lia.
From Stdlib Require Import Floats.
From stdpp Require Import base tactics option list numbers functions gmap.

Local Open Scope Z_scope.
#[local] Set Warnings "-inexact-float".

(** ** Outcomes: faults and printed messages *)

Inductive fault : Type :=
| AssertFailed
| Thrown (code : Z)
| NullPointer
| BadArrayNewLength.

(** What the routines print, by the text of the format string. *)
Inductive message : Type :=
| WARN_no_coarse_dofs
| ALERT_nonzero_on_ess_boundary (a : float)
| ALERT_entire_column_zero
| ALERT_near_zero_ignoring (l1norm : float)
| ALERT_accepting_small (l1norm : float)
| ALERT_all_dofs_on_ess_boundary (width dim : Z)
| WARN_zero_contribution (mis : Z)
| WARN_dim_row_size (dim row_size : Z)
| PRINT_coarse_truedof_offset (offset : Z)
| FILE_mis_tent_interp (mis rank : Z) (height width : Z) (data : Z -> float).

Inductive result (A : Type) : Type :=
| Ok (a : A) (out : list message)
| Fault (f : fault).
Arguments Ok {A} a out.
Arguments Fault {A} f.

Definition ret {A} (a : A) : result A := Ok a [].

Definition bind {A B} (m : result A) (k : A -> result B) : result B :=
  match m with
  | Ok a o1 =>
      match k a with
      | Ok b o2 => Ok b (o1 ++ o2)
      | Fault f => Fault f
      end
  | Fault f => Fault f
  end.

Notation "x <- m ;; k" := (bind m (fun x => k))
  (at level 100, m at next level, right associativity).
Notation "m ;;; k" := (bind m (fun _ => k))
  (at level 100, right associativity).

(** Modelled from the spec: common.hpp is not among the sources; a failed
    [SA_ASSERT] is a fatal, process-aborting condition. *)
Definition SA_ASSERT (c : bool) : result unit :=
  if c then ret tt else Fault AssertFailed.

Definition SA_PRINTF (m : message) : result unit := Ok tt [m].
Definition SA_ALERT_PRINTF (m : message) : result unit := Ok tt [m].
Definition throw {A} (code : Z) : result A := Fault (Thrown code).

(** [new T[n]] with a count that is not a constant: a negative count throws
    [std::bad_array_new_length]. *)
Definition new_array (n : Z) : result unit :=
  if n <? 0 then Fault BadArrayNewLength else ret tt.
Definition when (c : bool) (m : result unit) : result unit :=
  if c then m else ret tt.

(** [fabs] of the C library. *)
Definition fabs (x : float) : float := PrimFloat.abs x.

(** ** Counted loops: [for (i = lo; i < lo + n; ++i)] *)

Fixpoint for_pure {S : Type} (n : nat) (i : Z) (body : Z -> S -> S) (s : S) : S :=
  match n with
  | O => s
  | Datatypes.S n' => for_pure n' (i + 1) body (body i s)
  end.

Fixpoint for_res {S : Type} (n : nat) (i : Z) (body : Z -> S -> result S) (s : S)
  : result S :=
  match n with
  | O => ret s
  | Datatypes.S n' => s' <- body i s ;; for_res n' (i + 1) body s'
  end.

(** [for (i = 0; i < hi; ++i)] *)
Definition for_upto {S : Type} (hi : Z) (body : Z -> S -> S) (s : S) : S :=
  for_pure (Z.to_nat hi) 0 body s.
Definition for_upto_res {S : Type} (hi : Z) (body : Z -> S -> result S) (s : S)
  : result S :=
  for_res (Z.to_nat hi) 0 body s.

(** ** mfem's dense matrix, vector, table and sparse matrix *)

(** Column-major storage: entry (i, j) lives at [data[i + j * height]]. *)
Record DenseMatrix : Type := mkDense {
  Height : Z;
  Width : Z;
  Data : Z -> float
}.

Definition Elem (M : DenseMatrix) (i j : Z) : float := Data M (i + j * Height M).

Definition set_Elem (M : DenseMatrix) (i j : Z) (v : float) : DenseMatrix :=
  mkDense (Height M) (Width M) (<[ i + j * Height M := v ]> (Data M)).

(** [DenseMatrix(m, n)]: an m by n matrix of zeros. *)
Definition DenseMatrix_zero (m n : Z) : DenseMatrix := mkDense m n (fun _ => 0%float).

(** [DenseMatrix()]: the empty matrix. *)
Definition DenseMatrix_empty : DenseMatrix := DenseMatrix_zero 0 0.

(** [M.SetSize(h, w)] where the storage in place is kept. *)
Definition SetSize (M : DenseMatrix) (h w : Z) : DenseMatrix := mkDense h w (Data M).

Record Vector : Type := mkVector {
  Size : Z;
  vData : Z -> float
}.

(** [v(i)] *)
Definition vElem (v : Vector) (i : Z) : float := vData v i.

Record Table : Type := mkTable {
  RowSize : Z -> Z;
  GetRow : Z -> Z -> Z
}.

(** The sparse matrix under assembly: its sizes and the entries set so far. *)
Record SparseMatrix : Type := mkSparse {
  sm_Size : Z;
  sm_Width : Z;
  sm_entries : gmap (Z * Z) float;
  sm_finalized : bool
}.

(** [SparseMatrix(nrows)]: square until told otherwise, no entry. *)
Definition SparseMatrix_new (nrows : Z) : SparseMatrix := mkSparse nrows nrows ∅ false.

(** [A.Set(i, j, a)] *)
Definition sm_Set (A : SparseMatrix) (i j : Z) (a : float) : SparseMatrix :=
  mkSparse (sm_Size A) (sm_Width A) (<[ (i, j) := a ]> (sm_entries A)) (sm_finalized A).

(** [A.Finalize()] on a matrix under assembly: the row lists become the
    arrays I, J and data. With the default [skip_zeros = 1] an entry whose
    value compares equal to 0.0 is left out of the arrays. *)
Definition sm_Finalize (A : SparseMatrix) : SparseMatrix :=
  mkSparse (sm_Size A) (sm_Width A)
    (filter (fun entry => PrimFloat.eqb entry.2 0 = false) (sm_entries A)) true.

(** [SparseMatrix(A.GetI(), A.GetJ(), A.GetData(), m, n)]: the arrays of a
    finalized [A] under the sizes m by n. *)
Definition SparseMatrix_of_arrays (A : SparseMatrix) (m n : Z) : SparseMatrix :=
  mkSparse m n (sm_entries A) (sm_finalized A).

(** ** The partitioning relations (aggregates.hpp), as far as contrib.cpp reads them *)

Record agg_partitioning_relations_t : Type := mkRels {
  ND : Z;
  num_mises : Z;
  mis_master : Z -> Z;
  mises_size : Z -> Z;
  mis_to_dof : Table;
  testmesh : bool
}.

(** ** The class ContribTent *)

Record ContribTent : Type := mkContribTent {
  rows : Z;
  filled_cols : Z;
  avoid_ess_bdr_dofs : bool;
  svd_eps : float;
  threshold_ : float;
  tent_interp_ : SparseMatrix;
  local_coarse_one_representation : list float;
  mis_tent_interps : Z -> option DenseMatrix;
  mis_numcoarsedof : Z -> option Z;
  coarse_truedof_offset : option Z
}.

(** The constructor; the three members it leaves unset are [None]. *)
Definition ContribTent_new (ND : Z) (avoid_ess_bdr_dofs_in : bool) : ContribTent :=
  mkContribTent ND 0 avoid_ess_bdr_dofs_in 1e-10%float 0%float
    (SparseMatrix_new ND) [] (fun _ => None) (fun _ => None) None.

(** [this->mis_tent_interps[mis] = M], [this->mis_numcoarsedof[mis] = n],
    appending to [local_coarse_one_representation], and the other members. *)
Definition set_mis_tent_interp (this : ContribTent) (mis : Z) (M : DenseMatrix)
  : ContribTent :=
  mkContribTent (rows this) (filled_cols this) (avoid_ess_bdr_dofs this) (svd_eps this)
    (threshold_ this) (tent_interp_ this) (local_coarse_one_representation this)
    (<[ mis := Some M ]> (mis_tent_interps this)) (mis_numcoarsedof this)
    (coarse_truedof_offset this).

Definition set_mis_numcoarsedof (this : ContribTent) (mis : Z) (n : Z) : ContribTent :=
  mkContribTent (rows this) (filled_cols this) (avoid_ess_bdr_dofs this) (svd_eps this)
    (threshold_ this) (tent_interp_ this) (local_coarse_one_representation this)
    (mis_tent_interps this) (<[ mis := Some n ]> (mis_numcoarsedof this))
    (coarse_truedof_offset this).

Definition set_local_coarse_one_representation (this : ContribTent) (l : list float)
  : ContribTent :=
  mkContribTent (rows this) (filled_cols this) (avoid_ess_bdr_dofs this) (svd_eps this)
    (threshold_ this) (tent_interp_ this) l
    (mis_tent_interps this) (mis_numcoarsedof this) (coarse_truedof_offset this).

Definition set_coarse_truedof_offset (this : ContribTent) (offset : Z) : ContribTent :=
  mkContribTent (rows this) (filled_cols this) (avoid_ess_bdr_dofs this) (svd_eps this)
    (threshold_ this) (tent_interp_ this) (local_coarse_one_representation this)
    (mis_tent_interps this) (mis_numcoarsedof this) (Some offset).

(** The fresh arrays SVDInsert allocates: [mis_tent_interps] is zeroed by
    memset, [mis_numcoarsedof] is not initialised. *)
Definition new_mis_arrays (this : ContribTent) : ContribTent :=
  mkContribTent (rows this) (filled_cols this) (avoid_ess_bdr_dofs this) (svd_eps this)
    (threshold_ this) (tent_interp_ this) (local_coarse_one_representation this)
    (fun _ => None) (fun _ => None) (coarse_truedof_offset this).

Definition set_tent (this : ContribTent) (A : SparseMatrix) (cols : Z) : ContribTent :=
  mkContribTent (rows this) cols (avoid_ess_bdr_dofs this) (svd_eps this)
    (threshold_ this) A (local_coarse_one_representation this)
    (mis_tent_interps this) (mis_numcoarsedof this) (coarse_truedof_offset this).

Definition contrib_tent_finalize (this : ContribTent) : result SparseMatrix :=
  SA_ASSERT (0 <=? filled_cols this) ;;;
  when (filled_cols this =? 0) (SA_PRINTF WARN_no_coarse_dofs) ;;;
  let finalized := sm_Finalize (tent_interp_ this) in
  let tent_interp_l :=
    SparseMatrix_of_arrays finalized (sm_Size finalized) (filled_cols this) in
  SA_ASSERT (sm_finalized tent_interp_l) ;;;
  SA_ASSERT (sm_Size tent_interp_l =? rows this) ;;;
  SA_ASSERT (sm_Width tent_interp_l =? filled_cols this) ;;;
  ret tent_interp_l.

(** ** nonconf.hpp: the provider of agglomerate matrices *)

(** [mfem::Matrix *]: a dense or a sparse matrix. *)
Inductive Matrix : Type :=
| Dense (M : DenseMatrix)
| Sparse (A : SparseMatrix).

(** The interface [ElementMatrixProvider] (elmat.hpp), as far as
    [ElementIPMatrix] overrides it; [GetMatrix] also returns [free_matr]. *)
Class ElementMatrixProvider (P : Type) : Type := {
  GetMatrix : P -> Z -> result (Matrix * bool);
  BuildAEStiff : P -> Z -> result Matrix
}.

Section Nonconf.

(** [interp_data_t] of interp.hpp and [nonconf_AE_matrix] of nonconf.cpp. *)
Variable interp_data_t : Type.
Variable nonconf_AE_matrix : interp_data_t -> Z -> Matrix.

Record ElementIPMatrix : Type := mkElementIPMatrix {
  agg_part_rels_of : agg_partitioning_relations_t;
  interp_data_nonconf : interp_data_t;
  is_geometric : bool
}.

(** The constructor. *)
Definition ElementIPMatrix_new (agg_part_rels : agg_partitioning_relations_t)
    (interp_data_nonconf : interp_data_t) : ElementIPMatrix :=
  mkElementIPMatrix agg_part_rels interp_data_nonconf false.

Definition ElementIPMatrix_GetMatrix (this : ElementIPMatrix) (elno : Z)
  : result (Matrix * bool) :=
  SA_ASSERT false ;;;
  let free_matr := true in
  ret (Dense DenseMatrix_empty, free_matr).

Definition ElementIPMatrix_BuildAEStiff (this : ElementIPMatrix) (elno : Z)
  : result Matrix :=
  ret (nonconf_AE_matrix (interp_data_nonconf this) elno).

#[global] Instance ElementIPMatrix_provider : ElementMatrixProvider ElementIPMatrix := {
  GetMatrix := ElementIPMatrix_GetMatrix;
  BuildAEStiff := ElementIPMatrix_BuildAEStiff
}.

End Nonconf.

(** ** The routines of contrib.cpp *)

Section Externals.

(** [SA_IS_OUTPUT_LEVEL(l)] of common.hpp: whether output level l is on. *)
Variable SA_IS_OUTPUT_LEVEL : Z -> bool.
(** [agg_is_dof_on_essential_border] of aggregates.hpp. *)
Variable agg_is_dof_on_essential_border : agg_partitioning_relations_t -> Z -> bool.
(** What freshly allocated storage ([new double[n]], a local array) holds. *)
Variable indeterminate : Z -> float.

(** *** contrib_filter_boundary *)

(** The test that zeroes an entry [a] of the row [restriction[j]]. *)
Definition entry_is_filtered (this : ContribTent)
    (agg_part_rels : agg_partitioning_relations_t) (row : Z) (a : float) : bool :=
  PrimFloat.eqb a 0%float || (avoid_ess_bdr_dofs this && agg_is_dof_on_essential_border agg_part_rels row).

Record column_scan : Type := mkScan {
  newcolumn : Z -> float;
  atleastone : bool;
  numremoved : Z
}.

(** The body of the loop over [j]; [data] is the offset of the column in
    [local.Data()]. *)
Definition filter_entry (this : ContribTent)
    (agg_part_rels : agg_partitioning_relations_t) (local : DenseMatrix)
    (restriction : Z -> Z) (data : Z) (j : Z) (st : column_scan) : result column_scan :=
  SA_ASSERT (data + j <? Height local * Width local) ;;;
  let row := restriction j in
  let a := Data local (data + j) in
  if entry_is_filtered this agg_part_rels row a then
    when (SA_IS_OUTPUT_LEVEL 7 && negb (PrimFloat.eqb 0%float a))
         (SA_ALERT_PRINTF (ALERT_nonzero_on_ess_boundary a)) ;;;
    ret (mkScan (<[ j := 0%float ]> (newcolumn st)) (atleastone st) (numremoved st + 1))
  else
    ret (mkScan (<[ j := a ]> (newcolumn st)) true (numremoved st)).

Record filter_state : Type := mkFilter {
  fs_data : Z;
  fs_newdata : Z -> float;
  fs_newdatap : Z;
  fs_col : Z;
  fs_newcolumn : Z -> float
}.

(** The body of the loop over the columns [i]. *)
Definition filter_column (this : ContribTent)
    (agg_part_rels : agg_partitioning_relations_t) (local : DenseMatrix)
    (restriction : Z -> Z) (i : Z) (st : filter_state) : result filter_state :=
  let dim := Height local in
  scan <- for_upto_res dim
            (filter_entry this agg_part_rels local restriction (fs_data st))
            (mkScan (fs_newcolumn st) false 0) ;;
  if atleastone scan then
    let newdata :=
      for_upto dim (fun j nd => <[ fs_newdatap st + j := newcolumn scan j ]> nd)
               (fs_newdata st) in
    ret (mkFilter (fs_data st + dim) newdata (fs_newdatap st + dim) (fs_col st + 1)
                  (newcolumn scan))
  else
    SA_ALERT_PRINTF ALERT_entire_column_zero ;;;
    ret (mkFilter (fs_data st + dim) (fs_newdata st) (fs_newdatap st) (fs_col st)
                  (newcolumn scan)).

Definition contrib_filter_boundary (this : ContribTent)
    (agg_part_rels : agg_partitioning_relations_t) (local : DenseMatrix)
    (restriction : Z -> Z) : result DenseMatrix :=
  let vects := Width local in
  let dim := Height local in
  SA_ASSERT (0 <? vects) ;;;
  st <- for_upto_res vects (filter_column this agg_part_rels local restriction)
          (mkFilter 0 indeterminate 0 0 indeterminate) ;;
  let local' := SetSize local dim (fs_col st) in
  let data :=
    for_upto (dim * Width local') (fun j d => <[ j := fs_newdata st j ]> d)
             (Data local') in
  ret (mkDense (Height local') (Width local') data).

(** *** contrib_tent_insert_simple *)

Record insert_state : Type := mkInsert {
  is_data : Z;
  is_col : Z;
  is_tent : SparseMatrix
}.

Definition insert_simple_column (this : ContribTent) (local : DenseMatrix)
    (restriction : Z -> Z) (i : Z) (st : insert_state) : insert_state :=
  let dim := Height local in
  let tent :=
    for_upto dim
      (fun j tent =>
         let row := restriction j in
         let a := Data local (is_data st + j) in
         if PrimFloat.ltb (threshold_ this) (fabs a) then sm_Set tent row (is_col st) a else tent)
      (is_tent st) in
  mkInsert (is_data st + dim) (is_col st + 1) tent.

Definition contrib_tent_insert_simple (this : ContribTent)
    (agg_part_rels : agg_partitioning_relations_t) (local : DenseMatrix)
    (restriction : Z -> Z) : result ContribTent :=
  let vects := Width local in
  let dim := Height local in
  SA_ASSERT (0 <? vects) ;;;
  SA_ASSERT (vects <=? dim) ;;;
  let st :=
    for_upto vects (insert_simple_column this local restriction)
             (mkInsert 0 (filled_cols this) (tent_interp_ this)) in
  ret (set_tent this (is_tent st) (is_col st)).

(** *** contrib_tent_insert_from_local (deprecated) *)

Record local_scan : Type := mkLocalScan {
  ls_newdata : Z -> float;
  ls_newcolumn : Z -> float;
  ls_modified : bool;
  ls_nonzerodofs : Z;
  ls_adhoc_column_norm : float
}.

(** The body of the loop over [j]; [data] and [newdatap] are offsets. *)
Definition insert_from_local_entry (this : ContribTent)
    (agg_part_rels : agg_partitioning_relations_t) (local : DenseMatrix)
    (restriction : Z -> Z) (data newdatap : Z) (j : Z) (st : local_scan)
  : result local_scan :=
  SA_ASSERT (data + j <? Height local * Width local) ;;;
  let row := restriction j in
  let a := Data local (data + j) in
  if entry_is_filtered this agg_part_rels row a then
    when (SA_IS_OUTPUT_LEVEL 7 && negb (PrimFloat.eqb 0%float a))
         (SA_ALERT_PRINTF (ALERT_nonzero_on_ess_boundary a)) ;;;
    ret (mkLocalScan (<[ newdatap + j := 0%float ]> (ls_newdata st))
                     (<[ j := 0%float ]> (ls_newcolumn st))
                     true (ls_nonzerodofs st) (ls_adhoc_column_norm st))
  else
    ret (mkLocalScan (ls_newdata st) (<[ j := a ]> (ls_newcolumn st))
                     (ls_modified st) (ls_nonzerodofs st + 1)
                     (PrimFloat.add (ls_adhoc_column_norm st) (fabs a))).

Record local_state : Type := mkLocal {
  lo_data : Z;
  lo_newdata : Z -> float;
  lo_newdatap : Z;
  lo_newcolumn : Z -> float;
  lo_modified : bool;
  lo_col : Z;
  lo_tent : SparseMatrix;
  lo_bestcase_nonzerodofs : Z
}.

(** The body of the loop over the columns [i]. *)
Definition insert_from_local_column (this : ContribTent)
    (agg_part_rels : agg_partitioning_relations_t) (local : DenseMatrix)
    (restriction : Z -> Z) (i : Z) (st : local_state) : result local_state :=
  let dim := Height local in
  scan <- for_upto_res dim
            (insert_from_local_entry this agg_part_rels local restriction
               (lo_data st) (lo_newdatap st))
            (mkLocalScan (lo_newdata st) (lo_newcolumn st) (lo_modified st) 0 0%float) ;;
  let nonzerodofs := ls_nonzerodofs scan in
  let adhoc_column_norm := ls_adhoc_column_norm scan in
  let bestcase :=
    if lo_bestcase_nonzerodofs st <? nonzerodofs then nonzerodofs
    else lo_bestcase_nonzerodofs st in
  if PrimFloat.ltb adhoc_column_norm 1e-3%float then
    SA_ALERT_PRINTF (ALERT_near_zero_ignoring adhoc_column_norm) ;;;
    ret (mkLocal (lo_data st + dim) (ls_newdata scan) (lo_newdatap st)
                 (ls_newcolumn scan) true (lo_col st) (lo_tent st) bestcase)
  else
    when (PrimFloat.ltb adhoc_column_norm 1e-1%float)
         (SA_ALERT_PRINTF (ALERT_accepting_small adhoc_column_norm)) ;;;
    let '(tent, newdata) :=
      for_upto dim
        (fun j '(tent, nd) =>
           let row := restriction j in
           (sm_Set tent row (lo_col st) (ls_newcolumn scan j),
            <[ lo_newdatap st + j := ls_newcolumn scan j ]> nd))
        (lo_tent st, ls_newdata scan) in
    ret (mkLocal (lo_data st + dim) newdata (lo_newdatap st + dim)
                 (ls_newcolumn scan) (ls_modified scan) (lo_col st + 1) tent bestcase).

Definition contrib_tent_insert_from_local (this : ContribTent)
    (agg_part_rels : agg_partitioning_relations_t) (local : DenseMatrix)
    (restriction : Z -> Z) : result (ContribTent * DenseMatrix) :=
  let vects := Width local in
  let dim := Height local in
  SA_ASSERT (0 <? vects) ;;;
  SA_ASSERT (vects <=? dim) ;;;
  let firstcol := filled_cols this in
  st <- for_upto_res vects
          (insert_from_local_column this agg_part_rels local restriction)
          (mkLocal 0 indeterminate 0 indeterminate false (filled_cols this)
                   (tent_interp_ this) 0) ;;
  SA_ASSERT (lo_col st - firstcol <=? lo_bestcase_nonzerodofs st) ;;;
  let local' :=
    if lo_modified st then
      let resized := SetSize local dim (lo_col st - filled_cols this) in
      mkDense (Height resized) (Width resized)
        (for_upto (dim * Width resized) (fun j d => <[ j := lo_newdata st j ]> d)
                  (Data resized))
    else local in
  ret (set_tent this (lo_tent st) (lo_col st), local').

(** [xpack_svd_dense_arr], [xpack_orth_set] and [xpack_solve_lls] of
    xpacks.hpp: the left singular vectors and singular values of an array of
    matrices, the orthonormal set cut at a tolerance, a least squares solve. *)
Variable xpack_svd_dense_arr : (Z -> DenseMatrix) -> Z -> DenseMatrix * Vector.
Variable xpack_orth_set : DenseMatrix -> Vector -> float -> DenseMatrix.
Variable xpack_solve_lls : DenseMatrix -> Vector -> Vector.

(** *** The routines that read [PROC_RANK] *)

(** [DenseMatrix ** received_mats]: per MIS, NULL or an array of matrices. *)
Abbreviation received_mats_t := (Z -> option (Z -> DenseMatrix)) (only parsing).

Section Rank.

(** This process's rank in [PROC_COMM]. *)
Variable PROC_RANK : Z.

(** The slot of an owned MIS once the NULL case is patched:
    [new DenseMatrix[1]] and [SetSize(mis_size, 0)] on its element. *)
Definition allocate_if_null (slot : option (Z -> DenseMatrix)) (mis_size : Z)
  : Z -> DenseMatrix :=
  match slot with
  | None => <[ 0 := SetSize DenseMatrix_empty mis_size 0 ]> (fun _ => DenseMatrix_empty)
  | Some arr => arr
  end.

(** The loop [for (j = 0; j < local_spectral.Width(); ++j)] of row [k]. *)
Definition copy_row (local_spectral : DenseMatrix) (k : Z) (extended : DenseMatrix)
  : DenseMatrix :=
  for_upto (Width local_spectral)
    (fun j ext => set_Elem ext k j (Elem local_spectral k j)) extended.

(** The loop over the rows [k] of a MIS of [ExtendWithPolynomials]. *)
Definition fill_polynomials (local_spectral : DenseMatrix)
    (order spatial_dimension num_nodes : Z) (coords : Vector) (row : Z -> Z)
    (mis_size swidth : Z) (extended : DenseMatrix) : DenseMatrix :=
  for_upto mis_size
    (fun k ext =>
       let ext := copy_row local_spectral k ext in
       let ext := set_Elem ext k swidth 1%float in
       if order =? 1 then
         for_upto spatial_dimension
           (fun d ext =>
              let dof_num := row k in
              set_Elem ext k (swidth + d + 1)
                       (vElem coords (num_nodes * d + dof_num)))
           ext
       else ext)
    extended.

(** The body of the loop over the MISes of [ExtendWithPolynomials]. *)
Definition extend_polynomials_mis (agg_part_rels : agg_partitioning_relations_t)
    (order spatial_dimension num_nodes : Z) (coords : Vector)
    (mis : Z) (received_mats : received_mats_t) : result received_mats_t :=
  let owner := mis_master agg_part_rels mis in
  if owner =? PROC_RANK then
    let mis_size := mises_size agg_part_rels mis in
    let arr := allocate_if_null (received_mats mis) mis_size in
    let local_spectral := arr 0 in
    SA_ASSERT (Height local_spectral =? mis_size) ;;;
    let swidth := Width local_spectral in
    newwidth <- (if order =? 0 then ret (swidth + 1)
                 else if order =? 1 then ret (swidth + spatial_dimension + 1)
                 else throw 1) ;;
    let extended := DenseMatrix_zero (Height local_spectral) newwidth in
    let row := GetRow (mis_to_dof agg_part_rels) mis in
    let extended :=
      fill_polynomials local_spectral order spatial_dimension num_nodes coords row
                       mis_size swidth extended in
    ret (<[ mis := Some (<[ 0 := extended ]> arr) ]> received_mats)
  else ret received_mats.

Definition ExtendWithPolynomials (received_mats : received_mats_t)
    (agg_part_rels : agg_partitioning_relations_t)
    (order spatial_dimension num_nodes : Z) (coords : Vector) : result received_mats_t :=
  let num_mises := num_mises agg_part_rels in
  for_upto_res num_mises
    (extend_polynomials_mis agg_part_rels order spatial_dimension num_nodes coords)
    received_mats.

Definition ExtendWithConstants (received_mats : received_mats_t)
    (agg_part_rels : agg_partitioning_relations_t) : result received_mats_t :=
  let coords := mkVector 0 indeterminate in
  ExtendWithPolynomials received_mats agg_part_rels 0 (-1) (-1) coords.

(** The body of the loop over the nodes of a MIS of [ExtendWithRBMs]. *)
Definition extend_rbms_node (row : Z -> Z) (spatial_dimension num_nodes : Z)
    (coords : Vector) (swidth : Z) (node : Z) (extended : DenseMatrix)
  : result DenseMatrix :=
  let node_num := Z.quot (row (node * spatial_dimension)) spatial_dimension in
  SA_ASSERT (node_num <? num_nodes) ;;;
  let extended :=
    for_upto spatial_dimension
      (fun d ext =>
         let k := node * spatial_dimension + d in
         set_Elem ext k (swidth + d) 1%float)
      extended in
  let extended :=
    if 1 <? spatial_dimension then
      let xcoord := vElem coords (num_nodes * 0 + node_num) in
      let ycoord := vElem coords (num_nodes * 1 + node_num) in
      let k := node * spatial_dimension + 0 in
      let ext := set_Elem extended k (swidth + spatial_dimension + 0) ycoord in
      let k := node * spatial_dimension + 1 in
      set_Elem ext k (swidth + spatial_dimension + 0) (PrimFloat.opp xcoord)
    else extended in
  let extended :=
    if 2 <? spatial_dimension then
      let xcoord := vElem coords (num_nodes * 0 + node_num) in
      let ycoord := vElem coords (num_nodes * 1 + node_num) in
      let zcoord := vElem coords (num_nodes * 2 + node_num) in
      let k := node * spatial_dimension + 0 in
      let ext := set_Elem extended k (swidth + spatial_dimension + 1) 0%float in
      let ext := set_Elem ext k (swidth + spatial_dimension + 2) (PrimFloat.opp zcoord) in
      let k := node * spatial_dimension + 1 in
      let ext := set_Elem ext k (swidth + spatial_dimension + 1) zcoord in
      let ext := set_Elem ext k (swidth + spatial_dimension + 2) 0%float in
      let k := node * spatial_dimension + 2 in
      let ext := set_Elem ext k (swidth + spatial_dimension + 1) (PrimFloat.opp ycoord) in
      set_Elem ext k (swidth + spatial_dimension + 2) xcoord
    else extended in
  ret extended.

(** The body of the loop over the MISes of [ExtendWithRBMs]. *)
Definition extend_rbms_mis (agg_part_rels : agg_partitioning_relations_t)
    (spatial_dimension num_nodes : Z) (coords : Vector)
    (mis : Z) (received_mats : received_mats_t) : result received_mats_t :=
  let owner := mis_master agg_part_rels mis in
  if owner =? PROC_RANK then
    let mis_size := mises_size agg_part_rels mis in
    let arr := allocate_if_null (received_mats mis) mis_size in
    let local_spectral := arr 0 in
    SA_ASSERT (Height local_spectral =? mis_size) ;;;
    let swidth := Width local_spectral in
    newwidth <- (if spatial_dimension =? 1 then ret (swidth + 1)
                 else if spatial_dimension =? 2 then ret (swidth + 3)
                 else if spatial_dimension =? 3 then ret (swidth + 6)
                 else throw 1) ;;
    let extended := DenseMatrix_zero (Height local_spectral) newwidth in
    let extended :=
      for_upto mis_size (fun k ext => copy_row local_spectral k ext) extended in
    let row := GetRow (mis_to_dof agg_part_rels) mis in
    SA_ASSERT (Z.rem mis_size spatial_dimension =? 0) ;;;
    let nodes_in_mis := Z.quot mis_size spatial_dimension in
    extended <- for_upto_res nodes_in_mis
                  (extend_rbms_node row spatial_dimension num_nodes coords swidth)
                  extended ;;
    ret (<[ mis := Some (<[ 0 := extended ]> arr) ]> received_mats)
  else ret received_mats.

Definition ExtendWithRBMs (received_mats : received_mats_t)
    (agg_part_rels : agg_partitioning_relations_t)
    (spatial_dimension num_nodes : Z) (coords : Vector) : result received_mats_t :=
  let num_mises := num_mises agg_part_rels in
  for_upto_res num_mises
    (extend_rbms_mis agg_part_rels spatial_dimension num_nodes coords)
    received_mats.

(** *** SVDInsert, up to the collective call *)

Record svd_state : Type := mkSVD {
  sv_this : ContribTent;
  sv_received_mats : received_mats_t;
  sv_lsvects : DenseMatrix;
  sv_svals : Vector;
  sv_num_coarse_dofs : Z
}.

(** The loop that looks for a dof off the essential boundary, left by
    [break] at the first one. *)
Fixpoint find_interior_dof (this : ContribTent)
    (agg_part_rels : agg_partitioning_relations_t) (row : Z -> Z) (n : nat) (j : Z)
  : result bool :=
  match n with
  | O => ret false
  | Datatypes.S n' =>
      SA_ASSERT (row j <? rows this) ;;;
      if negb (agg_is_dof_on_essential_border agg_part_rels (row j)) then ret true
      else find_interior_dof this agg_part_rels row n' (j + 1)
  end.

(** Whether the MIS is skipped because all its dofs are on the essential
    boundary. *)
Definition all_dofs_on_boundary (this : ContribTent)
    (agg_part_rels : agg_partitioning_relations_t) (mis : Z) (arr : Z -> DenseMatrix)
    (dim : Z) : result bool :=
  if avoid_ess_bdr_dofs this then
    interior_dofs <- find_interior_dof this agg_part_rels
                       (GetRow (mis_to_dof agg_part_rels) mis) (Z.to_nat dim) 0 ;;
    if negb interior_dofs then
      when (SA_IS_OUTPUT_LEVEL 6)
           (SA_ALERT_PRINTF (ALERT_all_dofs_on_ess_boundary (Width (arr 0)) dim)) ;;;
      ret true
    else ret false
  else ret false.

(** The loop over [q] that filters the received matrices of a MIS. *)
Definition filter_received (this : ContribTent)
    (agg_part_rels : agg_partitioning_relations_t) (mis row_size : Z)
    (arr : Z -> DenseMatrix) : result ((Z -> DenseMatrix) * Z) :=
  for_upto_res row_size
    (fun q '(arr, total_num_columns) =>
       filtered <- contrib_filter_boundary this agg_part_rels (arr q)
                     (GetRow (mis_to_dof agg_part_rels) mis) ;;
       ret (<[ q := filtered ]> arr, total_num_columns + Width filtered))
    (arr, 0).

(** The branch [dim != 1]: the filtered matrices, the singular vectors and
    values, and the basis unless every singular value was trimmed. *)
Definition svd_basis (this : ContribTent)
    (agg_part_rels : agg_partitioning_relations_t) (mis row_size dim : Z)
    (arr : Z -> DenseMatrix) (lsvects : DenseMatrix) (svals : Vector)
  : result ((Z -> DenseMatrix) * DenseMatrix * Vector * option DenseMatrix) :=
  filtered <- filter_received this agg_part_rels mis row_size arr ;;
  let '(arr, total_num_columns) := filtered in
  let '(lsvects, svals) :=
    if total_num_columns =? 0 then (lsvects, mkVector 0 (vData svals))
    else xpack_svd_dense_arr arr row_size in
  if Size svals =? 0 then
    SA_PRINTF (WARN_zero_contribution mis) ;;;
    SA_PRINTF (WARN_dim_row_size dim row_size) ;;;
    ret (arr, lsvects, svals, None)
  else
    ret (arr, lsvects, svals, Some (xpack_orth_set lsvects svals (svd_eps this))).

(** The block under [scaling_P]: the normalized representation of the
    vector of ones, appended. *)
Definition append_one_representation (this : ContribTent) (basis : DenseMatrix)
  : ContribTent :=
  let b := mkVector (Height basis) (fun _ => 1%float) in
  let x := xpack_solve_lls basis b in
  let norm :=
    for_upto (Size x)
      (fun k norm => PrimFloat.add norm (PrimFloat.mul (vElem x k) (vElem x k)))
      0%float in
  let norm := PrimFloat.sqrt norm in
  set_local_coarse_one_representation this
    (for_upto (Size x) (fun k l => l ++ [PrimFloat.div (vElem x k) norm])
              (local_coarse_one_representation this)).

(** From [int filled_cols_l = filled_cols] to the end of the owned branch. *)
Definition insert_basis (this : ContribTent)
    (agg_part_rels : agg_partitioning_relations_t) (mis : Z) (basis : DenseMatrix)
    (scaling_P : bool) : result (ContribTent * Z) :=
  let filled_cols_l := filled_cols this in
  this <- contrib_tent_insert_simple this agg_part_rels basis
            (GetRow (mis_to_dof agg_part_rels) mis) ;;
  let filled_cols_l := filled_cols this - filled_cols_l in
  SA_ASSERT (filled_cols_l =? Width basis) ;;;
  let this :=
    if scaling_P && (0 <? filled_cols_l) then append_one_representation this basis
    else this in
  ret (set_mis_numcoarsedof this mis filled_cols_l, filled_cols_l).

(** The body of the loop over the MISes. *)
Definition svd_insert_mis (agg_part_rels : agg_partitioning_relations_t)
    (row_sizes : Z -> Z) (scaling_P : bool) (mis : Z) (st : svd_state)
  : result svd_state :=
  let owner := mis_master agg_part_rels mis in
  if owner =? PROC_RANK then
    let row_size := row_sizes mis in
    let this := set_mis_tent_interp (sv_this st) mis DenseMatrix_empty in
    let mis_size := mises_size agg_part_rels mis in
    match sv_received_mats st mis with
    | None => Fault NullPointer
    | Some arr =>
        let dim := Height (arr 0) in
        SA_ASSERT (mis_size =? dim) ;;;
        skip <- all_dofs_on_boundary this agg_part_rels mis arr dim ;;
        if skip then
          let this := set_mis_numcoarsedof this mis 0 in
          let this := set_mis_tent_interp this mis (SetSize DenseMatrix_empty dim 0) in
          ret (mkSVD this (sv_received_mats st) (sv_lsvects st) (sv_svals st)
                     (sv_num_coarse_dofs st))
        else
          reduced <-
            (if dim =? 1 then
               ret (arr, sv_lsvects st, sv_svals st,
                    Some (set_Elem (SetSize DenseMatrix_empty 1 1) 0 0 1%float))
             else
               svd_basis this agg_part_rels mis row_size dim arr
                         (sv_lsvects st) (sv_svals st)) ;;
          let '(arr, lsvects, svals, basis) := reduced in
          let received_mats := <[ mis := Some arr ]> (sv_received_mats st) in
          match basis with
          | None =>
              let this := set_mis_numcoarsedof this mis 0 in
              let this := set_mis_tent_interp this mis (SetSize DenseMatrix_empty dim 0) in
              ret (mkSVD this received_mats lsvects svals (sv_num_coarse_dofs st))
          | Some basis =>
              let this := set_mis_tent_interp this mis basis in
              when (testmesh agg_part_rels)
                   (SA_PRINTF (FILE_mis_tent_interp mis PROC_RANK (Height basis)
                                 (Width basis) (Data basis))) ;;;
              inserted <- insert_basis this agg_part_rels mis basis scaling_P ;;
              let '(this, filled_cols_l) := inserted in
              ret (mkSVD this received_mats lsvects svals
                         (sv_num_coarse_dofs st + filled_cols_l))
          end
    end
  else
    let this := set_mis_numcoarsedof (sv_this st) mis 0 in
    let this := set_mis_tent_interp this mis DenseMatrix_empty in
    ret (mkSVD this (sv_received_mats st) (sv_lsvects st) (sv_svals st)
               (sv_num_coarse_dofs st)).

(** SVDInsert from its first line to the loop's end: the object and the
    local [num_coarse_dofs] the collective call is entered with. The arrays
    [mis_tent_interps] and [mis_numcoarsedof] are allocated with [num_mises]
    elements before the loop. *)
Definition SVDInsert_local (this : ContribTent)
    (agg_part_rels : agg_partitioning_relations_t) (received_mats : received_mats_t)
    (row_sizes : Z -> Z) (scaling_P : bool) : result svd_state :=
  let num_mises := num_mises agg_part_rels in
  new_array num_mises ;;;
  new_array num_mises ;;;
  for_upto_res num_mises (svd_insert_mis agg_part_rels row_sizes scaling_P)
    (mkSVD (new_mis_arrays this) received_mats DenseMatrix_empty
           (mkVector 0 indeterminate) 0).

(** SVDInsert after [MPI_Scan] has returned [scanned] on this rank;
    [PROC_NUM] is the size of the communicator. *)
Definition SVDInsert_offset (PROC_NUM : Z) (st : svd_state) (scanned : Z)
  : result ContribTent :=
  let coarse_truedof_offset := scanned in
  let coarse_truedof_offset := coarse_truedof_offset - sv_num_coarse_dofs st in
  when ((PROC_RANK =? PROC_NUM - 1) && SA_IS_OUTPUT_LEVEL 8)
       (SA_PRINTF (PRINT_coarse_truedof_offset coarse_truedof_offset)) ;;;
  ret (set_coarse_truedof_offset (sv_this st) coarse_truedof_offset).

End Rank.

(** *** SVDInsert on every rank of the communicator *)

(** [MPI_Scan] with [MPI_SUM] on one [MPI_INT] per rank: the receive
    buffers by rank, each the sum of the send buffers up to that rank. *)
Fixpoint MPI_Scan_SUM_from (partial : Z) (sendbufs : list Z) : list Z :=
  match sendbufs with
  | [] => []
  | sendbuf :: higher => (partial + sendbuf) :: MPI_Scan_SUM_from (partial + sendbuf) higher
  end.

Definition MPI_Scan_SUM (sendbufs : list Z) : list Z := MPI_Scan_SUM_from 0 sendbufs.

(** What one rank calls SVDInsert with. *)
Record rank_input : Type := mkRankInput {
  ri_this : ContribTent;
  ri_agg_part_rels : agg_partitioning_relations_t;
  ri_received_mats : received_mats_t;
  ri_row_sizes : Z -> Z
}.

(** The ranks [rank], [rank + 1], ... each run to the collective call. *)
Fixpoint SVDInsert_locals (rank : Z) (inputs : list rank_input) (scaling_P : bool)
  : result (list svd_state) :=
  match inputs with
  | [] => ret []
  | input :: higher =>
      st <- SVDInsert_local rank (ri_this input) (ri_agg_part_rels input)
              (ri_received_mats input) (ri_row_sizes input) scaling_P ;;
      sts <- SVDInsert_locals (rank + 1) higher scaling_P ;;
      ret (st :: sts)
  end.

(** The ranks [rank], [rank + 1], ... each leave the collective call. *)
Fixpoint SVDInsert_offsets (PROC_NUM rank : Z) (sts : list svd_state)
    (scanned : list Z) : result (list ContribTent) :=
  match sts, scanned with
  | st :: sts', recvbuf :: scanned' =>
      this <- SVDInsert_offset rank PROC_NUM st recvbuf ;;
      higher <- SVDInsert_offsets PROC_NUM (rank + 1) sts' scanned' ;;
      ret (this :: higher)
  | _, _ => ret []
  end.

(** SVDInsert, called by all the ranks of [PROC_COMM]; rank r is given
    [inputs !! r] and ends with the r-th object of the result. *)
Definition SVDInsert (inputs : list rank_input) (scaling_P : bool)
  : result (list ContribTent) :=
  sts <- SVDInsert_locals 0 inputs scaling_P ;;
  let PROC_NUM := Z.of_nat (length inputs) in
  let scanned := MPI_Scan_SUM (map sv_num_coarse_dofs sts) in
  SVDInsert_offsets PROC_NUM 0 sts scanned.

(** *** Sequences of insertions *)


(** What every sequence of insertions keeps: the counter is not negative,
    the matrix under assembly has [rows] rows, and no entry sits in a column
    that the counter has not passed. *)
Definition tent_invariant (this : ContribTent) : Prop :=
  0 <= filled_cols this /\
  sm_Size (tent_interp_ this) = rows this /\
  forall r c, filled_cols this <= c -> sm_entries (tent_interp_ this) !! (r, c) = None.

(** The entry (k, j) of a contribution extended with polynomials, in the
    spec's words: the old columns, then a column of ones, then for order 1
    one column per spatial dimension d holding the coordinate d of the node
    of the dof of row k. *)
Definition polynomial_entry (local_spectral : DenseMatrix)
    (order spatial_dimension num_nodes : Z) (coords : Vector) (row : Z -> Z)
    (k j : Z) : float :=
  let w := Width local_spectral in
  if (0 <=? j) && (j <? w) then Elem local_spectral k j
  else if j =? w then 1%float
  else if (order =? 1) && (w <? j) && (j <=? w + spatial_dimension)
       then vElem coords (num_nodes * (j - w - 1) + row k)
  else 0%float.

(** The boundary filter in the spec's words. Column [i] of a matrix, top
    to bottom, and its columns, left to right. *)
Definition column (M : DenseMatrix) (i : Z) : list float :=
  map (fun j => Elem M j i) (seqZ 0 (Height M)).

Definition columns (M : DenseMatrix) : list (list float) :=
  map (column M) (seqZ 0 (Width M)).

(** An entry is zeroed when it is exactly zero or, with the avoid-boundary
    option, sits at an essential-boundary dof. *)
Definition filtered_entry (this : ContribTent)
    (agg_part_rels : agg_partitioning_relations_t) (restriction : Z -> Z)
    (j : Z) (a : float) : float :=
  if entry_is_filtered this agg_part_rels (restriction j) a then 0%float else a.

Definition filtered_column (this : ContribTent)
    (agg_part_rels : agg_partitioning_relations_t) (restriction : Z -> Z)
    (M : DenseMatrix) (i : Z) : list float :=
  map (fun j => filtered_entry this agg_part_rels restriction j (Elem M j i))
      (seqZ 0 (Height M)).

(** A column survives when one of its entries is not zeroed. *)
Definition column_survives (this : ContribTent)
    (agg_part_rels : agg_partitioning_relations_t) (restriction : Z -> Z)
    (M : DenseMatrix) (i : Z) : bool :=
  existsb (fun j => negb (entry_is_filtered this agg_part_rels (restriction j) (Elem M j i)))
          (seqZ 0 (Height M)).

(** The indices of the surviving columns, in increasing order, and the
    filtered matrix: the surviving columns, filtered, in that order. *)
Definition surviving_columns (this : ContribTent)
    (agg_part_rels : agg_partitioning_relations_t) (restriction : Z -> Z)
    (M : DenseMatrix) : list Z :=
  List.filter (column_survives this agg_part_rels restriction M) (seqZ 0 (Width M)).

Definition boundary_filter (this : ContribTent)
    (agg_part_rels : agg_partitioning_relations_t) (restriction : Z -> Z)
    (M : DenseMatrix) : list (list float) :=
  map (filtered_column this agg_part_rels restriction M)
      (surviving_columns this agg_part_rels restriction M).

(** The first [n] columns of height [dim] stored in a buffer. *)
Definition cols_of (data : Z -> float) (dim n : Z) : list (list float) :=
  map (fun c => map (fun j => data (c * dim + j)) (seqZ 0 dim)) (seqZ 0 n).

(** The alert printed for a dropped column. *)
Definition is_column_alert (m : message) : bool :=
  match m with
  | ALERT_entire_column_zero => true
  | _ => false
  end.

(** The ad hoc norm of column [i] in the deprecated insertion: the sum of
    the magnitudes of its entries that are not zeroed, top to bottom. *)
Definition adhoc_l1_norm (this : ContribTent)
    (agg_part_rels : agg_partitioning_relations_t) (restriction : Z -> Z)
    (M : DenseMatrix) (i : Z) : float :=
  fold_left
    (fun norm j =>
       if entry_is_filtered this agg_part_rels (restriction j) (Elem M j i) then norm
       else PrimFloat.add norm (fabs (Elem M j i)))
    (seqZ 0 (Height M)) 0%float.

(** The two alerts about the norm of a column. *)
Definition is_norm_alert (m : message) : bool :=
  match m with
  | ALERT_near_zero_ignoring _ | ALERT_accepting_small _ => true
  | _ => false
  end.

(** The 1 by 1 matrix containing 1.0. *)
Definition is_unit_basis (M : DenseMatrix) : Prop :=
  Height M = 1 /\ Width M = 1 /\ Elem M 0 0 = 1%float.

(** The number of rigid body modes in 1, 2 and 3 dimensions. *)
Definition rbm_count (spatial_dimension : Z) : Z :=
  if spatial_dimension =? 1 then 1 else if spatial_dimension =? 2 then 3 else 6.

(** The value of the appended column [j] (counted from the old width) on
    the component [c] of a node at (x, y, z): the translations are the
    identity block; the rotation in 2-D is (y, -x); the rotations in 3-D
    are (y, -x, 0), (0, z, -y) and (-z, 0, x). *)
Definition rbm_value (spatial_dimension : Z) (x y z : float) (c j : Z) : float :=
  if j <? spatial_dimension then (if j =? c then 1%float else 0%float)
  else if j =? spatial_dimension then
    (if c =? 0 then y else if c =? 1 then PrimFloat.opp x else 0%float)
  else if j =? spatial_dimension + 1 then
    (if c =? 0 then 0%float else if c =? 1 then z else PrimFloat.opp y)
  else
    (if c =? 0 then PrimFloat.opp z else if c =? 1 then 0%float else x).

(** The node of the mesh that the [node]-th node of a MIS is, and its
    coordinates in [coords]. *)
Definition node_num_of (row : Z -> Z) (spatial_dimension node : Z) : Z :=
  Z.quot (row (node * spatial_dimension)) spatial_dimension.

Definition node_coord (coords : Vector) (num_nodes : Z) (row : Z -> Z)
    (spatial_dimension node d : Z) : float :=
  vElem coords (num_nodes * d + node_num_of row spatial_dimension node).

(** A slot of [received_mats] that the extensions accept for a MIS of the
    given size: NULL, or a first matrix of that height. *)
Definition slot_ok (slot : option (Z -> DenseMatrix)) (mis_size : Z) : Prop :=
  match slot with
  | None => True
  | Some arr => Height (arr 0) = mis_size /\ 0 <= Width (arr 0)
  end.

(** The contribution matrix of a slot: its first matrix, of width 0 when
    the slot is NULL. *)
Definition slot_matrix (slot : option (Z -> DenseMatrix)) (mis_size : Z) : DenseMatrix :=
  match slot with
  | None => mkDense mis_size 0 (fun _ => 0%float)
  | Some arr => arr 0
  end.

(** The sum of the coarse-dof counts of a list of ranks. *)
Definition sum_counts (counts : list Z) : Z := foldr Z.add 0 counts.

(** ** Further routines of contrib.cpp *)

(** *** abs_pair_compare: pairs (value, index) compared by magnitude *)

Definition abs_pair_compare (a b : float * Z) : Z :=
  if PrimFloat.ltb (fabs a.1) (fabs b.1) then -1
  else if PrimFloat.ltb (fabs b.1) (fabs a.1) then 1
  else 0.

(** *** The deprecated insertion, column by column

    What contrib_tent_insert_from_local computes of column [i]: the number
    of its entries that are kept ([nonzerodofs]), whether one of its entries
    is zeroed, and whether the column is accepted (its ad hoc norm is not
    below 1e-3). *)
Definition nonzero_dofs (this : ContribTent)
    (agg_part_rels : agg_partitioning_relations_t) (restriction : Z -> Z)
    (M : DenseMatrix) (i : Z) : Z :=
  Z.of_nat (length (List.filter
    (fun j => negb (entry_is_filtered this agg_part_rels (restriction j) (Elem M j i)))
    (seqZ 0 (Height M)))).

Definition column_has_filtered (this : ContribTent)
    (agg_part_rels : agg_partitioning_relations_t) (restriction : Z -> Z)
    (M : DenseMatrix) (i : Z) : bool :=
  existsb (fun j => entry_is_filtered this agg_part_rels (restriction j) (Elem M j i))
          (seqZ 0 (Height M)).

Definition column_accepted (this : ContribTent)
    (agg_part_rels : agg_partitioning_relations_t) (restriction : Z -> Z)
    (M : DenseMatrix) (i : Z) : bool :=
  negb (PrimFloat.ltb (adhoc_l1_norm this agg_part_rels restriction M i) 1e-3%float).

(** The accepted columns, in increasing order; the largest number of kept
    entries over the columns ([bestcase_nonzerodofs]); and whether the
    routine rewrites [local] ([modified]). *)
Definition accepted_columns (this : ContribTent)
    (agg_part_rels : agg_partitioning_relations_t) (restriction : Z -> Z)
    (M : DenseMatrix) : list Z :=
  List.filter (column_accepted this agg_part_rels restriction M) (seqZ 0 (Width M)).

Definition bestcase_nonzerodofs (this : ContribTent)
    (agg_part_rels : agg_partitioning_relations_t) (restriction : Z -> Z)
    (M : DenseMatrix) : Z :=
  fold_left (fun best i => Z.max best (nonzero_dofs this agg_part_rels restriction M i))
            (seqZ 0 (Width M)) 0.

Definition local_modified (this : ContribTent)
    (agg_part_rels : agg_partitioning_relations_t) (restriction : Z -> Z)
    (M : DenseMatrix) : bool :=
  existsb (fun i => negb (column_accepted this agg_part_rels restriction M i)
                    || column_has_filtered this agg_part_rels restriction M i)
          (seqZ 0 (Width M)).

(** The alert about the norm of column [i], if any, and the alerts about
    the norms of the columns, left to right. *)
Definition column_norm_alert (this : ContribTent)
    (agg_part_rels : agg_partitioning_relations_t) (restriction : Z -> Z)
    (M : DenseMatrix) (i : Z) : list message :=
  let norm := adhoc_l1_norm this agg_part_rels restriction M i in
  if PrimFloat.ltb norm 1e-3%float then [ALERT_near_zero_ignoring norm]
  else if PrimFloat.ltb norm 1e-1%float then [ALERT_accepting_small norm]
  else [].

Definition norm_alerts (this : ContribTent)
    (agg_part_rels : agg_partitioning_relations_t) (restriction : Z -> Z)
    (M : DenseMatrix) : list message :=
  flat_map (column_norm_alert this agg_part_rels restriction M) (seqZ 0 (Width M)).

(** *** The coarse dofs of a rank, MIS by MIS *)

(** The sum of [mis_numcoarsedof] over the MISes 0 .. num_mises - 1; an
    entry that was never written counts for nothing. *)
Definition sum_mis_numcoarsedof (this : ContribTent) (num_mises : Z) : Z :=
  sum_counts (map (fun mis => default 0 (mis_numcoarsedof this mis)) (seqZ 0 num_mises)).

(** *** contrib_ones and contrib_linears, up to the collective call of SVDInsert *)

(** Both allocate [received_mats] with [num_mises] elements before the
    extension, and [row_sizes] with [num_mises] elements after it. *)

(** What a fresh [new int[n]] holds. *)
Variable indeterminate_int : Z -> Z.

(** [row_sizes = new int[num_mises]] with every entry set to 1. *)
Definition unit_row_sizes (num_mises : Z) : Z -> Z :=
  for_upto num_mises (fun mis row_sizes => <[ mis := 1 ]> row_sizes) indeterminate_int.

Definition contrib_ones_local (PROC_RANK : Z) (this : ContribTent)
    (agg_part_rels : agg_partitioning_relations_t) : result svd_state :=
  let num_mises := num_mises agg_part_rels in
  new_array num_mises ;;;
  let received_mats : received_mats_t := fun _ => None in
  received_mats <- ExtendWithConstants PROC_RANK received_mats agg_part_rels ;;
  new_array num_mises ;;;
  let row_sizes := unit_row_sizes num_mises in
  SVDInsert_local PROC_RANK this agg_part_rels received_mats row_sizes false.

Definition contrib_linears_local (PROC_RANK : Z) (this : ContribTent)
    (agg_part_rels : agg_partitioning_relations_t)
    (spatial_dimension num_nodes : Z) (coords : Vector) : result svd_state :=
  SA_ASSERT (Size coords =? spatial_dimension * num_nodes) ;;;
  let num_mises := num_mises agg_part_rels in
  new_array num_mises ;;;
  let received_mats : received_mats_t := fun _ => None in
  received_mats <- ExtendWithPolynomials PROC_RANK received_mats agg_part_rels 1
                     spatial_dimension num_nodes coords ;;
  new_array num_mises ;;;
  let row_sizes := unit_row_sizes num_mises in
  SVDInsert_local PROC_RANK this agg_part_rels received_mats row_sizes false.

(** The number of MISes below [k] that the rank owns: the coarse dofs that
    the MISes before [k] take when each takes one. *)
Definition owned_before (PROC_RANK : Z) (agg_part_rels : agg_partitioning_relations_t)
    (k : Z) : Z :=
  Z.of_nat (length (List.filter (fun mis => mis_master agg_part_rels mis =? PROC_RANK)
                                (seqZ 0 k))).

(** * Facts *)

(** ** The outcome monad and the loops *)

Lemma bind_Ok {A B} (m : result A) (k : A -> result B) (b : B) (out : list message) :
  bind m k = Ok b out ->
  exists a o1 o2, m = Ok a o1 /\ k a = Ok b o2 /\ out = o1 ++ o2.
Proof.
  unfold bind. destruct m as [a o1|f]; [|discriminate].
  destruct (k a) as [b' o2|f] eqn:Hk; [|discriminate].
  intros [= -> <-]. by exists a, o1, o2.
Qed.

(** Splits a hypothesis [H : bind m k = Ok b out] into the run of [m],
    named by [Hm] with its value [a], and the run of [k], left in [H]. *)
Ltac bind_inv H a Hm :=
  let o1 := fresh "o" in
  let o2 := fresh "o" in
  let Hout := fresh "Hout" in
  apply bind_Ok in H as (a & o1 & o2 & Hm & H & Hout).

Lemma SA_ASSERT_Ok (c : bool) (u : unit) (out : list message) :
  SA_ASSERT c = Ok u out -> c = true /\ out = [].
Proof. destruct c; [intros [= _ <-]; done | discriminate]. Qed.

Lemma when_Ok (c : bool) (m : message) :
  when c (SA_PRINTF m) = Ok tt (if c then [m] else []).
Proof. by destruct c. Qed.

Lemma new_array_Ok (n : Z) (u : unit) (out : list message) :
  new_array n = Ok u out -> 0 <= n /\ out = [].
Proof.
  unfold new_array. destruct (Z.ltb_spec n 0); [discriminate|].
  intros [= _ <-]. by split.
Qed.

Lemma new_array_Fault (n : Z) (f : fault) :
  new_array n = Fault f -> n < 0 /\ f = BadArrayNewLength.
Proof.
  unfold new_array. destruct (Z.ltb_spec n 0); [|discriminate].
  intros [= <-]. by split.
Qed.

Lemma new_array_nonneg {A} (n : Z) (k : result A) :
  0 <= n -> (new_array n ;;; k) = k.
Proof.
  intros Hn. unfold new_array. replace (n <? 0) with false by lia.
  by destruct k.
Qed.

Lemma new_array_negative {A} (n : Z) (k : result A) :
  n < 0 -> (new_array n ;;; k) = Fault BadArrayNewLength.
Proof. intros Hn. unfold new_array. by replace (n <? 0) with true by lia. Qed.

Lemma for_pure_ind {S : Type} (P : Z -> S -> Prop) (body : Z -> S -> S) (n : nat) :
  forall (i : Z) (s : S),
    P i s ->
    (forall k s, i <= k < i + Z.of_nat n -> P k s -> P (k + 1) (body k s)) ->
    P (i + Z.of_nat n) (for_pure n i body s).
Proof.
  induction n as [|n IH]; intros i s Hs Hstep; simpl for_pure.
  - by replace (i + Z.of_nat 0) with i by lia.
  - replace (i + Z.of_nat (Datatypes.S n)) with ((i + 1) + Z.of_nat n) by lia.
    apply IH.
    + apply Hstep; [lia | done].
    + intros k s' Hk. apply Hstep. lia.
Qed.

Lemma for_upto_ind {S : Type} (P : Z -> S -> Prop) (body : Z -> S -> S) (hi : Z) (s : S) :
  0 <= hi ->
  P 0 s ->
  (forall k s, 0 <= k < hi -> P k s -> P (k + 1) (body k s)) ->
  P hi (for_upto hi body s).
Proof.
  intros Hhi Hs Hstep. unfold for_upto.
  replace hi with (0 + Z.of_nat (Z.to_nat hi)) at 1 by lia.
  apply for_pure_ind; [done|]. intros k s' Hk. apply Hstep. lia.
Qed.

Lemma for_upto_nonpos {S : Type} (body : Z -> S -> S) (hi : Z) (s : S) :
  hi <= 0 -> for_upto hi body s = s.
Proof. intros Hhi. unfold for_upto. by replace (Z.to_nat hi) with O by lia. Qed.

Lemma for_upto_preserves {S : Type} (P : S -> Prop) (body : Z -> S -> S) (hi : Z) (s : S) :
  P s ->
  (forall k s, 0 <= k < hi -> P s -> P (body k s)) ->
  P (for_upto hi body s).
Proof.
  intros Hs Hstep. unfold for_upto.
  apply (for_pure_ind (fun _ => P)); [done|]. intros k s' Hk. apply Hstep. lia.
Qed.

(** Total correctness of a loop whose body never faults under the invariant;
    the invariant also sees what has been printed so far. *)
Lemma for_res_ind {S : Type} (P : Z -> S -> list message -> Prop)
    (body : Z -> S -> result S) (n : nat) :
  forall (i : Z) (s : S) (o : list message),
    P i s o ->
    (forall k s o, i <= k < i + Z.of_nat n -> P k s o ->
       exists s' o', body k s = Ok s' o' /\ P (k + 1) s' (o ++ o')) ->
    exists s' o', for_res n i body s = Ok s' o' /\ P (i + Z.of_nat n) s' (o ++ o').
Proof.
  induction n as [|n IH]; intros i s o Hs Hstep; simpl for_res.
  - exists s, []. split; [done|].
    rewrite app_nil_r. by replace (i + Z.of_nat 0) with i by lia.
  - destruct (Hstep i s o) as (s1 & o1 & Hbody & Hs1); [lia | done |].
    destruct (IH (i + 1) s1 (o ++ o1)) as (s2 & o2 & Hloop & Hs2); [done | |].
    { intros k s' o' Hk. apply Hstep. lia. }
    exists s2, (o1 ++ o2). unfold bind. rewrite Hbody, Hloop. split; [done|].
    rewrite app_assoc.
    by replace (i + Z.of_nat (Datatypes.S n)) with ((i + 1) + Z.of_nat n) by lia.
Qed.

Lemma for_upto_res_ind {S : Type} (P : Z -> S -> list message -> Prop)
    (body : Z -> S -> result S) (hi : Z) (s : S) :
  0 <= hi ->
  P 0 s [] ->
  (forall k s o, 0 <= k < hi -> P k s o ->
     exists s' o', body k s = Ok s' o' /\ P (k + 1) s' (o ++ o')) ->
  exists s' o', for_upto_res hi body s = Ok s' o' /\ P hi s' o'.
Proof.
  intros Hhi Hs Hstep. unfold for_upto_res.
  destruct (for_res_ind P body (Z.to_nat hi) 0 s []) as (s' & o' & Hloop & Hs');
    [done | |].
  { intros k s' o' Hk. apply Hstep. lia. }
  exists s', o'. split; [done|].
  by replace (0 + Z.of_nat (Z.to_nat hi)) with hi in Hs' by lia.
Qed.

(** Partial correctness: what a run that returned has preserved. *)
Lemma for_res_inv {S : Type} (P : Z -> S -> Prop) (body : Z -> S -> result S) (n : nat) :
  forall (i : Z) (s s' : S) (out : list message),
    P i s ->
    (forall k s s' o, i <= k < i + Z.of_nat n -> P k s -> body k s = Ok s' o ->
       P (k + 1) s') ->
    for_res n i body s = Ok s' out ->
    P (i + Z.of_nat n) s'.
Proof.
  induction n as [|n IH]; intros i s s' out Hs Hstep; simpl for_res.
  - intros [= <- _]. by replace (i + Z.of_nat 0) with i by lia.
  - intros (s1 & o1 & o2 & Hbody & Hloop & _)%bind_Ok.
    replace (i + Z.of_nat (Datatypes.S n)) with ((i + 1) + Z.of_nat n) by lia.
    apply (IH (i + 1) s1 s' o2); [| |done].
    + apply (Hstep i s s1 o1); [lia|done|done].
    + intros k t t' o Hk. apply Hstep. lia.
Qed.

Lemma for_upto_res_inv {S : Type} (P : Z -> S -> Prop) (body : Z -> S -> result S)
    (hi : Z) (s s' : S) (out : list message) :
  P 0 s ->
  (forall k s s' o, 0 <= k < hi -> P k s -> body k s = Ok s' o -> P (k + 1) s') ->
  for_upto_res hi body s = Ok s' out ->
  P (Z.max 0 hi) s'.
Proof.
  intros Hs Hstep Hloop. unfold for_upto_res in Hloop.
  replace (Z.max 0 hi) with (0 + Z.of_nat (Z.to_nat hi)) by lia.
  apply (for_res_inv P body (Z.to_nat hi) 0 s s' out); [done| |done].
  intros k t t' o Hk. apply Hstep. lia.
Qed.

(** ** contrib_tent_insert_simple *)

Lemma sm_Set_lookup (A : SparseMatrix) (i j : Z) (a : float) (key : Z * Z) :
  sm_entries (sm_Set A i j a) !! key
  = if decide ((i, j) = key) then Some a else sm_entries A !! key.
Proof. unfold sm_Set; simpl. apply lookup_insert. Qed.

(** What the loop over the rows [j] of one column leaves in the sparse
    matrix: the sizes are kept, an entry is touched only by a [Set] of an
    entry above the threshold, and what is stored is such an entry. *)
Lemma insert_simple_rows (thr : float) (data : Z -> float) (restriction : Z -> Z)
    (col dim : Z) (tent : SparseMatrix) :
  0 <= dim ->
  let tent' :=
    for_upto dim
      (fun j tent =>
         let row := restriction j in
         let a := data j in
         if PrimFloat.ltb thr (fabs a) then sm_Set tent row col a else tent)
      tent in
  sm_Size tent' = sm_Size tent /\
  sm_Width tent' = sm_Width tent /\
  sm_finalized tent' = sm_finalized tent /\
  (forall key,
     (forall j, 0 <= j < dim -> PrimFloat.ltb thr (fabs (data j)) = true ->
        key <> (restriction j, col)) ->
     sm_entries tent' !! key = sm_entries tent !! key) /\
  (forall key v,
     sm_entries tent' !! key = Some v ->
     sm_entries tent !! key = Some v \/
     exists j, 0 <= j < dim /\ key = (restriction j, col) /\
               PrimFloat.ltb thr (fabs (data j)) = true /\ v = data j) /\
  ((forall j j', 0 <= j < dim -> 0 <= j' < dim -> restriction j = restriction j' -> j = j') ->
   forall j, 0 <= j < dim -> PrimFloat.ltb thr (fabs (data j)) = true ->
     sm_entries tent' !! (restriction j, col) = Some (data j)).
Proof.
  intros Hdim tent'. subst tent'.
  apply (for_upto_ind (fun n t =>
    sm_Size t = sm_Size tent /\
    sm_Width t = sm_Width tent /\
    sm_finalized t = sm_finalized tent /\
    (forall key,
       (forall j, 0 <= j < n -> PrimFloat.ltb thr (fabs (data j)) = true ->
          key <> (restriction j, col)) ->
       sm_entries t !! key = sm_entries tent !! key) /\
    (forall key v,
       sm_entries t !! key = Some v ->
       sm_entries tent !! key = Some v \/
       exists j, 0 <= j < n /\ key = (restriction j, col) /\
                 PrimFloat.ltb thr (fabs (data j)) = true /\ v = data j) /\
    ((forall j j', 0 <= j < dim -> 0 <= j' < dim -> restriction j = restriction j' -> j = j') ->
     forall j, 0 <= j < n -> PrimFloat.ltb thr (fabs (data j)) = true ->
       sm_entries t !! (restriction j, col) = Some (data j)))); [done | |].
  - repeat split; try done; [by left | intros; lia].
  - intros k t Hk (HS & HW & HF & Hframe & Hsound & Hkept). cbv zeta.
    destruct (PrimFloat.ltb thr (fabs (data k))) eqn:Habove.
    + repeat split; try done.
      * intros key Hkey. rewrite sm_Set_lookup.
        destruct (decide ((restriction k, col) = key)) as [<-|Hne].
        { exfalso. apply (Hkey k); [lia | done | done]. }
        apply Hframe. intros j Hj. apply Hkey. lia.
      * intros key v. rewrite sm_Set_lookup.
        destruct (decide ((restriction k, col) = key)) as [<-|Hne].
        { intros [= <-]. right. exists k. repeat split; [lia | lia | done]. }
        intros [Hold|(j & Hj & Hrest)]%Hsound; [by left|].
        right. exists j. split; [lia | done].
      * intros Hinj j Hj Hj_above. rewrite sm_Set_lookup.
        destruct (decide ((restriction k, col) = (restriction j, col))) as [Heq|Hne].
        { injection Heq as Heq. apply Hinj in Heq; [by subst | lia | lia]. }
        apply Hkept; [done | | done].
        assert (j <> k) by (intros ->; done). lia.
    + repeat split; try done.
      * intros key Hkey. apply Hframe. intros j Hj. apply Hkey. lia.
      * intros key v [Hold|(j & Hj & Hrest)]%Hsound; [by left|].
        right. exists j. split; [lia | done].
      * intros Hinj j Hj Hj_above. apply Hkept; [done | | done].
        assert (j <> k) by (intros ->; congruence). lia.
Qed.

Lemma Data_Elem (M : DenseMatrix) (i j : Z) :
  Data M (j * Height M + i) = Elem M i j.
Proof. unfold Elem. f_equal. lia. Qed.

(** The state after the loop over the columns of [contrib_tent_insert_simple]. *)
Lemma insert_simple_columns (this : ContribTent) (local : DenseMatrix)
    (restriction : Z -> Z) :
  0 <= Height local -> 0 <= Width local ->
  let above i j := PrimFloat.ltb (threshold_ this) (fabs (Elem local j i)) = true in
  let fc := filled_cols this in
  let tent := tent_interp_ this in
  let st :=
    for_upto (Width local) (insert_simple_column this local restriction)
             (mkInsert 0 fc tent) in
  is_col st = fc + Width local /\
  is_data st = Width local * Height local /\
  sm_Size (is_tent st) = sm_Size tent /\
  sm_Width (is_tent st) = sm_Width tent /\
  sm_finalized (is_tent st) = sm_finalized tent /\
  (forall key,
     (forall i j, 0 <= i < Width local -> 0 <= j < Height local -> above i j ->
        key <> (restriction j, fc + i)) ->
     sm_entries (is_tent st) !! key = sm_entries tent !! key) /\
  (forall key v,
     sm_entries (is_tent st) !! key = Some v ->
     sm_entries tent !! key = Some v \/
     exists i j, 0 <= i < Width local /\ 0 <= j < Height local /\
                 key = (restriction j, fc + i) /\ above i j /\ v = Elem local j i) /\
  ((forall j j', 0 <= j < Height local -> 0 <= j' < Height local ->
      restriction j = restriction j' -> j = j') ->
   forall i j, 0 <= i < Width local -> 0 <= j < Height local -> above i j ->
     sm_entries (is_tent st) !! (restriction j, fc + i) = Some (Elem local j i)).
Proof.
  intros Hdim Hvects above fc tent st. subst st.
  set (dim := Height local) in *.
  apply (for_upto_ind (fun n st =>
    is_col st = fc + n /\
    is_data st = n * dim /\
    sm_Size (is_tent st) = sm_Size tent /\
    sm_Width (is_tent st) = sm_Width tent /\
    sm_finalized (is_tent st) = sm_finalized tent /\
    (forall key,
       (forall i j, 0 <= i < n -> 0 <= j < dim -> above i j ->
          key <> (restriction j, fc + i)) ->
       sm_entries (is_tent st) !! key = sm_entries tent !! key) /\
    (forall key v,
       sm_entries (is_tent st) !! key = Some v ->
       sm_entries tent !! key = Some v \/
       exists i j, 0 <= i < n /\ 0 <= j < dim /\
                   key = (restriction j, fc + i) /\ above i j /\ v = Elem local j i) /\
    ((forall j j', 0 <= j < dim -> 0 <= j' < dim ->
        restriction j = restriction j' -> j = j') ->
     forall i j, 0 <= i < n -> 0 <= j < dim -> above i j ->
       sm_entries (is_tent st) !! (restriction j, fc + i) = Some (Elem local j i))));
    [done | |].
  - simpl. repeat split; try done; try lia. by left.
  - intros k st Hk (Hcol & Hdata & HS & HW & HF & Hframe & Hsound & Hkept).
    unfold insert_simple_column. fold dim.
    pose proof (insert_simple_rows (threshold_ this)
                  (fun j => Data local (is_data st + j)) restriction (is_col st) dim
                  (is_tent st) Hdim) as Hrows.
    cbv zeta beta in Hrows.
    destruct Hrows as (HS' & HW' & HF' & Hframe' & Hsound' & Hkept').
    assert (Hentry : forall j, Data local (is_data st + j) = Elem local j k).
    { intros j. rewrite Hdata. apply Data_Elem. }
    simpl. repeat split; try congruence; try lia.
    + intros key Hkey. rewrite Hframe'.
      * apply Hframe. intros i j Hi. apply Hkey. lia.
      * intros j Hj Habove. rewrite Hcol. apply Hkey; [lia | done |].
        unfold above. by rewrite <- Hentry.
    + intros key v [Hold|(j & Hj & -> & Habove & ->)]%Hsound'.
      * apply Hsound in Hold as [Hold|(i & j & Hi & Hrest)]; [by left|].
        right. exists i, j. split; [lia | done].
      * right. exists k, j. unfold above. rewrite Hcol, <- Hentry.
        repeat split; done || lia.
    + intros Hinj i j Hi Hj Habove.
      destruct (decide (i = k)) as [->|Hne].
      * rewrite <- Hentry, <- Hcol. apply Hkept'; [done | done |].
        rewrite Hentry. apply Habove.
      * rewrite Hframe'.
        { apply Hkept; [done | lia | done | done]. }
        intros j' Hj' _ [= _ Heq]. lia.
Qed.

Lemma contrib_tent_insert_simple_Ok (this : ContribTent)
    (agg_part_rels : agg_partitioning_relations_t) (local : DenseMatrix)
    (restriction : Z -> Z) :
  0 < Width local -> Width local <= Height local ->
  contrib_tent_insert_simple this agg_part_rels local restriction
  = Ok (let st := for_upto (Width local) (insert_simple_column this local restriction)
                    (mkInsert 0 (filled_cols this) (tent_interp_ this)) in
        set_tent this (is_tent st) (is_col st)) [].
Proof.
  intros Hpos Hle. unfold contrib_tent_insert_simple.
  replace (0 <? Width local) with true by lia.
  replace (Width local <=? Height local) with true by lia.
  reflexivity.
Qed.

Lemma contrib_tent_insert_simple_inv (this this' : ContribTent)
    (agg_part_rels : agg_partitioning_relations_t) (local : DenseMatrix)
    (restriction : Z -> Z) (out : list message) :
  contrib_tent_insert_simple this agg_part_rels local restriction = Ok this' out ->
  0 < Width local /\ Width local <= Height local.
Proof.
  unfold contrib_tent_insert_simple.
  intros (? & ? & ? & [H1 _]%SA_ASSERT_Ok & (? & ? & ? & [H2 _]%SA_ASSERT_Ok & _)%bind_Ok & _)%bind_Ok.
  lia.
Qed.

(** A float at or below another does not exceed it. *)
Lemma SFcompare_antisym (x y : spec_float) :
  SFcompare y x = option_map CompOpp (SFcompare x y).
Proof.
  destruct x as [sx|sx| |sx mx ex], y as [sy|sy| |sy my ey]; simpl; try reflexivity;
    try (destruct sx; reflexivity); try (destruct sy; reflexivity);
    try (destruct sx, sy; reflexivity).
  destruct sx, sy; simpl; try reflexivity.
  all: rewrite (Z.compare_antisym ex ey); destruct (ex ?= ey)%Z; simpl; try reflexivity.
  all: change (PosDef.Pos.compare_cont Eq my mx) with (Pos.compare my mx);
       change (PosDef.Pos.compare_cont Eq mx my) with (Pos.compare mx my);
       rewrite (Pos.compare_antisym mx my); destruct (Pos.compare mx my); reflexivity.
Qed.

Lemma leb_not_ltb (x y : float) : PrimFloat.leb x y = true -> PrimFloat.ltb y x = false.
Proof.
  rewrite leb_spec, ltb_spec. unfold SFleb, SFltb.
  rewrite (SFcompare_antisym (Prim2SF x) (Prim2SF y)).
  destruct (SFcompare (Prim2SF x) (Prim2SF y)) as [[]|]; simpl; congruence.
Qed.

Lemma contrib_tent_insert_simple_invariant (this this' : ContribTent)
    (agg_part_rels : agg_partitioning_relations_t) (local : DenseMatrix)
    (restriction : Z -> Z) (out : list message) :
  contrib_tent_insert_simple this agg_part_rels local restriction = Ok this' out ->
  tent_invariant this ->
  tent_invariant this' /\ rows this' = rows this /\
  filled_cols this' = filled_cols this + Width local.
Proof.
  intros Hrun (Hfc & Hsize & Hfresh).
  destruct (contrib_tent_insert_simple_inv _ _ _ _ _ _ Hrun) as [Hpos Hle].
  rewrite contrib_tent_insert_simple_Ok in Hrun by done. injection Hrun as <- _.
  destruct (insert_simple_columns this local restriction)
    as (Hcol & _ & HS & _ & _ & Hframe & _); [lia | lia |].
  unfold tent_invariant. cbv zeta. simpl. rewrite Hcol.
  split_and!; [lia | congruence | | done | done].
  intros r c Hc. rewrite Hframe; [apply Hfresh; lia|].
  intros i j Hi Hj _ [= _ Heq]. lia.
Qed.

(** ** contrib_tent_insert_from_local *)

(** The loop that stores an accepted column: where it writes. *)
Lemma store_column_frame (restriction : Z -> Z) (newcolumn : Z -> float)
    (col newdatap dim : Z) (tent : SparseMatrix) (newdata : Z -> float) :
  let stored :=
    for_upto dim
      (fun j '(tent, nd) =>
         let row := restriction j in
         (sm_Set tent row col (newcolumn j), <[ newdatap + j := newcolumn j ]> nd))
      (tent, newdata) in
  sm_Size stored.1 = sm_Size tent /\
  (forall r c, c <> col -> sm_entries stored.1 !! (r, c) = sm_entries tent !! (r, c)).
Proof.
  cbv zeta. apply (for_upto_preserves (fun p : SparseMatrix * (Z -> float) =>
    sm_Size p.1 = sm_Size tent /\
    (forall r c, c <> col -> sm_entries p.1 !! (r, c) = sm_entries tent !! (r, c)))).
  - done.
  - intros k [t nd] _ [HS Hframe]. cbn [fst] in *. split; [done|].
    intros r c Hc. rewrite sm_Set_lookup.
    destruct (decide ((restriction k, col) = (r, c))) as [[= _ Heq]|_]; [done|].
    by apply Hframe.
Qed.



(** ** SVDInsert keeps the invariant of the matrix under assembly *)

Lemma tent_invariant_ext (this this' : ContribTent) :
  filled_cols this' = filled_cols this ->
  tent_interp_ this' = tent_interp_ this ->
  rows this' = rows this ->
  tent_invariant this -> tent_invariant this'.
Proof. unfold tent_invariant. by intros -> -> ->. Qed.

Lemma contrib_tent_insert_simple_fields (this this' : ContribTent)
    (agg_part_rels : agg_partitioning_relations_t) (local : DenseMatrix)
    (restriction : Z -> Z) (out : list message) :
  contrib_tent_insert_simple this agg_part_rels local restriction = Ok this' out ->
  filled_cols this' = filled_cols this + Width local /\
  rows this' = rows this /\
  avoid_ess_bdr_dofs this' = avoid_ess_bdr_dofs this /\
  threshold_ this' = threshold_ this /\
  mis_tent_interps this' = mis_tent_interps this /\
  mis_numcoarsedof this' = mis_numcoarsedof this.
Proof.
  intros Hrun.
  destruct (contrib_tent_insert_simple_inv _ _ _ _ _ _ Hrun) as [Hpos Hle].
  rewrite contrib_tent_insert_simple_Ok in Hrun by done. injection Hrun as <- _.
  destruct (insert_simple_columns this local restriction) as (Hcol & _); [lia | lia |].
  cbv zeta. simpl. by rewrite Hcol.
Qed.

Lemma insert_basis_fields (this this' : ContribTent)
    (agg_part_rels : agg_partitioning_relations_t) (mis : Z) (basis : DenseMatrix)
    (scaling_P : bool) (filled_cols_l : Z) (out : list message) :
  insert_basis this agg_part_rels mis basis scaling_P = Ok (this', filled_cols_l) out ->
  filled_cols_l = Width basis /\
  filled_cols this' = filled_cols this + Width basis /\
  rows this' = rows this /\
  avoid_ess_bdr_dofs this' = avoid_ess_bdr_dofs this /\
  mis_tent_interps this' = mis_tent_interps this /\
  mis_numcoarsedof this' = <[ mis := Some (Width basis) ]> (mis_numcoarsedof this) /\
  (tent_invariant this -> tent_invariant this').
Proof.
  unfold insert_basis. intros Hrun.
  bind_inv Hrun this1 Hsimple.
  destruct (contrib_tent_insert_simple_fields _ _ _ _ _ _ Hsimple)
    as (Hfc & Hrows & Havoid & _ & Hinterps & Hnum).
  pose proof (contrib_tent_insert_simple_invariant _ _ _ _ _ _ Hsimple) as Hinv.
  bind_inv Hrun u Hassert. injection Hrun as <- <- _.
  assert (Hl : filled_cols this1 - filled_cols this = Width basis) by lia.
  rewrite Hl.
  destruct (scaling_P && (0 <? Width basis)); simpl.
  all: split_and!; try done; try congruence.
  all: intros [Hinv' _]%Hinv; revert Hinv'; by apply tent_invariant_ext.
Qed.

(** One iteration of the loop of SVDInsert: it keeps the invariant, and of
    the per-MIS arrays it writes the slots of its own MIS only. *)
Lemma svd_insert_mis_frame (PROC_RANK : Z) (agg_part_rels : agg_partitioning_relations_t)
    (row_sizes : Z -> Z) (scaling_P : bool) (mis : Z) (st st' : svd_state)
    (out : list message) :
  svd_insert_mis PROC_RANK agg_part_rels row_sizes scaling_P mis st = Ok st' out ->
  rows (sv_this st') = rows (sv_this st) /\
  avoid_ess_bdr_dofs (sv_this st') = avoid_ess_bdr_dofs (sv_this st) /\
  (tent_invariant (sv_this st) -> tent_invariant (sv_this st')) /\
  (forall m, m <> mis ->
     mis_tent_interps (sv_this st') m = mis_tent_interps (sv_this st) m /\
     mis_numcoarsedof (sv_this st') m = mis_numcoarsedof (sv_this st) m /\
     sv_received_mats st' m = sv_received_mats st m).
Proof.
  unfold svd_insert_mis. cbv zeta.
  assert (Hsetters : forall this dim,
    let this' := set_mis_tent_interp (set_mis_numcoarsedof
                   (set_mis_tent_interp this mis DenseMatrix_empty) mis 0) mis
                   (SetSize DenseMatrix_empty dim 0) in
    rows this' = rows this /\
    avoid_ess_bdr_dofs this' = avoid_ess_bdr_dofs this /\
    (tent_invariant this -> tent_invariant this') /\
    (forall m, m <> mis ->
       mis_tent_interps this' m = mis_tent_interps this m /\
       mis_numcoarsedof this' m = mis_numcoarsedof this m)).
  { intros this dim. simpl. split_and!; try done.
    intros m Hm. by rewrite !fn_lookup_insert_ne by done. }
  destruct (mis_master agg_part_rels mis =? PROC_RANK).
  - destruct (sv_received_mats st mis) as [arr|] eqn:Hslot; [|discriminate].
    intros Hrun. bind_inv Hrun u Hassert. bind_inv Hrun skip Hskip.
    destruct skip.
    + injection Hrun as <- _. simpl sv_this. simpl sv_received_mats.
      destruct (Hsetters (sv_this st) (Height (arr 0))) as (? & ? & ? & Hframe).
      split_and!; try done. intros m Hm. by destruct (Hframe m Hm).
    + bind_inv Hrun reduced Hreduced.
      destruct reduced as [[[arr' lsvects] svals] [basis|]].
      * bind_inv Hrun u' Hfile. bind_inv Hrun inserted Hinsert.
        destruct inserted as [this' filled_cols_l].
        injection Hrun as <- _. simpl sv_this. simpl sv_received_mats.
        destruct (insert_basis_fields _ _ _ _ _ _ _ _ Hinsert)
          as (_ & _ & Hrows & Havoid & Hinterps & Hnum & Hinv).
        rewrite Hrows, Havoid, Hinterps, Hnum. simpl.
        split_and!; try done.
        intros m Hm. split_and!; by rewrite ?fn_lookup_insert_ne by done.
      * injection Hrun as <- _. simpl sv_this. simpl sv_received_mats.
        destruct (Hsetters (sv_this st) (Height (arr 0))) as (? & ? & ? & Hframe).
        split_and!; try done. intros m Hm. destruct (Hframe m Hm).
        split_and!; try done. by rewrite fn_lookup_insert_ne by done.
  - intros [= <- _]. simpl. split_and!; try done.
    intros m Hm. by rewrite !fn_lookup_insert_ne by done.
Qed.

(** The two arrays of SVDInsert are allocated before its loop. *)
Lemma SVDInsert_local_Ok (PROC_RANK : Z) (this : ContribTent)
    (agg_part_rels : agg_partitioning_relations_t) (received_mats : received_mats_t)
    (row_sizes : Z -> Z) (scaling_P : bool) (st : svd_state) (out : list message) :
  SVDInsert_local PROC_RANK this agg_part_rels received_mats row_sizes scaling_P
    = Ok st out ->
  0 <= num_mises agg_part_rels /\
  for_upto_res (num_mises agg_part_rels)
    (svd_insert_mis PROC_RANK agg_part_rels row_sizes scaling_P)
    (mkSVD (new_mis_arrays this) received_mats DenseMatrix_empty
           (mkVector 0 indeterminate) 0) = Ok st out.
Proof.
  unfold SVDInsert_local. cbv zeta. intros Hrun.
  apply bind_Ok in Hrun as (u & o1 & o2 & [Hn ->]%new_array_Ok & Hrun & ->).
  by rewrite !new_array_nonneg in Hrun by done.
Qed.

Lemma SVDInsert_local_nonneg (PROC_RANK : Z) (this : ContribTent)
    (agg_part_rels : agg_partitioning_relations_t) (received_mats : received_mats_t)
    (row_sizes : Z -> Z) (scaling_P : bool) :
  0 <= num_mises agg_part_rels ->
  SVDInsert_local PROC_RANK this agg_part_rels received_mats row_sizes scaling_P
  = for_upto_res (num_mises agg_part_rels)
      (svd_insert_mis PROC_RANK agg_part_rels row_sizes scaling_P)
      (mkSVD (new_mis_arrays this) received_mats DenseMatrix_empty
             (mkVector 0 indeterminate) 0).
Proof.
  intros Hn. unfold SVDInsert_local. cbv zeta. by rewrite !new_array_nonneg by done.
Qed.


(** ** Sequences of insertions and finalization *)



(** What is left of the entries by [Finalize]. *)
Lemma sm_Finalize_lookup (A : SparseMatrix) (key : Z * Z) (v : float) :
  sm_entries (sm_Finalize A) !! key = Some v <->
  sm_entries A !! key = Some v /\ PrimFloat.eqb v 0 = false.
Proof. unfold sm_Finalize. simpl. by rewrite map_lookup_filter_Some. Qed.

(** A value of positive magnitude does not compare equal to 0.0. *)
Lemma above_zero_not_zero (v : float) :
  PrimFloat.ltb 0 (fabs v) = true -> PrimFloat.eqb v 0 = false.
Proof.
  unfold fabs. rewrite FloatAxioms.eqb_spec, FloatAxioms.ltb_spec, FloatAxioms.abs_spec.
  change (Prim2SF 0) with (S754_zero false).
  destruct (Prim2SF v) as [sign|sign| |sign m e]; try destruct sign; by vm_compute.
Qed.


(** The assertion of SVDInsert after the insertion never fails. *)
Lemma insert_basis_Ok (this : ContribTent) (agg_part_rels : agg_partitioning_relations_t)
    (mis : Z) (basis : DenseMatrix) (scaling_P : bool) :
  0 < Width basis -> Width basis <= Height basis ->
  exists this' out,
    insert_basis this agg_part_rels mis basis scaling_P = Ok (this', Width basis) out.
Proof.
  intros Hpos Hle. unfold insert_basis.
  rewrite contrib_tent_insert_simple_Ok by done. cbv zeta.
  destruct (insert_simple_columns this basis (GetRow (mis_to_dof agg_part_rels) mis))
    as (Hcol & _); [lia | lia |].
  cbv zeta in Hcol. unfold bind at 1. cbn [filled_cols set_tent]. rewrite Hcol.
  replace (filled_cols this + Width basis - filled_cols this) with (Width basis) by lia.
  rewrite Z.eqb_refl. simpl. eauto.
Qed.

(** C9. A call of contrib_tent_insert_simple on a local basis of width v
    (0 < v <= height) returns, prints nothing and advances [filled_cols] by
    exactly v, whatever the threshold. Only entries whose magnitude exceeds
    the threshold are stored; with distinct rows, the cell of entry (j, i)
    holds the entry exactly when it exceeds the threshold and is left as it
    was otherwise. A column whose entries are all at or below the threshold
    still takes its column index: nothing is stored in that column, which is
    empty when the object satisfies the invariant of the assembly. The
    assertion of SVDInsert after the insertion holds: insert_basis returns
    with the advance equal to the width. *)
Theorem contrib_tent_insert_simple_advances (this : ContribTent)
    (agg_part_rels : agg_partitioning_relations_t) (local : DenseMatrix)
    (restriction : Z -> Z) :
  0 < Width local -> Width local <= Height local ->
  exists this',
    contrib_tent_insert_simple this agg_part_rels local restriction = Ok this' [] /\
    filled_cols this' = filled_cols this + Width local /\
    (forall key v,
       sm_entries (tent_interp_ this') !! key = Some v ->
       sm_entries (tent_interp_ this) !! key = Some v \/
       exists i j, 0 <= i < Width local /\ 0 <= j < Height local /\
                   key = (restriction j, filled_cols this + i) /\
                   v = Elem local j i /\
                   PrimFloat.ltb (threshold_ this) (fabs v) = true) /\
    ((forall j j', 0 <= j < Height local -> 0 <= j' < Height local ->
        restriction j = restriction j' -> j = j') ->
     forall i j, 0 <= i < Width local -> 0 <= j < Height local ->
       sm_entries (tent_interp_ this') !! (restriction j, filled_cols this + i)
       = if PrimFloat.ltb (threshold_ this) (fabs (Elem local j i))
         then Some (Elem local j i)
         else sm_entries (tent_interp_ this) !! (restriction j, filled_cols this + i)) /\
    (forall i, 0 <= i < Width local ->
       (forall j, 0 <= j < Height local ->
          PrimFloat.leb (fabs (Elem local j i)) (threshold_ this) = true) ->
       forall r,
         sm_entries (tent_interp_ this') !! (r, filled_cols this + i)
         = sm_entries (tent_interp_ this) !! (r, filled_cols this + i) /\
         (tent_invariant this ->
          sm_entries (tent_interp_ this') !! (r, filled_cols this + i) = None)) /\
    (forall mis scaling_P,
       exists this'' out,
         insert_basis this agg_part_rels mis local scaling_P
           = Ok (this'', Width local) out /\
         filled_cols this'' = filled_cols this + Width local).
Proof.
  intros Hpos Hle. eexists. split; [by apply contrib_tent_insert_simple_Ok|].
  destruct (insert_simple_columns this local restriction)
    as (Hcol & _ & _ & _ & _ & Hframe & Hsound & Hkept); [lia | lia |].
  cbv zeta in *. simpl. split_and!.
  - done.
  - intros key v [Hold|(i & j & Hi & Hj & -> & Habove & ->)]%Hsound; [by left|].
    right. by exists i, j.
  - intros Hinj i j Hi Hj.
    destruct (PrimFloat.ltb (threshold_ this) (fabs (Elem local j i))) eqn:Habove.
    + by apply Hkept.
    + apply Hframe. intros i' j' Hi' Hj' Habove' [= Hrow Hcol'].
      apply Hinj in Hrow; [|done|done]. assert (i = i') by lia. subst. congruence.
  - intros i Hi Hbelow r.
    assert (Hsame : sm_entries (is_tent (for_upto (Width local)
                      (insert_simple_column this local restriction)
                      (mkInsert 0 (filled_cols this) (tent_interp_ this))))
                    !! (r, filled_cols this + i)
                    = sm_entries (tent_interp_ this) !! (r, filled_cols this + i)).
    { apply Hframe. intros i' j' Hi' Hj' Habove' [= Hrow Hcol'].
      assert (i = i') by lia. subst.
      specialize (Hbelow j' Hj'). apply leb_not_ltb in Hbelow. congruence. }
    split; [done|]. intros (_ & _ & Hfresh). rewrite Hsame. apply Hfresh. lia.
  - intros mis scaling_P.
    destruct (insert_basis_Ok this agg_part_rels mis local scaling_P Hpos Hle)
      as (this'' & out & Hrun).
    exists this'', out. split; [done|].
    by destruct (insert_basis_fields _ _ _ _ _ _ _ _ Hrun) as (_ & ? & _).
Qed.

(** ** The coarse-truedof offsets *)

Lemma SVDInsert_offset_Ok (PROC_RANK PROC_NUM : Z) (st : svd_state) (scanned : Z) :
  exists out,
    SVDInsert_offset PROC_RANK PROC_NUM st scanned
    = Ok (set_coarse_truedof_offset (sv_this st) (scanned - sv_num_coarse_dofs st)) out.
Proof.
  unfold SVDInsert_offset. cbv zeta. rewrite when_Ok. simpl. eauto.
Qed.

Lemma SVDInsert_locals_length (inputs : list rank_input) (scaling_P : bool) :
  forall (rank : Z) (sts : list svd_state) (out : list message),
    SVDInsert_locals rank inputs scaling_P = Ok sts out ->
    length sts = length inputs.
Proof.
  induction inputs as [|input higher IH]; intros rank sts out; simpl.
  - by intros [= <- _].
  - intros Hrun. bind_inv Hrun st Hlocal. bind_inv Hrun sts' Hhigher.
    injection Hrun as <- _. simpl. f_equal. by eapply IH.
Qed.

(** Leaving the scan: every rank subtracts its own count from the inclusive
    sum it received, and is left with what the lower ranks counted. *)
Lemma SVDInsert_offsets_exclusive (PROC_NUM : Z) (sts : list svd_state) :
  forall (rank partial : Z),
    exists thiss out,
      SVDInsert_offsets PROC_NUM rank sts
        (MPI_Scan_SUM_from partial (map sv_num_coarse_dofs sts)) = Ok thiss out /\
      length thiss = length sts /\
      forall (r : nat) (st : svd_state),
        sts !! r = Some st ->
        thiss !! r
        = Some (set_coarse_truedof_offset (sv_this st)
                  (partial + sum_counts (take r (map sv_num_coarse_dofs sts)))).
Proof.
  induction sts as [|st sts IH]; intros rank partial; simpl.
  - exists [], []. by split_and!.
  - destruct (SVDInsert_offset_Ok rank PROC_NUM st (partial + sv_num_coarse_dofs st))
      as (o1 & Hthis).
    destruct (IH (rank + 1) (partial + sv_num_coarse_dofs st))
      as (thiss & o2 & Hhigher & Hlen & Hoffsets).
    eexists (_ :: thiss), _. unfold bind at 1. rewrite Hthis.
    unfold bind at 1. rewrite Hhigher. simpl. split_and!; [done | by f_equal |].
    intros [|r] st'; simpl.
    + intros [= <-]. do 2 f_equal. lia.
    + intros Hst'. rewrite (Hoffsets r st' Hst'). do 2 f_equal. lia.
Qed.

Lemma MPI_Scan_SUM_from_lookup (sendbufs : list Z) :
  forall (partial : Z) (r : nat) (sendbuf : Z),
    sendbufs !! r = Some sendbuf ->
    MPI_Scan_SUM_from partial sendbufs !! r
    = Some (partial + sum_counts (take r sendbufs) + sendbuf).
Proof.
  induction sendbufs as [|x higher IH]; intros partial [|r] sendbuf Hr; simplify_eq/=.
  - f_equal. lia.
  - rewrite (IH _ r sendbuf Hr). f_equal. lia.
Qed.

(** C3. When every rank has run SVDInsert up to the collective call,
    SVDInsert returns on all ranks, and the [coarse_truedof_offset] of rank
    r is the sum of the [num_coarse_dofs] of the ranks below r: the
    inclusive scan minus the rank's own count. *)
Theorem SVDInsert_offset_exclusive_prefix_sum (inputs : list rank_input)
    (scaling_P : bool) (sts : list svd_state) (out_locals : list message) :
  SVDInsert_locals 0 inputs scaling_P = Ok sts out_locals ->
  exists thiss out,
    SVDInsert inputs scaling_P = Ok thiss out /\
    length thiss = length inputs /\
    forall (r : nat) (st : svd_state),
      sts !! r = Some st ->
      exists this,
        thiss !! r = Some this /\
        coarse_truedof_offset this
        = Some (sum_counts (take r (map sv_num_coarse_dofs sts))) /\
        MPI_Scan_SUM (map sv_num_coarse_dofs sts) !! r
        = Some (sum_counts (take r (map sv_num_coarse_dofs sts))
                + sv_num_coarse_dofs st).
Proof.
  intros Hlocals. unfold SVDInsert. rewrite Hlocals.
  destruct (SVDInsert_offsets_exclusive (Z.of_nat (length inputs)) sts 0 0)
    as (thiss & o2 & Hoffsets & Hlen & Hlookup).
  exists thiss, (out_locals ++ o2). unfold bind. cbv zeta. unfold MPI_Scan_SUM.
  rewrite Hoffsets. split_and!; [done | |].
  - rewrite Hlen. by eapply SVDInsert_locals_length.
  - intros r st Hst. eexists. split; [by apply Hlookup|]. simpl. split; [done|].
    rewrite (MPI_Scan_SUM_from_lookup _ 0 r (sv_num_coarse_dofs st)).
    + f_equal.
    + by rewrite list_lookup_fmap, Hst.
Qed.

(** ** The provider of agglomerate matrices *)

(** C8. Whatever the element number, asking the provider ElementIPMatrix for
    an element matrix fails the assertion [SA_ASSERT(false)]: no matrix is
    returned. The query for the agglomerate matrix is answered by
    nonconf_AE_matrix. *)
Theorem ElementIPMatrix_GetMatrix_asserts (interp_data_t : Type)
    (nonconf_AE_matrix : interp_data_t -> Z -> Matrix)
    (this : ElementIPMatrix interp_data_t) (elno : Z) :
  @GetMatrix _ (ElementIPMatrix_provider interp_data_t nonconf_AE_matrix) this elno
  = Fault AssertFailed /\
  @BuildAEStiff _ (ElementIPMatrix_provider interp_data_t nonconf_AE_matrix) this elno
  = Ok (nonconf_AE_matrix (interp_data_nonconf interp_data_t this) elno) [].
Proof. split; reflexivity. Qed.

(** ** The extensions write the slots of owned MISes only *)

Lemma extend_polynomials_mis_frame (PROC_RANK : Z)
    (agg_part_rels : agg_partitioning_relations_t)
    (order spatial_dimension num_nodes : Z) (coords : Vector) (mis : Z)
    (received_mats received_mats' : received_mats_t) (out : list message) :
  extend_polynomials_mis PROC_RANK agg_part_rels order spatial_dimension num_nodes
    coords mis received_mats = Ok received_mats' out ->
  forall m, m <> mis \/ mis_master agg_part_rels m <> PROC_RANK ->
    received_mats' m = received_mats m.
Proof.
  unfold extend_polynomials_mis. cbv zeta.
  destruct (mis_master agg_part_rels mis =? PROC_RANK) eqn:Howner.
  - intros Hrun m Hm. bind_inv Hrun u Hassert. bind_inv Hrun newwidth Hwidth.
    injection Hrun as <- _. apply fn_lookup_insert_ne. intros <-. lia.
  - by intros [= <- _].
Qed.

Lemma extend_rbms_mis_frame (PROC_RANK : Z)
    (agg_part_rels : agg_partitioning_relations_t)
    (spatial_dimension num_nodes : Z) (coords : Vector) (mis : Z)
    (received_mats received_mats' : received_mats_t) (out : list message) :
  extend_rbms_mis PROC_RANK agg_part_rels spatial_dimension num_nodes
    coords mis received_mats = Ok received_mats' out ->
  forall m, m <> mis \/ mis_master agg_part_rels m <> PROC_RANK ->
    received_mats' m = received_mats m.
Proof.
  unfold extend_rbms_mis. cbv zeta.
  destruct (mis_master agg_part_rels mis =? PROC_RANK) eqn:Howner.
  - intros Hrun m Hm. bind_inv Hrun u Hassert. bind_inv Hrun newwidth Hwidth.
    bind_inv Hrun u' Hassert'. bind_inv Hrun extended Hnodes.
    injection Hrun as <- _. apply fn_lookup_insert_ne. intros <-. lia.
  - by intros [= <- _].
Qed.

(** C10. When ExtendWithPolynomials or ExtendWithRBMs returns, the slot of
    [received_mats] of every MIS whose owner is another rank is what it was:
    neither allocated nor widened. The same holds after any number of
    iterations of the loop over the MISes, so also for the array as a throw
    or a failed assertion in a later iteration leaves it: an iteration
    writes the slot of its own MIS only, and only when the rank owns it. *)
Theorem Extend_leaves_foreign_slots (PROC_RANK : Z)
    (agg_part_rels : agg_partitioning_relations_t)
    (order spatial_dimension num_nodes : Z) (coords : Vector)
    (received_mats : received_mats_t) (mis : Z) :
  mis_master agg_part_rels mis <> PROC_RANK ->
  (forall received_mats' out,
     ExtendWithPolynomials PROC_RANK received_mats agg_part_rels order
       spatial_dimension num_nodes coords = Ok received_mats' out ->
     received_mats' mis = received_mats mis) /\
  (forall received_mats' out,
     ExtendWithRBMs PROC_RANK received_mats agg_part_rels
       spatial_dimension num_nodes coords = Ok received_mats' out ->
     received_mats' mis = received_mats mis) /\
  (forall n received_mats' out,
     for_res n 0
       (extend_polynomials_mis PROC_RANK agg_part_rels order spatial_dimension
          num_nodes coords) received_mats = Ok received_mats' out ->
     received_mats' mis = received_mats mis) /\
  (forall n received_mats' out,
     for_res n 0
       (extend_rbms_mis PROC_RANK agg_part_rels spatial_dimension num_nodes coords)
       received_mats = Ok received_mats' out ->
     received_mats' mis = received_mats mis).
Proof.
  intros Hforeign.
  assert (Hpoly : forall n received_mats' out,
    for_res n 0
      (extend_polynomials_mis PROC_RANK agg_part_rels order spatial_dimension
         num_nodes coords) received_mats = Ok received_mats' out ->
    received_mats' mis = received_mats mis).
  { intros n received_mats' out Hrun.
    apply (for_res_inv (fun _ m => m mis = received_mats mis)) in Hrun; [done | done |].
    intros k m m' o _ <- Hstep.
    apply (extend_polynomials_mis_frame _ _ _ _ _ _ _ _ _ _ Hstep). by right. }
  assert (Hrbms : forall n received_mats' out,
    for_res n 0
      (extend_rbms_mis PROC_RANK agg_part_rels spatial_dimension num_nodes coords)
      received_mats = Ok received_mats' out ->
    received_mats' mis = received_mats mis).
  { intros n received_mats' out Hrun.
    apply (for_res_inv (fun _ m => m mis = received_mats mis)) in Hrun; [done | done |].
    intros k m m' o _ <- Hstep.
    apply (extend_rbms_mis_frame _ _ _ _ _ _ _ _ _ Hstep). by right. }
  split_and!; [| | done | done]; intros received_mats' out Hrun.
  - apply (Hpoly _ _ _ Hrun).
  - apply (Hrbms _ _ _ Hrun).
Qed.

(** ** Dense matrices: reading after writing *)

Lemma Height_set_Elem (M : DenseMatrix) (i j : Z) (v : float) :
  Height (set_Elem M i j v) = Height M.
Proof. done. Qed.

Lemma Width_set_Elem (M : DenseMatrix) (i j : Z) (v : float) :
  Width (set_Elem M i j v) = Width M.
Proof. done. Qed.

Lemma Elem_set_Elem (M : DenseMatrix) (i j i' j' : Z) (v : float) :
  0 <= i < Height M -> 0 <= i' < Height M ->
  Elem (set_Elem M i j v) i' j'
  = if (i =? i') && (j =? j') then v else Elem M i' j'.
Proof.
  intros Hi Hi'. unfold Elem, set_Elem. simpl.
  destruct (Z.eqb_spec i i') as [->|Hne]; simpl.
  - destruct (Z.eqb_spec j j') as [->|Hne]; [apply fn_lookup_insert|].
    apply fn_lookup_insert_ne. nia.
  - apply fn_lookup_insert_ne. intros Hidx.
    assert (j = j') by nia. subst. lia.
Qed.

(** Case analysis on the integer tests of a goal. *)
Ltac Z_tests :=
  repeat match goal with
    | |- context [?a =? ?b] => destruct (Z.eqb_spec a b)
    | |- context [?a <? ?b] => destruct (Z.ltb_spec a b)
    | |- context [?a <=? ?b] => destruct (Z.leb_spec a b)
    end;
  simpl; try done; try lia.

(** The copy of row [k] of [local_spectral] into [extended]. *)
Lemma copy_row_spec (local_spectral extended : DenseMatrix) (k : Z) :
  0 <= k < Height extended -> 0 <= Width local_spectral ->
  let copied := copy_row local_spectral k extended in
  Height copied = Height extended /\
  Width copied = Width extended /\
  forall i j, 0 <= i < Height extended ->
    Elem copied i j
    = if (i =? k) && (0 <=? j) && (j <? Width local_spectral)
      then Elem local_spectral k j else Elem extended i j.
Proof.
  intros Hk Hw. cbv zeta. unfold copy_row.
  apply (for_upto_ind (fun n ext =>
    Height ext = Height extended /\
    Width ext = Width extended /\
    forall i j, 0 <= i < Height extended ->
      Elem ext i j
      = if (i =? k) && (0 <=? j) && (j <? n)
        then Elem local_spectral k j else Elem extended i j)); [done | |].
  - split_and!; [done | done |]. intros i j Hi. Z_tests.
  - intros n ext Hn (HH & HW & Hread). split_and!; [done | done |].
    intros i j Hi. rewrite Elem_set_Elem by lia. rewrite Hread by done.
    Z_tests; by subst.
Qed.

(** ** ExtendWithPolynomials *)

(** The loop over the spatial dimensions [d] of row [k]. *)
Lemma fill_coordinates_spec (coords : Vector) (row : Z -> Z)
    (spatial_dimension num_nodes swidth k : Z) (ext : DenseMatrix) :
  0 <= k < Height ext -> 0 <= spatial_dimension ->
  let filled :=
    for_upto spatial_dimension
      (fun d ext =>
         let dof_num := row k in
         set_Elem ext k (swidth + d + 1) (vElem coords (num_nodes * d + dof_num)))
      ext in
  Height filled = Height ext /\
  Width filled = Width ext /\
  forall i j, 0 <= i < Height ext ->
    Elem filled i j
    = if (i =? k) && (swidth <? j) && (j <=? swidth + spatial_dimension)
      then vElem coords (num_nodes * (j - swidth - 1) + row k)
      else Elem ext i j.
Proof.
  intros Hk Hsd. cbv zeta.
  apply (for_upto_ind (fun n filled =>
    Height filled = Height ext /\
    Width filled = Width ext /\
    forall i j, 0 <= i < Height ext ->
      Elem filled i j
      = if (i =? k) && (swidth <? j) && (j <=? swidth + n)
        then vElem coords (num_nodes * (j - swidth - 1) + row k)
        else Elem ext i j)); [done | |].
  - split_and!; [done | done |]. intros i j Hi. Z_tests.
  - intros n filled Hn (HH & HW & Hread). split_and!; [done | done |].
    intros i j Hi. rewrite Elem_set_Elem by lia. rewrite Hread by done.
    Z_tests. subst. do 2 f_equal. lia.
Qed.

Lemma fill_polynomials_spec (local_spectral : DenseMatrix)
    (order spatial_dimension num_nodes : Z) (coords : Vector) (row : Z -> Z)
    (newwidth : Z) :
  0 <= Height local_spectral -> 0 <= Width local_spectral ->
  order = 0 \/ (order = 1 /\ 0 <= spatial_dimension) ->
  let extended :=
    fill_polynomials local_spectral order spatial_dimension num_nodes coords row
      (Height local_spectral) (Width local_spectral)
      (DenseMatrix_zero (Height local_spectral) newwidth) in
  Height extended = Height local_spectral /\
  Width extended = newwidth /\
  forall k j, 0 <= k < Height local_spectral ->
    Elem extended k j
    = polynomial_entry local_spectral order spatial_dimension num_nodes coords row k j.
Proof.
  intros Hh Hw Horder. cbv zeta. unfold fill_polynomials.
  set (H := Height local_spectral) in *. set (w := Width local_spectral) in *.
  lazymatch goal with
  | |- context [for_upto H ?body ?init] =>
      pose proof (for_upto_ind (fun n ext =>
        Height ext = H /\
        Width ext = newwidth /\
        forall k j, 0 <= k < H ->
          Elem ext k j
          = if k <? n
            then polynomial_entry local_spectral order spatial_dimension num_nodes
                   coords row k j
            else 0%float) body H init Hh) as Hloop
  end.
  cbv beta in Hloop. destruct Hloop as (HH & HW & Hread); [| |].
  3: { split_and!; [done | done |].
       intros k j Hk. rewrite Hread by done. by replace (k <? H) with true by lia. }
  - split_and!; [done | done |]. intros k j Hk. Z_tests.
  - intros n ext Hn (HH & HW & Hread).
    destruct (copy_row_spec local_spectral ext n) as (HH1 & HW1 & Hread1);
      [lia | done |].
    cbv zeta in HH1, HW1, Hread1. cbv zeta.
    set (ext1 := copy_row local_spectral n ext) in *.
    assert (Hread2 : forall k j, 0 <= k < H ->
      Elem (set_Elem ext1 n w 1%float) k j
      = if k =? n
        then (if (0 <=? j) && (j <? w) then Elem local_spectral n j
              else if j =? w then 1%float else 0%float)
        else Elem ext k j).
    { intros k j Hk. rewrite Elem_set_Elem by lia. rewrite Hread1 by lia.
      Z_tests; subst; rewrite Hread by lia; Z_tests. }
    destruct Horder as [->|[-> Hsd]]; simpl (_ =? 1).
    + split_and!; [by rewrite Height_set_Elem, HH1
                  | by rewrite Width_set_Elem, HW1 |].
      intros k j Hk. rewrite Hread2 by done. unfold polynomial_entry. fold w.
      Z_tests; subst; try done; rewrite Hread by lia; unfold polynomial_entry; fold w;
        Z_tests.
    + destruct (fill_coordinates_spec coords row spatial_dimension num_nodes w n
                  (set_Elem ext1 n w 1%float)) as (HH3 & HW3 & Hread3);
        [rewrite Height_set_Elem; lia | done |].
      cbv zeta in HH3, HW3, Hread3. rewrite Height_set_Elem in HH3, Hread3.
      rewrite Width_set_Elem in HW3.
      split_and!; [congruence | congruence |].
      intros k j Hk. rewrite Hread3 by lia. rewrite Hread2 by done.
      unfold polynomial_entry. fold w.
      Z_tests; subst; try done; rewrite Hread by lia; unfold polynomial_entry; fold w;
        Z_tests.
Qed.

(** A loop over the MISes whose body writes the slot of its MIS only and
    prints nothing. *)
Lemma for_each_slot {A : Type} (body : Z -> (Z -> A) -> result (Z -> A)) (n : Z)
    (post : Z -> A -> A -> Prop) (mats : Z -> A) :
  (forall mis m, 0 <= mis < n -> m mis = mats mis ->
     exists m', body mis m = Ok m' [] /\ post mis (mats mis) (m' mis) /\
                forall k, k <> mis -> m' k = m k) ->
  exists mats',
    for_upto_res n body mats = Ok mats' [] /\
    (forall mis, 0 <= mis < n -> post mis (mats mis) (mats' mis)) /\
    (forall mis, ~ (0 <= mis < n) -> mats' mis = mats mis).
Proof.
  intros Hbody. destruct (Z.le_gt_cases 0 n) as [Hn|Hn].
  - destruct (for_upto_res_ind (fun k m o =>
        o = [] /\
        (forall mis, 0 <= mis < k -> post mis (mats mis) (m mis)) /\
        (forall mis, ~ (0 <= mis < k) -> m mis = mats mis)) body n mats Hn)
      as (mats' & o & Hloop & -> & Hpost & Hframe).
    + split_and!; [done | intros; lia | done].
    + intros k m o Hk (-> & Hpost & Hframe).
      destruct (Hbody k m Hk) as (m' & Hstep & Hpost' & Hframe'); [apply Hframe; lia|].
      exists m', []. split_and!; [done | done | |].
      * intros mis Hmis. destruct (decide (mis = k)) as [->|Hne]; [done|].
        rewrite Hframe' by done. apply Hpost. lia.
      * intros mis Hmis. rewrite Hframe' by lia. apply Hframe. lia.
    + by exists mats'.
  - exists mats. unfold for_upto_res. replace (Z.to_nat n) with O by lia.
    split_and!; [done | intros; lia | done].
Qed.

(** A loop stops at the first iteration that faults when the iterations
    before it leave the state as it is and print nothing. *)
Lemma for_res_first_fault {S : Type} (body : Z -> S -> result S) (s : S) (f : fault)
    (n : nat) :
  forall i : Z,
    (forall k, i <= k < i + Z.of_nat n -> body k s = Ok s [] \/ body k s = Fault f) ->
    (exists k, i <= k < i + Z.of_nat n /\ body k s = Fault f) ->
    for_res n i body s = Fault f.
Proof.
  induction n as [|n IH]; intros i Hbody (k & Hk & Hfault); [lia|].
  simpl. destruct (Hbody i) as [Hok|Hstop]; [lia | |].
  - unfold bind. rewrite Hok. rewrite IH; [done | |].
    + intros k' Hk'. apply Hbody. lia.
    + exists k. split; [|done]. destruct (decide (k = i)) as [->|]; [congruence | lia].
  - unfold bind. by rewrite Hstop.
Qed.

Lemma slot_matrix_allocate (slot : option (Z -> DenseMatrix)) (mis_size : Z) :
  allocate_if_null slot mis_size 0 = slot_matrix slot mis_size.
Proof. by destruct slot. Qed.

Lemma slot_matrix_ok (slot : option (Z -> DenseMatrix)) (mis_size : Z) :
  slot_ok slot mis_size ->
  Height (slot_matrix slot mis_size) = mis_size /\
  0 <= Width (slot_matrix slot mis_size).
Proof. destruct slot; simpl; [done | lia]. Qed.

(** One owned MIS of ExtendWithPolynomials with a supported order. *)
Lemma extend_polynomials_mis_owned (PROC_RANK : Z)
    (agg_part_rels : agg_partitioning_relations_t)
    (order spatial_dimension num_nodes : Z) (coords : Vector) (mis : Z)
    (received_mats : received_mats_t) :
  mis_master agg_part_rels mis = PROC_RANK ->
  0 <= mises_size agg_part_rels mis ->
  slot_ok (received_mats mis) (mises_size agg_part_rels mis) ->
  order = 0 \/ (order = 1 /\ 0 <= spatial_dimension) ->
  let old := slot_matrix (received_mats mis) (mises_size agg_part_rels mis) in
  exists arr',
    extend_polynomials_mis PROC_RANK agg_part_rels order spatial_dimension num_nodes
      coords mis received_mats
    = Ok (<[ mis := Some arr' ]> received_mats) [] /\
    Height (arr' 0) = mises_size agg_part_rels mis /\
    Width (arr' 0) = Width old + 1 + (if order =? 1 then spatial_dimension else 0) /\
    forall k j, 0 <= k < mises_size agg_part_rels mis ->
      Elem (arr' 0) k j
      = polynomial_entry old order spatial_dimension num_nodes coords
          (GetRow (mis_to_dof agg_part_rels) mis) k j.
Proof.
  intros Howner Hsize [Hheight Hwidth]%slot_matrix_ok Horder old.
  unfold extend_polynomials_mis. cbv zeta.
  rewrite Howner, Z.eqb_refl, slot_matrix_allocate. fold old in Hheight, Hwidth |- *.
  rewrite Hheight, Z.eqb_refl. unfold SA_ASSERT, bind at 1, ret.
  set (newwidth := Width old + 1 + (if order =? 1 then spatial_dimension else 0)).
  assert (Hnew : (if order =? 0 then Ok (Width old + 1) []
                  else if order =? 1 then Ok (Width old + spatial_dimension + 1) []
                  else throw 1) = Ok newwidth []).
  { unfold newwidth. destruct Horder as [->|[-> _]]; simpl; f_equal; lia. }
  rewrite Hnew. unfold bind at 1.
  destruct (fill_polynomials_spec old order spatial_dimension num_nodes coords
              (GetRow (mis_to_dof agg_part_rels) mis) newwidth)
    as (HH & HW & Hread); [lia | done | done |].
  cbv zeta in HH, HW, Hread. rewrite Hheight in HH, HW, Hread.
  eexists. split; [reflexivity|]. rewrite fn_lookup_insert. by split_and!.
Qed.

(** C4. On a rank whose owned MISes have slots that are NULL or hold a
    first matrix of the height of the MIS: with order 0 (or order 1 and a
    spatial dimension that is not negative) ExtendWithPolynomials returns and
    prints nothing, and the matrix of every owned MIS, of width w before,
    has width w + 1 for order 0 and w + 1 + spatial_dimension for order 1;
    its old columns are kept, column w is 1.0 on every row, and for order 1
    column w + 1 + d holds on row k the coordinate d of the dof of row k,
    [coords(num_nodes * d + dof)]. With any other order, a rank that owns a
    MIS throws 1. *)
Theorem ExtendWithPolynomials_appends (PROC_RANK : Z)
    (agg_part_rels : agg_partitioning_relations_t) (received_mats : received_mats_t)
    (order spatial_dimension num_nodes : Z) (coords : Vector) :
  (forall mis, 0 <= mis < num_mises agg_part_rels ->
     mis_master agg_part_rels mis = PROC_RANK ->
     0 <= mises_size agg_part_rels mis /\
     slot_ok (received_mats mis) (mises_size agg_part_rels mis)) ->
  (order = 0 \/ (order = 1 /\ 0 <= spatial_dimension) ->
   exists received_mats',
     ExtendWithPolynomials PROC_RANK received_mats agg_part_rels order
       spatial_dimension num_nodes coords = Ok received_mats' [] /\
     forall mis, 0 <= mis < num_mises agg_part_rels ->
       mis_master agg_part_rels mis = PROC_RANK ->
       let mis_size := mises_size agg_part_rels mis in
       let old := slot_matrix (received_mats mis) mis_size in
       let w := Width old in
       exists arr',
         received_mats' mis = Some arr' /\
         Height (arr' 0) = mis_size /\
         Width (arr' 0) = (if order =? 0 then w + 1 else w + 1 + spatial_dimension) /\
         forall k, 0 <= k < mis_size ->
           Elem (arr' 0) k w = 1%float /\
           (forall j, 0 <= j < w -> Elem (arr' 0) k j = Elem old k j) /\
           (order = 1 -> forall d, 0 <= d < spatial_dimension ->
              Elem (arr' 0) k (w + 1 + d)
              = vElem coords (num_nodes * d
                              + GetRow (mis_to_dof agg_part_rels) mis k))) /\
  (order <> 0 -> order <> 1 ->
   (exists mis, 0 <= mis < num_mises agg_part_rels /\
                mis_master agg_part_rels mis = PROC_RANK) ->
   ExtendWithPolynomials PROC_RANK received_mats agg_part_rels order
     spatial_dimension num_nodes coords = Fault (Thrown 1)).
Proof.
  intros Hslots. split.
  - intros Horder. unfold ExtendWithPolynomials. cbv zeta.
    destruct (for_each_slot
      (extend_polynomials_mis PROC_RANK agg_part_rels order spatial_dimension
         num_nodes coords)
      (num_mises agg_part_rels)
      (fun mis slot slot' =>
         mis_master agg_part_rels mis = PROC_RANK ->
         let old := slot_matrix slot (mises_size agg_part_rels mis) in
         exists arr',
           slot' = Some arr' /\
           Height (arr' 0) = mises_size agg_part_rels mis /\
           Width (arr' 0)
           = Width old + 1 + (if order =? 1 then spatial_dimension else 0) /\
           forall k j, 0 <= k < mises_size agg_part_rels mis ->
             Elem (arr' 0) k j
             = polynomial_entry old order spatial_dimension num_nodes coords
                 (GetRow (mis_to_dof agg_part_rels) mis) k j)
      received_mats) as (mats' & Hloop & Hpost & _).
    + intros mis m Hmis Hslot.
      destruct (decide (mis_master agg_part_rels mis = PROC_RANK)) as [Howner|Hforeign].
      * destruct (Hslots mis Hmis Howner) as [Hsize Hok].
        rewrite <- Hslot in Hok.
        destruct (extend_polynomials_mis_owned PROC_RANK agg_part_rels order
                    spatial_dimension num_nodes coords mis m Howner Hsize Hok Horder)
          as (arr' & Hrun & HH & HW & Hread).
        eexists. split; [exact Hrun|]. split.
        -- intros _. exists arr'. rewrite fn_lookup_insert, <- Hslot. by split_and!.
        -- intros k Hk. by apply fn_lookup_insert_ne.
      * exists m. unfold extend_polynomials_mis. cbv zeta.
        replace (mis_master agg_part_rels mis =? PROC_RANK) with false by lia.
        by split_and!.
    + exists mats'. split; [done|].
      intros mis Hmis Howner.
      destruct (Hpost mis Hmis Howner) as (arr' & Hslot' & HH & HW & Hread).
      destruct (Hslots mis Hmis Howner) as [Hsize [_ Hwidth]%slot_matrix_ok].
      set (mis_size := mises_size agg_part_rels mis) in *.
      set (old := slot_matrix (received_mats mis) mis_size) in *.
      set (w := Width old) in *.
      exists arr'. split_and!; [done | done | |].
      * rewrite HW. destruct Horder as [->|[-> _]]; simpl; lia.
      * intros k Hk. split_and!.
        -- rewrite Hread by done. unfold polynomial_entry. fold w. Z_tests.
        -- intros j Hj. rewrite Hread by done. unfold polynomial_entry. fold w. Z_tests.
        -- intros -> d Hd. rewrite Hread by done. unfold polynomial_entry. fold w.
           Z_tests. do 2 f_equal. lia.
  - intros Hne0 Hne1 (mis & Hmis & Howner).
    unfold ExtendWithPolynomials, for_upto_res. cbv zeta.
    apply for_res_first_fault.
    + intros k Hk. unfold extend_polynomials_mis. cbv zeta.
      destruct (Z.eqb_spec (mis_master agg_part_rels k) PROC_RANK) as [Hown|Hforeign];
        [right | by left].
      destruct (Hslots k) as [_ [Hheight _]%slot_matrix_ok]; [lia | done |].
      rewrite slot_matrix_allocate, Hheight, Z.eqb_refl.
      replace (order =? 0) with false by lia. by replace (order =? 1) with false by lia.
    + exists mis. split; [lia|]. unfold extend_polynomials_mis. cbv zeta.
      rewrite Howner, Z.eqb_refl.
      destruct (Hslots mis) as [_ [Hheight _]%slot_matrix_ok]; [lia | done |].
      rewrite slot_matrix_allocate, Hheight, Z.eqb_refl.
      replace (order =? 0) with false by lia. by replace (order =? 1) with false by lia.
Qed.

(** ** ExtendWithRBMs *)

(** Case analysis on the integer tests of a goal, dropping at once the
    cases that contradict the hypotheses. *)
Ltac Z_cases :=
  repeat match goal with
    | |- context [?a =? ?b] => destruct (Z.eqb_spec a b); try (exfalso; lia)
    | |- context [?a <? ?b] => destruct (Z.ltb_spec a b); try (exfalso; lia)
    | |- context [?a <=? ?b] => destruct (Z.leb_spec a b); try (exfalso; lia)
    end;
  simpl.

(** The loop that copies the rows of [local_spectral] into the zero matrix. *)
Lemma copy_rows_spec (local_spectral : DenseMatrix) (newwidth : Z) :
  0 <= Height local_spectral -> 0 <= Width local_spectral ->
  let extended :=
    for_upto (Height local_spectral) (fun k ext => copy_row local_spectral k ext)
             (DenseMatrix_zero (Height local_spectral) newwidth) in
  Height extended = Height local_spectral /\
  Width extended = newwidth /\
  forall k j, 0 <= k < Height local_spectral ->
    Elem extended k j
    = if (0 <=? j) && (j <? Width local_spectral) then Elem local_spectral k j
      else 0%float.
Proof.
  intros Hh Hw. cbv zeta.
  set (H := Height local_spectral) in *. set (w := Width local_spectral) in *.
  lazymatch goal with
  | |- context [for_upto H ?body ?init] =>
      pose proof (for_upto_ind (fun n ext =>
        Height ext = H /\
        Width ext = newwidth /\
        forall k j, 0 <= k < H ->
          Elem ext k j
          = if (k <? n) && (0 <=? j) && (j <? w) then Elem local_spectral k j
            else 0%float) body H init Hh) as Hloop
  end.
  cbv beta in Hloop. destruct Hloop as (HH & HW & Hread); [| |].
  3: { split_and!; [done | done |].
       intros k j Hk. rewrite Hread by done. by replace (k <? H) with true by lia. }
  - split_and!; [done | done |]. intros k j Hk. Z_tests.
  - intros n ext Hn (HH & HW & Hread).
    destruct (copy_row_spec local_spectral ext n) as (HH1 & HW1 & Hread1);
      [lia | done |].
    cbv zeta in HH1, HW1, Hread1. split_and!; [congruence | congruence |].
    intros k j Hk. rewrite Hread1, Hread by lia. fold w. Z_tests; by subst.
Qed.

(** One node of a MIS: the block of rows of the node receives the rigid
    body modes, provided it held zeros in the appended columns. *)
Lemma extend_rbms_node_spec (row : Z -> Z) (spatial_dimension num_nodes : Z)
    (coords : Vector) (swidth node : Z) (extended : DenseMatrix) :
  spatial_dimension = 1 \/ spatial_dimension = 2 \/ spatial_dimension = 3 ->
  0 <= node -> node * spatial_dimension + spatial_dimension <= Height extended ->
  node_num_of row spatial_dimension node < num_nodes ->
  (forall k j, node * spatial_dimension <= k < node * spatial_dimension + spatial_dimension ->
     swidth <= j -> Elem extended k j = 0%float) ->
  exists extended',
    extend_rbms_node row spatial_dimension num_nodes coords swidth node extended
    = Ok extended' [] /\
    Height extended' = Height extended /\
    Width extended' = Width extended /\
    forall k j, 0 <= k < Height extended ->
      Elem extended' k j
      = if (node * spatial_dimension <=? k)
           && (k <? node * spatial_dimension + spatial_dimension)
           && (swidth <=? j) && (j <? swidth + rbm_count spatial_dimension)
        then rbm_value spatial_dimension
               (node_coord coords num_nodes row spatial_dimension node 0)
               (node_coord coords num_nodes row spatial_dimension node 1)
               (node_coord coords num_nodes row spatial_dimension node 2)
               (k - node * spatial_dimension) (j - swidth)
        else Elem extended k j.
Proof.
  intros Hsd Hnode Hrows Hnum Hzero.
  unfold extend_rbms_node. cbv zeta. fold (node_num_of row spatial_dimension node).
  replace (node_num_of row spatial_dimension node <? num_nodes) with true by lia.
  unfold SA_ASSERT, bind, ret. eexists. split; [reflexivity|].
  unfold node_coord, rbm_count, rbm_value.
  destruct Hsd as [-> | [-> | ->]]; unfold for_upto; simpl for_pure.
  all: try change (1 <? 1) with false; try change (2 <? 1) with false.
  all: try change (1 <? 2) with true; try change (2 <? 2) with false.
  all: try change (1 <? 3) with true; try change (2 <? 3) with true.
  all: cbv iota.
  all: split_and!; [done | done |].
  all: intros k j Hk.
  all: rewrite !Elem_set_Elem by (rewrite ?Height_set_Elem; lia).
  all: Z_cases; try done; try (apply Hzero; lia); try (symmetry; apply Hzero; lia).
Qed.

(** The loop over the nodes of a MIS. *)
Lemma extend_rbms_nodes_spec (old : DenseMatrix) (row : Z -> Z)
    (spatial_dimension num_nodes : Z) (coords : Vector) (extended : DenseMatrix) :
  spatial_dimension = 1 \/ spatial_dimension = 2 \/ spatial_dimension = 3 ->
  0 <= Height old -> Z.rem (Height old) spatial_dimension = 0 ->
  (forall node, 0 <= node < Z.quot (Height old) spatial_dimension ->
     node_num_of row spatial_dimension node < num_nodes) ->
  Height extended = Height old ->
  (forall k j, 0 <= k < Height old ->
     Elem extended k j
     = if (0 <=? j) && (j <? Width old) then Elem old k j else 0%float) ->
  exists extended',
    for_upto_res (Z.quot (Height old) spatial_dimension)
      (extend_rbms_node row spatial_dimension num_nodes coords (Width old)) extended
    = Ok extended' [] /\
    Height extended' = Height old /\
    Width extended' = Width extended /\
    forall node c j,
      0 <= node < Z.quot (Height old) spatial_dimension -> 0 <= c < spatial_dimension ->
      Elem extended' (node * spatial_dimension + c) j
      = if (0 <=? j) && (j <? Width old)
        then Elem old (node * spatial_dimension + c) j
        else if (Width old <=? j) && (j <? Width old + rbm_count spatial_dimension)
        then rbm_value spatial_dimension
               (node_coord coords num_nodes row spatial_dimension node 0)
               (node_coord coords num_nodes row spatial_dimension node 1)
               (node_coord coords num_nodes row spatial_dimension node 2)
               c (j - Width old)
        else 0%float.
Proof.
  intros Hsd Hh Hrem Hnum HH0 Hread0.
  set (nodes := Z.quot (Height old) spatial_dimension) in *.
  assert (Hnodes : 0 <= nodes /\ Height old = nodes * spatial_dimension).
  { subst nodes. pose proof (Z.quot_rem' (Height old) spatial_dimension) as Hdiv.
    rewrite Hrem in Hdiv. split; [|lia].
    apply Z.quot_pos; [done|]. destruct Hsd as [-> | [-> | ->]]; lia. }
  destruct Hnodes as [Hnodes Hsize].
  destruct (for_upto_res_ind (fun n ext o =>
      o = [] /\
      Height ext = Height old /\
      Width ext = Width extended /\
      forall node c j, 0 <= node < nodes -> 0 <= c < spatial_dimension ->
        Elem ext (node * spatial_dimension + c) j
        = if (0 <=? j) && (j <? Width old)
          then Elem old (node * spatial_dimension + c) j
          else if (node <? n) && (Width old <=? j)
                  && (j <? Width old + rbm_count spatial_dimension)
          then rbm_value spatial_dimension
                 (node_coord coords num_nodes row spatial_dimension node 0)
                 (node_coord coords num_nodes row spatial_dimension node 1)
                 (node_coord coords num_nodes row spatial_dimension node 2)
                 c (j - Width old)
          else 0%float)
      (extend_rbms_node row spatial_dimension num_nodes coords (Width old))
      nodes extended Hnodes) as (ext' & o & Hloop & -> & HH & HW & Hread).
  - split_and!; [done | done | done |].
    intros node c j Hnode Hc. rewrite Hread0 by (destruct Hsd as [-> | [-> | ->]]; lia).
    Z_tests.
  - intros n ext o Hn (-> & HH & HW & Hread).
    destruct (extend_rbms_node_spec row spatial_dimension num_nodes coords (Width old)
                n ext Hsd) as (ext1 & Hstep & HH1 & HW1 & Hread1).
    + lia.
    + rewrite HH. destruct Hsd as [-> | [-> | ->]]; lia.
    + apply Hnum. lia.
    + intros k j Hk Hj.
      replace k with (n * spatial_dimension + (k - n * spatial_dimension)) by lia.
      rewrite Hread by lia. Z_tests.
    + exists ext1, []. split_and!; [done | done | congruence | congruence |].
      intros node c j Hnode Hc. rewrite Hread1, Hread by
        (try rewrite HH; destruct Hsd as [-> | [-> | ->]]; lia).
      destruct Hsd as [-> | [-> | ->]]; unfold rbm_count; simpl (_ =? _); cbv iota.
      all: Z_cases; try done.
      all: try (assert (node = n) by lia; subst; do 2 f_equal; lia).
  - exists ext'. split_and!; [done | done | done |].
    intros node c j Hnode Hc. rewrite Hread by done.
    replace (node <? nodes) with true by lia. done.
Qed.

(** One owned MIS of ExtendWithRBMs in 1, 2 or 3 dimensions. *)
Lemma extend_rbms_mis_owned (PROC_RANK : Z)
    (agg_part_rels : agg_partitioning_relations_t)
    (spatial_dimension num_nodes : Z) (coords : Vector) (mis : Z)
    (received_mats : received_mats_t) :
  let mis_size := mises_size agg_part_rels mis in
  let row := GetRow (mis_to_dof agg_part_rels) mis in
  let old := slot_matrix (received_mats mis) mis_size in
  mis_master agg_part_rels mis = PROC_RANK ->
  0 <= mis_size ->
  slot_ok (received_mats mis) mis_size ->
  spatial_dimension = 1 \/ spatial_dimension = 2 \/ spatial_dimension = 3 ->
  Z.rem mis_size spatial_dimension = 0 ->
  (forall node, 0 <= node < Z.quot mis_size spatial_dimension ->
     node_num_of row spatial_dimension node < num_nodes) ->
  exists arr',
    extend_rbms_mis PROC_RANK agg_part_rels spatial_dimension num_nodes
      coords mis received_mats
    = Ok (<[ mis := Some arr' ]> received_mats) [] /\
    Height (arr' 0) = mis_size /\
    Width (arr' 0) = Width old + rbm_count spatial_dimension /\
    forall node c j,
      0 <= node < Z.quot mis_size spatial_dimension -> 0 <= c < spatial_dimension ->
      Elem (arr' 0) (node * spatial_dimension + c) j
      = if (0 <=? j) && (j <? Width old)
        then Elem old (node * spatial_dimension + c) j
        else if (Width old <=? j) && (j <? Width old + rbm_count spatial_dimension)
        then rbm_value spatial_dimension
               (node_coord coords num_nodes row spatial_dimension node 0)
               (node_coord coords num_nodes row spatial_dimension node 1)
               (node_coord coords num_nodes row spatial_dimension node 2)
               c (j - Width old)
        else 0%float.
Proof.
  intros mis_size row old Howner Hsize [Hheight Hwidth]%slot_matrix_ok Hsd Hrem Hnum.
  fold old in Hheight, Hwidth.
  unfold extend_rbms_mis. cbv zeta.
  rewrite Howner, Z.eqb_refl, slot_matrix_allocate. fold mis_size old row.
  rewrite Hheight, Z.eqb_refl. unfold SA_ASSERT at 1, bind at 1, ret.
  set (newwidth := Width old + rbm_count spatial_dimension).
  assert (Hnew : (if spatial_dimension =? 1 then Ok (Width old + 1) []
                  else if spatial_dimension =? 2 then Ok (Width old + 3) []
                  else if spatial_dimension =? 3 then Ok (Width old + 6) []
                  else throw 1) = Ok newwidth []).
  { unfold newwidth, rbm_count. by destruct Hsd as [-> | [-> | ->]]. }
  rewrite Hnew. unfold bind at 1. rewrite Hrem. simpl (0 =? 0).
  unfold SA_ASSERT, bind at 1, ret.
  destruct (copy_rows_spec old newwidth) as (HH & HW & Hread); [lia | done |].
  cbv zeta in HH, HW, Hread. rewrite Hheight in HH, HW, Hread.
  destruct (extend_rbms_nodes_spec old row spatial_dimension num_nodes coords
              (for_upto mis_size (fun k ext => copy_row old k ext)
                        (DenseMatrix_zero mis_size newwidth)) Hsd)
    as (ext' & Hloop & HH' & HW' & Hread'); rewrite ?Hheight; try done.
  rewrite Hheight in Hloop, HH', Hread'.
  unfold bind at 1. rewrite Hloop. simpl.
  eexists. split; [reflexivity|]. rewrite fn_lookup_insert.
  split_and!; [done | congruence | done].
Qed.

(** C5. On a rank whose owned MISes have slots that are NULL or hold a
    first matrix of the height of the MIS, a height that is a multiple of
    the spatial dimension, and nodes numbered below [num_nodes]:
    ExtendWithRBMs in 1, 2 or 3 dimensions returns and prints nothing, and
    the matrix of every owned MIS, of width w before, has width w + 1,
    w + 3 or w + 6. Its old columns are kept. In 2-D the two translation
    columns are the identity on the two rows of each node, and the rotation
    column w + 2 holds (y, -x) on them, x and y being the coordinates of
    the node. In any other spatial dimension, a rank that owns a MIS
    throws 1. *)
Theorem ExtendWithRBMs_appends (PROC_RANK : Z)
    (agg_part_rels : agg_partitioning_relations_t) (received_mats : received_mats_t)
    (spatial_dimension num_nodes : Z) (coords : Vector) :
  (forall mis, 0 <= mis < num_mises agg_part_rels ->
     mis_master agg_part_rels mis = PROC_RANK ->
     0 <= mises_size agg_part_rels mis /\
     slot_ok (received_mats mis) (mises_size agg_part_rels mis)) ->
  (spatial_dimension = 1 \/ spatial_dimension = 2 \/ spatial_dimension = 3 ->
   (forall mis, 0 <= mis < num_mises agg_part_rels ->
      mis_master agg_part_rels mis = PROC_RANK ->
      Z.rem (mises_size agg_part_rels mis) spatial_dimension = 0 /\
      forall node, 0 <= node < Z.quot (mises_size agg_part_rels mis) spatial_dimension ->
        node_num_of (GetRow (mis_to_dof agg_part_rels) mis) spatial_dimension node
        < num_nodes) ->
   exists received_mats',
     ExtendWithRBMs PROC_RANK received_mats agg_part_rels spatial_dimension
       num_nodes coords = Ok received_mats' [] /\
     forall mis, 0 <= mis < num_mises agg_part_rels ->
       mis_master agg_part_rels mis = PROC_RANK ->
       let mis_size := mises_size agg_part_rels mis in
       let row := GetRow (mis_to_dof agg_part_rels) mis in
       let old := slot_matrix (received_mats mis) mis_size in
       let w := Width old in
       exists arr',
         received_mats' mis = Some arr' /\
         Height (arr' 0) = mis_size /\
         Width (arr' 0)
         = (if spatial_dimension =? 1 then w + 1
            else if spatial_dimension =? 2 then w + 3 else w + 6) /\
         forall node, 0 <= node < Z.quot mis_size spatial_dimension ->
           let x := node_coord coords num_nodes row spatial_dimension node 0 in
           let y := node_coord coords num_nodes row spatial_dimension node 1 in
           let z := node_coord coords num_nodes row spatial_dimension node 2 in
           (forall c j, 0 <= c < spatial_dimension -> 0 <= j < w ->
              Elem (arr' 0) (node * spatial_dimension + c) j
              = Elem old (node * spatial_dimension + c) j) /\
           (forall c j, 0 <= c < spatial_dimension ->
              0 <= j < rbm_count spatial_dimension ->
              Elem (arr' 0) (node * spatial_dimension + c) (w + j)
              = rbm_value spatial_dimension x y z c j) /\
           (spatial_dimension = 2 ->
              Elem (arr' 0) (node * 2) w = 1%float /\
              Elem (arr' 0) (node * 2) (w + 1) = 0%float /\
              Elem (arr' 0) (node * 2 + 1) w = 0%float /\
              Elem (arr' 0) (node * 2 + 1) (w + 1) = 1%float /\
              Elem (arr' 0) (node * 2) (w + 2) = y /\
              Elem (arr' 0) (node * 2 + 1) (w + 2) = PrimFloat.opp x)) /\
  (spatial_dimension <> 1 -> spatial_dimension <> 2 -> spatial_dimension <> 3 ->
   (exists mis, 0 <= mis < num_mises agg_part_rels /\
                mis_master agg_part_rels mis = PROC_RANK) ->
   ExtendWithRBMs PROC_RANK received_mats agg_part_rels spatial_dimension
     num_nodes coords = Fault (Thrown 1)).
Proof.
  intros Hslots. split.
  - intros Hsd Hnodes. unfold ExtendWithRBMs. cbv zeta.
    destruct (for_each_slot
      (extend_rbms_mis PROC_RANK agg_part_rels spatial_dimension num_nodes coords)
      (num_mises agg_part_rels)
      (fun mis slot slot' =>
         mis_master agg_part_rels mis = PROC_RANK ->
         let mis_size := mises_size agg_part_rels mis in
         let row := GetRow (mis_to_dof agg_part_rels) mis in
         let old := slot_matrix slot mis_size in
         exists arr',
           slot' = Some arr' /\
           Height (arr' 0) = mis_size /\
           Width (arr' 0) = Width old + rbm_count spatial_dimension /\
           forall node c j,
             0 <= node < Z.quot mis_size spatial_dimension ->
             0 <= c < spatial_dimension ->
             Elem (arr' 0) (node * spatial_dimension + c) j
             = if (0 <=? j) && (j <? Width old)
               then Elem old (node * spatial_dimension + c) j
               else if (Width old <=? j)
                       && (j <? Width old + rbm_count spatial_dimension)
               then rbm_value spatial_dimension
                      (node_coord coords num_nodes row spatial_dimension node 0)
                      (node_coord coords num_nodes row spatial_dimension node 1)
                      (node_coord coords num_nodes row spatial_dimension node 2)
                      c (j - Width old)
               else 0%float)
      received_mats) as (mats' & Hloop & Hpost & _).
    + intros mis m Hmis Hslot.
      destruct (decide (mis_master agg_part_rels mis = PROC_RANK)) as [Howner|Hforeign].
      * destruct (Hslots mis Hmis Howner) as [Hsize Hok].
        destruct (Hnodes mis Hmis Howner) as [Hrem Hnum].
        rewrite <- Hslot in Hok.
        destruct (extend_rbms_mis_owned PROC_RANK agg_part_rels spatial_dimension
                    num_nodes coords mis m Howner Hsize Hok Hsd Hrem Hnum)
          as (arr' & Hrun & HH & HW & Hread).
        eexists. split; [exact Hrun|]. split.
        -- intros _. exists arr'. rewrite fn_lookup_insert, <- Hslot. by split_and!.
        -- intros k Hk. by apply fn_lookup_insert_ne.
      * exists m. unfold extend_rbms_mis. cbv zeta.
        replace (mis_master agg_part_rels mis =? PROC_RANK) with false by lia.
        by split_and!.
    + exists mats'. split; [done|].
      intros mis Hmis Howner.
      destruct (Hpost mis Hmis Howner) as (arr' & Hslot' & HH & HW & Hread).
      destruct (Hslots mis Hmis Howner) as [Hsize [_ Hwidth]%slot_matrix_ok].
      cbv zeta in HW, Hread.
      set (mis_size := mises_size agg_part_rels mis) in *.
      set (row := GetRow (mis_to_dof agg_part_rels) mis) in *.
      set (old := slot_matrix (received_mats mis) mis_size) in *.
      set (w := Width old) in *.
      exists arr'. split_and!; [done | done | |].
      * rewrite HW. unfold rbm_count. destruct Hsd as [-> | [-> | ->]]; simpl; lia.
      * intros node Hnode. split_and!.
        -- intros c j Hc Hj. rewrite Hread by done. Z_tests.
        -- intros c j Hc Hj. rewrite Hread by done.
           replace (w + j - w) with j by lia. Z_tests.
        -- intros ->. unfold rbm_count in Hread. simpl in Hread.
           replace (node * 2) with (node * 2 + 0) at 1 2 5 by lia.
           rewrite !Hread by lia.
           replace (w + 1 - w) with 1 by lia. replace (w + 2 - w) with 2 by lia.
           replace (w - w) with 0 by lia. unfold rbm_value.
           split_and!; Z_tests.
  - intros Hne1 Hne2 Hne3 (mis & Hmis & Howner).
    unfold ExtendWithRBMs, for_upto_res. cbv zeta.
    apply for_res_first_fault.
    + intros k Hk. unfold extend_rbms_mis. cbv zeta.
      destruct (Z.eqb_spec (mis_master agg_part_rels k) PROC_RANK) as [Hown|Hforeign];
        [right | by left].
      destruct (Hslots k) as [_ [Hheight _]%slot_matrix_ok]; [lia | done |].
      rewrite slot_matrix_allocate, Hheight, Z.eqb_refl.
      replace (spatial_dimension =? 1) with false by lia.
      replace (spatial_dimension =? 2) with false by lia.
      by replace (spatial_dimension =? 3) with false by lia.
    + exists mis. split; [lia|]. unfold extend_rbms_mis. cbv zeta.
      rewrite Howner, Z.eqb_refl.
      destruct (Hslots mis) as [_ [Hheight _]%slot_matrix_ok]; [lia | done |].
      rewrite slot_matrix_allocate, Hheight, Z.eqb_refl.
      replace (spatial_dimension =? 1) with false by lia.
      replace (spatial_dimension =? 2) with false by lia.
      by replace (spatial_dimension =? 3) with false by lia.
Qed.

(** ** contrib_filter_boundary *)

Lemma seqZ_snoc (n : Z) : 0 <= n -> seqZ 0 (n + 1) = seqZ 0 n ++ [n].
Proof.
  intros Hn. rewrite seqZ_app by lia. reflexivity.
Qed.

(** The loop over the rows of one column at offset [data]. *)
Lemma filter_scan_spec (this : ContribTent)
    (agg_part_rels : agg_partitioning_relations_t) (local : DenseMatrix)
    (restriction : Z -> Z) (data : Z) (newcolumn0 : Z -> float) :
  0 <= Height local -> 0 <= data ->
  data + Height local <= Height local * Width local ->
  exists scan out,
    for_upto_res (Height local)
      (filter_entry this agg_part_rels local restriction data)
      (mkScan newcolumn0 false 0) = Ok scan out /\
    (forall j, 0 <= j < Height local ->
       newcolumn scan j
       = filtered_entry this agg_part_rels restriction j (Data local (data + j))) /\
    atleastone scan
    = existsb (fun j => negb (entry_is_filtered this agg_part_rels (restriction j)
                                (Data local (data + j))))
              (seqZ 0 (Height local)) /\
    List.filter is_column_alert out = [].
Proof.
  intros Hdim Hdata Hbound.
  apply (for_upto_res_ind (fun n scan o =>
    (forall j, 0 <= j < n ->
       newcolumn scan j
       = filtered_entry this agg_part_rels restriction j (Data local (data + j))) /\
    atleastone scan
    = existsb (fun j => negb (entry_is_filtered this agg_part_rels (restriction j)
                                (Data local (data + j))))
              (seqZ 0 n) /\
    List.filter is_column_alert o = [])); [done | |].
  - split_and!; [intros; lia | done | done].
  - intros n scan o Hn (Hcol & Hone & Hout).
    unfold filter_entry. cbv zeta.
    replace (data + n <? Height local * Width local) with true by lia.
    unfold SA_ASSERT, bind at 1, ret.
    rewrite seqZ_snoc, existsb_app, <- Hone by lia. simpl existsb.
    unfold filtered_entry in *.
    destruct (entry_is_filtered this agg_part_rels (restriction n)
                (Data local (data + n))) eqn:Hfiltered.
    + rewrite when_Ok. unfold bind, ret. eexists _, _. split; [reflexivity|].
      simpl. split_and!.
      * intros j Hj. destruct (decide (n = j)) as [<-|Hne].
        -- by rewrite fn_lookup_insert, Hfiltered.
        -- rewrite fn_lookup_insert_ne by done. apply Hcol. lia.
      * by rewrite !orb_false_r.
      * rewrite List.filter_app, Hout. by destruct (_ && _).
    + eexists _, _. split; [reflexivity|]. simpl. split_and!.
      * intros j Hj. destruct (decide (n = j)) as [<-|Hne].
        -- by rewrite fn_lookup_insert, Hfiltered.
        -- rewrite fn_lookup_insert_ne by done. apply Hcol. lia.
      * by rewrite orb_true_r.
      * by rewrite app_nil_r.
Qed.

(** Writing [dim] values at an offset of a buffer. *)
Lemma write_range_spec (target source : Z -> float) (base dim : Z) :
  0 <= dim ->
  forall x,
    for_upto dim (fun j nd => <[ base + j := source j ]> nd) target x
    = if (base <=? x) && (x <? base + dim) then source (x - base) else target x.
Proof.
  intros Hdim.
  apply (for_upto_ind (fun n nd =>
    forall x, nd x = if (base <=? x) && (x <? base + n)
                     then source (x - base) else target x)); [done | |].
  - intros x. Z_tests.
  - intros n nd Hn Hnd x. destruct (decide (base + n = x)) as [<-|Hne].
    + rewrite fn_lookup_insert. replace (base + n - base) with n by lia. Z_tests.
    + rewrite fn_lookup_insert_ne by done. rewrite Hnd. Z_tests.
Qed.

Lemma existsb_pointwise {A : Type} (f g : A -> bool) (l : list A) :
  (forall x, f x = g x) -> existsb f l = existsb g l.
Proof. intros Hfg. induction l as [|x l IH]; simpl; [done|]. by rewrite Hfg, IH. Qed.

Lemma map_seqZ_ext {A : Type} (f g : Z -> A) (n : Z) :
  (forall j, 0 <= j < n -> f j = g j) -> map f (seqZ 0 n) = map g (seqZ 0 n).
Proof.
  intros Hfg. apply map_ext_in. intros j Hj%list_elem_of_In%elem_of_seqZ.
  apply Hfg. lia.
Qed.

Lemma columns_cols_of (M : DenseMatrix) :
  columns M = cols_of (Data M) (Height M) (Width M).
Proof.
  unfold columns, cols_of, column. apply map_ext. intros c.
  apply map_ext. intros j. by rewrite Data_Elem.
Qed.

Lemma cols_of_snoc (data : Z -> float) (dim n : Z) :
  0 <= n ->
  cols_of data dim (n + 1)
  = cols_of data dim n ++ [map (fun j => data (n * dim + j)) (seqZ 0 dim)].
Proof. intros Hn. unfold cols_of. by rewrite seqZ_snoc, map_app by done. Qed.

Lemma cols_of_ext (data data' : Z -> float) (dim n : Z) :
  0 <= dim ->
  (forall x, 0 <= x < n * dim -> data x = data' x) ->
  cols_of data dim n = cols_of data' dim n.
Proof.
  intros Hdim Hsame. unfold cols_of. apply map_seqZ_ext. intros c Hc.
  apply map_seqZ_ext. intros j Hj. apply Hsame. nia.
Qed.

Lemma length_cols_of (data : Z -> float) (dim n : Z) :
  length (cols_of data dim n) = Z.to_nat n.
Proof. unfold cols_of. by rewrite length_map, length_seqZ. Qed.

(** The scan of column [i], read through [Elem]. *)
Lemma filter_scan_column (this : ContribTent)
    (agg_part_rels : agg_partitioning_relations_t) (local : DenseMatrix)
    (restriction : Z -> Z) (i : Z) (newcolumn0 : Z -> float) :
  0 <= Height local -> 0 <= i < Width local ->
  exists scan out,
    for_upto_res (Height local)
      (filter_entry this agg_part_rels local restriction (i * Height local))
      (mkScan newcolumn0 false 0) = Ok scan out /\
    map (newcolumn scan) (seqZ 0 (Height local))
    = filtered_column this agg_part_rels restriction local i /\
    atleastone scan = column_survives this agg_part_rels restriction local i /\
    List.filter is_column_alert out = [].
Proof.
  intros Hdim Hi.
  destruct (filter_scan_spec this agg_part_rels local restriction (i * Height local)
              newcolumn0) as (scan & out & Hloop & Hcol & Hone & Hout);
    [done | nia | nia |].
  exists scan, out. split_and!; [done | | | done].
  - unfold filtered_column. apply map_seqZ_ext. intros j Hj.
    by rewrite Hcol, Data_Elem.
  - rewrite Hone. unfold column_survives. apply existsb_pointwise. intros j.
    by rewrite Data_Elem.
Qed.

(** The state after the loop over the columns of [contrib_filter_boundary]. *)
Lemma filter_columns_spec (this : ContribTent)
    (agg_part_rels : agg_partitioning_relations_t) (local : DenseMatrix)
    (restriction : Z -> Z) (newdata0 newcolumn0 : Z -> float) :
  0 <= Height local -> 0 <= Width local ->
  let kept := surviving_columns this agg_part_rels restriction local in
  exists st out,
    for_upto_res (Width local)
      (filter_column this agg_part_rels local restriction)
      (mkFilter 0 newdata0 0 0 newcolumn0) = Ok st out /\
    fs_col st = Z.of_nat (length kept) /\
    cols_of (fs_newdata st) (Height local) (fs_col st)
    = boundary_filter this agg_part_rels restriction local /\
    Z.of_nat (length (List.filter is_column_alert out)) + fs_col st = Width local.
Proof.
  intros Hdim Hvects kept. subst kept. unfold boundary_filter, surviving_columns.
  set (dim := Height local) in *.
  set (survives := column_survives this agg_part_rels restriction local).
  destruct (for_upto_res_ind (fun n st o =>
      fs_data st = n * dim /\
      fs_newdatap st = fs_col st * dim /\
      fs_col st = Z.of_nat (length (List.filter survives (seqZ 0 n))) /\
      cols_of (fs_newdata st) dim (fs_col st)
      = map (filtered_column this agg_part_rels restriction local)
            (List.filter survives (seqZ 0 n)) /\
      Z.of_nat (length (List.filter is_column_alert o)) + fs_col st = n)
      (filter_column this agg_part_rels local restriction) (Width local)
      (mkFilter 0 newdata0 0 0 newcolumn0) Hvects)
    as (st & out & Hloop & _ & _ & Hcol & Hcols & Hout).
  - by split_and!.
  - intros n st o Hn (Hdata & Hnewdatap & Hcol & Hcols & Hout).
    unfold filter_column. cbv zeta. fold dim. rewrite Hdata.
    destruct (filter_scan_column this agg_part_rels local restriction n
                (fs_newcolumn st)) as (scan & o1 & Hscan & Hnewcol & Hone & Ho1);
      [done | lia |].
    fold dim in Hscan, Hnewcol. rewrite Hscan. unfold bind at 1.
    rewrite seqZ_snoc, List.filter_app by lia. simpl List.filter.
    fold survives in Hone. rewrite <- Hone.
    destruct (atleastone scan).
    + eexists _, _. split; [reflexivity|]. simpl.
      rewrite length_app, map_app, app_nil_r. simpl.
      split_and!; [lia | lia | lia | | rewrite List.filter_app, Ho1, app_nil_r; lia].
      rewrite cols_of_snoc by lia. f_equal.
      * rewrite <- Hcols. apply cols_of_ext; [done|]. intros x Hx.
        rewrite write_range_spec by done. Z_tests.
      * f_equal. rewrite <- Hnewcol. apply map_seqZ_ext. intros j Hj.
        rewrite write_range_spec by done. rewrite Hnewdatap.
        replace (fs_col st * dim + j - fs_col st * dim) with j by lia. Z_tests.
    + eexists _, _. split; [reflexivity|]. simpl.
      rewrite !app_nil_r. split_and!; [lia | done | done | done |].
      rewrite !List.filter_app, Ho1. simpl. rewrite length_app. simpl. lia.
  - by exists st, out.
Qed.

(** A column whose only nonzero entry sits at an essential-boundary dof
    does not survive when the boundary is avoided. *)
Lemma column_on_boundary_dropped (this : ContribTent)
    (agg_part_rels : agg_partitioning_relations_t) (restriction : Z -> Z)
    (M : DenseMatrix) (i j0 : Z) :
  avoid_ess_bdr_dofs this = true ->
  agg_is_dof_on_essential_border agg_part_rels (restriction j0) = true ->
  (forall j, 0 <= j < Height M -> j <> j0 -> PrimFloat.eqb (Elem M j i) 0 = true) ->
  column_survives this agg_part_rels restriction M i = false.
Proof.
  intros Havoid Hborder Hzero. unfold column_survives.
  apply not_true_is_false. intros (j & Hj%list_elem_of_In%elem_of_seqZ & Hkept)%existsb_exists.
  apply negb_true_iff in Hkept. unfold entry_is_filtered in Hkept.
  apply orb_false_iff in Hkept as [Hnonzero Hoff].
  destruct (decide (j = j0)) as [->|Hne].
  - by rewrite Havoid, Hborder in Hoff.
  - rewrite Hzero in Hnonzero; [done | lia | done].
Qed.

(** C2. Given a contribution matrix of positive width,
    contrib_filter_boundary returns (it warns, it does not fail): the height
    is kept; the columns of the result are the surviving columns of the
    input, in their original order, each with its entries that are exactly
    zero or (with the avoid-boundary option) at an essential-boundary dof
    set to zero and its other entries unchanged; a column survives when one
    of its entries is not zeroed, and one alert is printed per dropped
    column. In particular, for 3 rows and 2 columns with the option on,
    when the only nonzero of column 0 is at a boundary dof, column 0 is
    dropped: the result is column 1 alone, of width 1, when column 1 keeps
    an entry, and has no column when column 1 keeps none. *)
Theorem contrib_filter_boundary_spec (this : ContribTent)
    (agg_part_rels : agg_partitioning_relations_t) (local : DenseMatrix)
    (restriction : Z -> Z) :
  0 < Width local -> 0 <= Height local ->
  exists local' out,
    contrib_filter_boundary this agg_part_rels local restriction = Ok local' out /\
    Height local' = Height local /\
    Width local'
    = Z.of_nat (length (surviving_columns this agg_part_rels restriction local)) /\
    columns local' = boundary_filter this agg_part_rels restriction local /\
    Z.of_nat (length (List.filter is_column_alert out)) = Width local - Width local' /\
    (Height local = 3 -> Width local = 2 ->
     avoid_ess_bdr_dofs this = true ->
     (exists j0,
        agg_is_dof_on_essential_border agg_part_rels (restriction j0) = true /\
        forall j, 0 <= j < 3 -> j <> j0 -> PrimFloat.eqb (Elem local j 0) 0 = true) ->
     let kept := column_survives this agg_part_rels restriction local 1 in
     Width local' = (if kept then 1 else 0) /\
     columns local'
     = (if kept then [filtered_column this agg_part_rels restriction local 1]
        else [])).
Proof.
  intros Hvects Hdim. unfold contrib_filter_boundary. cbv zeta.
  replace (0 <? Width local) with true by lia. unfold SA_ASSERT, bind at 1, ret.
  destruct (filter_columns_spec this agg_part_rels local restriction
              indeterminate indeterminate) as (st & out & Hloop & Hcol & Hcols & Hout);
    [done | lia |].
  cbv zeta in Hcol. rewrite Hloop. unfold bind. simpl.
  eexists _, out. split; [by rewrite app_nil_r|].
  assert (Hcolumns :
    columns (mkDense (Height local) (fs_col st)
               (for_upto (Height local * fs_col st)
                  (fun j d => <[ j := fs_newdata st j ]> d) (Data local)))
    = boundary_filter this agg_part_rels restriction local).
  { rewrite columns_cols_of. simpl. rewrite <- Hcols.
    apply cols_of_ext; [done|]. intros x Hx.
    rewrite (write_range_spec (Data local) (fs_newdata st) 0) by lia.
    replace (x - 0) with x by lia. Z_tests. }
  split_and!; [done | done | done | cbn [Width]; lia |].
  intros Hthree Htwo Havoid (j0 & Hborder & Hzero). rewrite Hcolumns.
  cbn [Width]. set (kept := column_survives this agg_part_rels restriction local 1).
  assert (Hkept : surviving_columns this agg_part_rels restriction local
                  = if kept then [1] else []).
  { unfold surviving_columns. rewrite Htwo. change (seqZ 0 2) with [0; 1]. simpl.
    rewrite (column_on_boundary_dropped this agg_part_rels restriction local 0 j0);
      [| done | done | intros j Hj; apply Hzero; lia].
    fold kept. by destruct kept. }
  unfold boundary_filter. rewrite Hcol, Hkept. by destruct kept.
Qed.

(** ** The deprecated insertion: the verdict on one column *)

(** The loop over the rows of column [i]. *)
Lemma insert_from_local_scan (this : ContribTent)
    (agg_part_rels : agg_partitioning_relations_t) (local : DenseMatrix)
    (restriction : Z -> Z) (i newdatap : Z) (scan0 : local_scan) :
  0 <= Height local -> 0 <= i < Width local ->
  ls_adhoc_column_norm scan0 = 0%float ->
  exists scan out,
    for_upto_res (Height local)
      (insert_from_local_entry this agg_part_rels local restriction
         (i * Height local) newdatap) scan0 = Ok scan out /\
    (forall j, 0 <= j < Height local ->
       ls_newcolumn scan j
       = filtered_entry this agg_part_rels restriction j (Elem local j i)) /\
    ls_adhoc_column_norm scan = adhoc_l1_norm this agg_part_rels restriction local i /\
    List.filter is_norm_alert out = [].
Proof.
  intros Hdim Hi Hnorm0. unfold adhoc_l1_norm.
  apply (for_upto_res_ind (fun n scan o =>
    (forall j, 0 <= j < n ->
       ls_newcolumn scan j
       = filtered_entry this agg_part_rels restriction j (Elem local j i)) /\
    ls_adhoc_column_norm scan
    = fold_left
        (fun norm j =>
           if entry_is_filtered this agg_part_rels (restriction j) (Elem local j i)
           then norm else PrimFloat.add norm (fabs (Elem local j i)))
        (seqZ 0 n) 0%float /\
    List.filter is_norm_alert o = [])); [done | |].
  - split_and!; [intros; lia | done | done].
  - intros n scan o Hn (Hcol & Hnorm & Hout).
    unfold insert_from_local_entry. cbv zeta.
    replace (i * Height local + n <? Height local * Width local) with true by nia.
    unfold SA_ASSERT, bind at 1, ret.
    rewrite seqZ_snoc, fold_left_app, <- Hnorm by lia. simpl fold_left.
    rewrite Data_Elem. unfold filtered_entry in *.
    destruct (entry_is_filtered this agg_part_rels (restriction n) (Elem local n i))
      eqn:Hfiltered.
    + rewrite when_Ok. unfold bind, ret. eexists _, _. split; [reflexivity|].
      simpl. split_and!.
      * intros j Hj. destruct (decide (n = j)) as [<-|Hne].
        -- by rewrite fn_lookup_insert, Hfiltered.
        -- rewrite fn_lookup_insert_ne by done. apply Hcol. lia.
      * done.
      * rewrite List.filter_app, Hout. by destruct (_ && _).
    + eexists _, _. split; [reflexivity|]. simpl. split_and!.
      * intros j Hj. destruct (decide (n = j)) as [<-|Hne].
        -- by rewrite fn_lookup_insert, Hfiltered.
        -- rewrite fn_lookup_insert_ne by done. apply Hcol. lia.
      * done.
      * by rewrite app_nil_r.
Qed.

(** The loop that stores an accepted column: what it stores. *)
Lemma store_column_kept (restriction : Z -> Z) (newcolumn : Z -> float)
    (col newdatap dim : Z) (tent : SparseMatrix) (newdata : Z -> float) :
  0 <= dim ->
  (forall j j', 0 <= j < dim -> 0 <= j' < dim -> restriction j = restriction j' -> j = j') ->
  let stored :=
    for_upto dim
      (fun j '(tent, nd) =>
         let row := restriction j in
         (sm_Set tent row col (newcolumn j), <[ newdatap + j := newcolumn j ]> nd))
      (tent, newdata) in
  forall j, 0 <= j < dim ->
    sm_entries stored.1 !! (restriction j, col) = Some (newcolumn j).
Proof.
  intros Hdim Hinj. cbv zeta.
  apply (for_upto_ind (fun n (p : SparseMatrix * (Z -> float)) =>
    forall j, 0 <= j < n ->
      sm_entries p.1 !! (restriction j, col) = Some (newcolumn j))); [done | |].
  - intros; lia.
  - intros n [t nd] Hn Hkept j Hj. cbn [fst] in *. rewrite sm_Set_lookup.
    destruct (decide ((restriction n, col) = (restriction j, col))) as [Heq|Hne].
    + injection Heq as Heq. apply Hinj in Heq; [by subst | lia | lia].
    + apply Hkept. assert (j <> n) by (intros ->; done). lia.
Qed.

(** One iteration of the loop over the columns of the deprecated
    insertion. The column [i]
    whose ad hoc l1 norm (the sum of the magnitudes of its entries that are
    not zeroed) is below 1e-3 is not accepted: the alert that the column is
    ignored is printed, no column of the tentative prolongator is taken and
    no entry is set. A column whose norm is not below 1e-3 is accepted: it
    takes the next column of the tentative prolongator, where its filtered
    entries are set, and when its norm is below 1e-1 the alert that a column
    of small norm is accepted is printed. *)
Lemma insert_from_local_column_verdict (this : ContribTent)
    (agg_part_rels : agg_partitioning_relations_t) (local : DenseMatrix)
    (restriction : Z -> Z) (i : Z) (st : local_state) :
  0 <= Height local -> 0 <= i < Width local ->
  lo_data st = i * Height local ->
  let norm := adhoc_l1_norm this agg_part_rels restriction local i in
  exists st' out,
    insert_from_local_column this agg_part_rels local restriction i st = Ok st' out /\
    if PrimFloat.ltb norm 1e-3%float then
      List.filter is_norm_alert out = [ALERT_near_zero_ignoring norm] /\
      lo_col st' = lo_col st /\
      lo_tent st' = lo_tent st
    else
      List.filter is_norm_alert out
      = (if PrimFloat.ltb norm 1e-1%float then [ALERT_accepting_small norm] else []) /\
      lo_col st' = lo_col st + 1 /\
      (forall r c, c <> lo_col st ->
         sm_entries (lo_tent st') !! (r, c) = sm_entries (lo_tent st) !! (r, c)) /\
      ((forall j j', 0 <= j < Height local -> 0 <= j' < Height local ->
          restriction j = restriction j' -> j = j') ->
       forall j, 0 <= j < Height local ->
         sm_entries (lo_tent st') !! (restriction j, lo_col st)
         = Some (filtered_entry this agg_part_rels restriction j (Elem local j i))).
Proof.
  intros Hdim Hi Hdata norm. unfold insert_from_local_column. cbv zeta.
  rewrite Hdata.
  destruct (insert_from_local_scan this agg_part_rels local restriction i
              (lo_newdatap st)
              (mkLocalScan (lo_newdata st) (lo_newcolumn st) (lo_modified st) 0 0%float))
    as (scan & o1 & Hscan & Hcol & Hnorm & Ho1); [done | done | done |].
  rewrite Hscan. unfold bind at 1. rewrite Hnorm. fold norm.
  destruct (PrimFloat.ltb norm 0.001) eqn:Hignore.
  - eexists _, _. split; [reflexivity|]. simpl.
    rewrite List.filter_app, Ho1. by split_and!.
  - rewrite when_Ok.
    pose proof (store_column_frame restriction (ls_newcolumn scan) (lo_col st)
                  (lo_newdatap st) (Height local) (lo_tent st) (ls_newdata scan))
      as [_ Hframe].
    pose proof (store_column_kept restriction (ls_newcolumn scan) (lo_col st)
                  (lo_newdatap st) (Height local) (lo_tent st) (ls_newdata scan) Hdim)
      as Hkept.
    cbv zeta in Hframe, Hkept.
    destruct (for_upto (Height local) _ (lo_tent st, ls_newdata scan)) as [tent nd].
    unfold bind, ret. eexists _, _. split; [reflexivity|]. cbn [fst] in *. simpl.
    rewrite !List.filter_app, Ho1, app_nil_r. split_and!.
    + by destruct (PrimFloat.ltb norm 0.1).
    + done.
    + done.
    + intros Hinj j Hj. rewrite <- Hcol by done. by apply Hkept.
Qed.

(** ** SVDInsert on a MIS with one dof *)

(** The iteration of the loop of SVDInsert on an owned MIS with one dof
    that the boundary check lets through. *)
Lemma svd_insert_mis_one_dof (PROC_RANK : Z)
    (agg_part_rels : agg_partitioning_relations_t) (row_sizes : Z -> Z)
    (scaling_P : bool) (mis : Z) (arr : Z -> DenseMatrix) (st : svd_state) :
  let dof := GetRow (mis_to_dof agg_part_rels) mis 0 in
  mis_master agg_part_rels mis = PROC_RANK ->
  mises_size agg_part_rels mis = 1 ->
  sv_received_mats st mis = Some arr -> Height (arr 0) = 1 ->
  avoid_ess_bdr_dofs (sv_this st) = false \/
  (agg_is_dof_on_essential_border agg_part_rels dof = false /\ dof < rows (sv_this st)) ->
  exists st' out basis,
    svd_insert_mis PROC_RANK agg_part_rels row_sizes scaling_P mis st = Ok st' out /\
    mis_tent_interps (sv_this st') mis = Some basis /\ is_unit_basis basis /\
    mis_numcoarsedof (sv_this st') mis = Some 1 /\
    sv_num_coarse_dofs st' = sv_num_coarse_dofs st + 1 /\
    filled_cols (sv_this st') = filled_cols (sv_this st) + 1.
Proof.
  intros dof Howner Hsize Hslot Hheight Hoff.
  unfold svd_insert_mis. cbv zeta.
  rewrite Howner, Z.eqb_refl, Hslot, Hsize, Hheight. simpl (1 =? 1).
  unfold SA_ASSERT at 1, bind at 1, ret.
  set (this1 := set_mis_tent_interp (sv_this st) mis DenseMatrix_empty).
  assert (Hskip : exists o, all_dofs_on_boundary this1 agg_part_rels mis arr 1
                            = Ok false o).
  { unfold all_dofs_on_boundary. subst this1. simpl avoid_ess_bdr_dofs.
    destruct Hoff as [->|[Hborder Hrows]]; [by eexists|].
    destruct (avoid_ess_bdr_dofs (sv_this st)); [|by eexists].
    simpl. fold dof. rewrite Hborder.
    replace (dof <? rows (sv_this st)) with true by lia. simpl. by eexists. }
  destruct Hskip as (o1 & ->). unfold bind at 1.
  set (basis := set_Elem (SetSize DenseMatrix_empty 1 1) 0 0 1%float).
  unfold bind at 1. cbv beta iota. rewrite when_Ok. unfold bind at 1.
  destruct (insert_basis_Ok (set_mis_tent_interp this1 mis basis) agg_part_rels mis
              basis scaling_P) as (this2 & o2 & Hinsert); [done | done |].
  rewrite Hinsert. unfold bind, ret.
  destruct (insert_basis_fields _ _ _ _ _ _ _ _ Hinsert)
    as (_ & Hfc & _ & _ & Hinterps & Hnum & _).
  eexists _, _, basis. split; [reflexivity|]. simpl.
  rewrite Hinterps, Hnum, Hfc. simpl. rewrite !fn_lookup_insert.
  by split_and!.
Qed.

(** C1, as the code has it. For a MIS with exactly one dof that this rank
    owns and whose dof passes the check of the essential boundary (the
    avoid-boundary option is off, or the dof is not on the essential
    boundary), the iteration of SVDInsert on the MIS returns, the local basis
    it emits is the 1 by 1 matrix containing 1.0, and the MIS takes exactly
    one coarse dof; when SVDInsert reaches the collective call, the MIS
    still has that basis and that count. *)
Theorem SVDInsert_one_dof_basis (PROC_RANK : Z) (this : ContribTent)
    (agg_part_rels : agg_partitioning_relations_t) (received_mats : received_mats_t)
    (row_sizes : Z -> Z) (scaling_P : bool) (mis : Z) (arr : Z -> DenseMatrix) :
  let dof := GetRow (mis_to_dof agg_part_rels) mis 0 in
  0 <= mis < num_mises agg_part_rels ->
  mis_master agg_part_rels mis = PROC_RANK ->
  mises_size agg_part_rels mis = 1 ->
  received_mats mis = Some arr -> Height (arr 0) = 1 ->
  avoid_ess_bdr_dofs this = false \/
  (agg_is_dof_on_essential_border agg_part_rels dof = false /\ dof < rows this) ->
  (forall st,
     sv_received_mats st mis = Some arr ->
     avoid_ess_bdr_dofs (sv_this st) = avoid_ess_bdr_dofs this ->
     rows (sv_this st) = rows this ->
     exists st' out basis,
       svd_insert_mis PROC_RANK agg_part_rels row_sizes scaling_P mis st = Ok st' out /\
       mis_tent_interps (sv_this st') mis = Some basis /\ is_unit_basis basis /\
       mis_numcoarsedof (sv_this st') mis = Some 1 /\
       sv_num_coarse_dofs st' = sv_num_coarse_dofs st + 1 /\
       filled_cols (sv_this st') = filled_cols (sv_this st) + 1) /\
  (forall st out,
     SVDInsert_local PROC_RANK this agg_part_rels received_mats row_sizes scaling_P
       = Ok st out ->
     exists basis,
       mis_tent_interps (sv_this st) mis = Some basis /\ is_unit_basis basis /\
       mis_numcoarsedof (sv_this st) mis = Some 1).
Proof.
  intros dof Hmis Howner Hsize Hslot Hheight Hoff.
  assert (Hstep : forall st,
     sv_received_mats st mis = Some arr ->
     avoid_ess_bdr_dofs (sv_this st) = avoid_ess_bdr_dofs this ->
     rows (sv_this st) = rows this ->
     exists st' out basis,
       svd_insert_mis PROC_RANK agg_part_rels row_sizes scaling_P mis st = Ok st' out /\
       mis_tent_interps (sv_this st') mis = Some basis /\ is_unit_basis basis /\
       mis_numcoarsedof (sv_this st') mis = Some 1 /\
       sv_num_coarse_dofs st' = sv_num_coarse_dofs st + 1 /\
       filled_cols (sv_this st') = filled_cols (sv_this st) + 1).
  { intros st Hslot' Havoid Hrows.
    apply (svd_insert_mis_one_dof PROC_RANK agg_part_rels row_sizes scaling_P mis arr st);
      try done.
    fold dof. by rewrite Havoid, Hrows. }
  split; [done|].
  intros st out [_ Hrun]%SVDInsert_local_Ok.
  apply (for_upto_res_inv (fun k st =>
           avoid_ess_bdr_dofs (sv_this st) = avoid_ess_bdr_dofs this /\
           rows (sv_this st) = rows this /\
           (k <= mis -> sv_received_mats st mis = Some arr) /\
           (mis < k ->
            exists basis,
              mis_tent_interps (sv_this st) mis = Some basis /\ is_unit_basis basis /\
              mis_numcoarsedof (sv_this st) mis = Some 1))) in Hrun.
  - destruct Hrun as (_ & _ & _ & Hdone). apply Hdone. lia.
  - simpl. split_and!; [done | done | done | lia].
  - intros k s s' o Hk (Havoid & Hrows & Hbefore & Hafter) Hiter.
    destruct (svd_insert_mis_frame _ _ _ _ _ _ _ _ Hiter)
      as (Hrows' & Havoid' & _ & Hframe).
    split_and!; [congruence | congruence | |].
    + intros Hle. destruct (Hframe mis) as (_ & _ & ->); [lia|]. apply Hbefore. lia.
    + intros Hlt. destruct (decide (k = mis)) as [->|Hne].
      * destruct (Hstep s) as (s0 & o0 & basis & Hiter0 & Hbasis & Hunit & Hnum & _);
          [apply Hbefore; lia | done | done |].
        rewrite Hiter in Hiter0. injection Hiter0 as <- _. by exists basis.
      * destruct (Hframe mis) as (-> & -> & _); [lia|]. apply Hafter. lia.
Qed.

(** * Further properties of the routines *)

(** ** The comparator by magnitude *)

Lemma ltb_asym (x y : float) : PrimFloat.ltb x y = true -> PrimFloat.ltb y x = false.
Proof.
  rewrite !ltb_spec. unfold SFltb.
  rewrite (SFcompare_antisym (Prim2SF x) (Prim2SF y)).
  destruct (SFcompare (Prim2SF x) (Prim2SF y)) as [[]|]; simpl; congruence.
Qed.

Lemma fabs_opp (x : float) : fabs (PrimFloat.opp x) = fabs x.
Proof.
  unfold fabs. apply Prim2SF_inj. rewrite !abs_spec, opp_spec.
  by destruct (Prim2SF x).
Qed.

(** X1. abs_pair_compare is antisymmetric, compares a pair equal to itself,
    and looks at the magnitudes of the values only: neither the sign of a
    value nor the index of a pair changes the result. *)
Theorem abs_pair_compare_antisym (a b : float * Z) :
  abs_pair_compare b a = - abs_pair_compare a b /\
  abs_pair_compare a a = 0 /\
  abs_pair_compare (PrimFloat.opp a.1, a.2) b = abs_pair_compare a b /\
  abs_pair_compare a (PrimFloat.opp b.1, b.2) = abs_pair_compare a b /\
  (forall i j, abs_pair_compare (a.1, i) (b.1, j) = abs_pair_compare a b).
Proof.
  unfold abs_pair_compare. cbn [fst snd]. rewrite !fabs_opp. split_and!; try done.
  - destruct (PrimFloat.ltb (fabs a.1) (fabs b.1)) eqn:Hab.
    + by rewrite (ltb_asym _ _ Hab).
    + by destruct (PrimFloat.ltb (fabs b.1) (fabs a.1)).
  - destruct (PrimFloat.ltb (fabs a.1) (fabs a.1)) eqn:Haa; [|done].
    by rewrite (ltb_asym _ _ Haa) in Haa.
Qed.

(** ** contrib_tent_insert_simple: what it leaves alone *)

(** X2. contrib_tent_insert_simple writes the columns [filled_cols] to
    [filled_cols + width - 1] of the rows named by [restriction] only: the
    entries of every other column and of every other row are what they were,
    and so are the sizes of the matrix and every member of the object but
    [filled_cols]. *)
Theorem contrib_tent_insert_simple_frame (this this' : ContribTent)
    (agg_part_rels : agg_partitioning_relations_t) (local : DenseMatrix)
    (restriction : Z -> Z) (out : list message) :
  contrib_tent_insert_simple this agg_part_rels local restriction = Ok this' out ->
  (forall r c, c < filled_cols this \/ filled_cols this + Width local <= c ->
     sm_entries (tent_interp_ this') !! (r, c)
     = sm_entries (tent_interp_ this) !! (r, c)) /\
  (forall r c, (forall j, 0 <= j < Height local -> restriction j <> r) ->
     sm_entries (tent_interp_ this') !! (r, c)
     = sm_entries (tent_interp_ this) !! (r, c)) /\
  sm_Size (tent_interp_ this') = sm_Size (tent_interp_ this) /\
  sm_Width (tent_interp_ this') = sm_Width (tent_interp_ this) /\
  rows this' = rows this /\
  avoid_ess_bdr_dofs this' = avoid_ess_bdr_dofs this /\
  svd_eps this' = svd_eps this /\
  threshold_ this' = threshold_ this /\
  local_coarse_one_representation this' = local_coarse_one_representation this /\
  mis_tent_interps this' = mis_tent_interps this /\
  mis_numcoarsedof this' = mis_numcoarsedof this /\
  coarse_truedof_offset this' = coarse_truedof_offset this.
Proof.
  intros Hrun.
  destruct (contrib_tent_insert_simple_inv _ _ _ _ _ _ Hrun) as [Hpos Hle].
  rewrite contrib_tent_insert_simple_Ok in Hrun by done. injection Hrun as <- _.
  destruct (insert_simple_columns this local restriction)
    as (_ & _ & HS & HW & _ & Hframe & _); [lia | lia |].
  cbv zeta in *. simpl. split_and!; try done.
  - intros r c Hc. apply Hframe. intros i j Hi Hj _ [= _ Heq]. lia.
  - intros r c Hr. apply Hframe. intros i j Hi Hj _ [= Heq _].
    by apply (Hr j).
Qed.

(** ** Construction, insertion and finalization together *)

(** X3. A basis inserted into a fresh object and finalized is read back:
    the finalized matrix is ND by the width of the basis; with distinct rows
    its entry (restriction[j], i) is the entry (j, i) of the basis when that
    has a positive magnitude and is absent otherwise (an exact zero or a NaN
    is not stored), and it has no other entry. Nothing is printed. *)
Theorem insert_simple_finalize_round_trip (ND : Z) (avoid_ess_bdr_dofs_in : bool)
    (agg_part_rels : agg_partitioning_relations_t) (local : DenseMatrix)
    (restriction : Z -> Z) :
  0 < Width local -> Width local <= Height local ->
  (forall j j', 0 <= j < Height local -> 0 <= j' < Height local ->
     restriction j = restriction j' -> j = j') ->
  exists this' tent_interp_l,
    contrib_tent_insert_simple (ContribTent_new ND avoid_ess_bdr_dofs_in)
      agg_part_rels local restriction = Ok this' [] /\
    contrib_tent_finalize this' = Ok tent_interp_l [] /\
    sm_Size tent_interp_l = ND /\
    sm_Width tent_interp_l = Width local /\
    (forall i j, 0 <= i < Width local -> 0 <= j < Height local ->
       sm_entries tent_interp_l !! (restriction j, i)
       = if PrimFloat.ltb 0 (fabs (Elem local j i)) then Some (Elem local j i)
         else None) /\
    (forall r c v,
       sm_entries tent_interp_l !! (r, c) = Some v ->
       exists j, 0 <= j < Height local /\ r = restriction j /\
                 0 <= c < Width local /\ v = Elem local j c).
Proof.
  intros Hpos Hle Hinj.
  rewrite contrib_tent_insert_simple_Ok by done.
  destruct (insert_simple_columns (ContribTent_new ND avoid_ess_bdr_dofs_in) local
              restriction) as (Hcol & _ & HS & _ & _ & Hframe & Hsub & Hstored);
    [lia | lia |].
  cbv zeta in *. simpl in Hcol, HS, Hframe, Hsub, Hstored.
  change (filled_cols (ContribTent_new ND avoid_ess_bdr_dofs_in)) with 0.
  change (tent_interp_ (ContribTent_new ND avoid_ess_bdr_dofs_in))
    with (SparseMatrix_new ND).
  set (st := for_upto (Width local) _ _) in *.
  exists (set_tent (ContribTent_new ND avoid_ess_bdr_dofs_in) (is_tent st) (is_col st)),
         (SparseMatrix_of_arrays (sm_Finalize (is_tent st)) ND (Width local)).
  split; [reflexivity|]. split.
  { unfold contrib_tent_finalize.
    cbn [filled_cols rows set_tent tent_interp_ ContribTent_new sm_Size sm_Width
         sm_finalized sm_Finalize SparseMatrix_of_arrays].
    rewrite Hcol, HS.
    replace (0 <=? 0 + Width local) with true by lia.
    replace (0 + Width local =? 0) with false by lia.
    rewrite !Z.eqb_refl. reflexivity. }
  split_and!; [done | done | |].
  - intros i j Hi Hj. cbn [sm_entries SparseMatrix_of_arrays].
    destruct (PrimFloat.ltb 0 (fabs (Elem local j i))) eqn:Habove.
    + apply sm_Finalize_lookup. split; [|by apply above_zero_not_zero].
      rewrite <- (Hstored Hinj i j Hi Hj Habove). repeat f_equal; lia.
    + destruct (sm_entries (sm_Finalize (is_tent st)) !! (restriction j, i))
        as [v|] eqn:Hv; [|done].
      apply sm_Finalize_lookup in Hv as [Hv _].
      rewrite Hframe in Hv; [by rewrite lookup_empty in Hv|].
      intros i' j' Hi' Hj' Habove' [= Hrow Hcol'].
      apply Hinj in Hrow; [|done|done]. assert (i = i') by lia. congruence.
  - intros r c v [Hv _]%sm_Finalize_lookup.
    apply Hsub in Hv as [Hv|(i & j & Hi & Hj & [= -> ->] & _ & ->)].
    + by rewrite lookup_empty in Hv.
    + exists j. split_and!; try done; try lia; repeat f_equal; lia.
Qed.

(** ** contrib_filter_boundary: the result seen entry by entry *)

Lemma map_eq_lookup {A B C : Type} (f : A -> C) (g : B -> C) (la : list A) :
  forall (lb : list B),
    map f la = map g lb ->
    forall (n : nat) (a : A), la !! n = Some a ->
      exists b, lb !! n = Some b /\ f a = g b.
Proof.
  induction la as [|a la IH]; intros [|b lb]; simpl; try done.
  intros [= Hab Hrest] [|n] a'; simpl.
  - intros [= <-]. by exists b.
  - by apply IH.
Qed.

Lemma filter_all {A : Type} (f : A -> bool) (l : list A) :
  (forall x, In x l -> f x = true) -> List.filter f l = l.
Proof.
  induction l as [|x l IH]; simpl; [done|]. intros Hall.
  rewrite (Hall x) by (by left). f_equal. apply IH. intros y Hy. apply Hall. by right.
Qed.

Lemma In_seqZ (n x : Z) : In x (seqZ 0 n) <-> 0 <= x < n.
Proof. rewrite <- list_elem_of_In, elem_of_seqZ. lia. Qed.

Lemma map_seqZ_pointwise {A : Type} (f g : Z -> A) (n : Z) :
  map f (seqZ 0 n) = map g (seqZ 0 n) -> forall j, 0 <= j < n -> f j = g j.
Proof.
  intros Heq j Hj.
  destruct (map_eq_lookup f g _ _ Heq (Z.to_nat j) j) as (b & Hb & Hfg).
  { rewrite lookup_seqZ. split; [f_equal|]; lia. }
  apply lookup_seqZ in Hb as [-> _]. rewrite Hfg. f_equal. lia.
Qed.

(** The run of [contrib_filter_boundary] and the columns of its result. *)
Lemma contrib_filter_boundary_run (this : ContribTent)
    (agg_part_rels : agg_partitioning_relations_t) (local : DenseMatrix)
    (restriction : Z -> Z) :
  0 < Width local -> 0 <= Height local ->
  exists local' out,
    contrib_filter_boundary this agg_part_rels local restriction = Ok local' out /\
    Height local' = Height local /\
    Width local'
    = Z.of_nat (length (surviving_columns this agg_part_rels restriction local)) /\
    columns local' = boundary_filter this agg_part_rels restriction local /\
    Z.of_nat (length (List.filter is_column_alert out)) = Width local - Width local'.
Proof.
  intros Hvects Hdim. unfold contrib_filter_boundary. cbv zeta.
  replace (0 <? Width local) with true by lia. unfold SA_ASSERT, bind at 1, ret.
  destruct (filter_columns_spec this agg_part_rels local restriction
              indeterminate indeterminate) as (st & out & Hloop & Hcol & Hcols & Hout);
    [done | lia |].
  cbv zeta in Hcol. rewrite Hloop. unfold bind. simpl.
  eexists _, out. split; [by rewrite app_nil_r|].
  split_and!; [done | done | | cbn [Width]; lia].
  rewrite columns_cols_of. simpl. rewrite <- Hcols.
  apply cols_of_ext; [done|]. intros x Hx.
  rewrite (write_range_spec (Data local) (fs_newdata st) 0) by lia.
  replace (x - 0) with x by lia. Z_tests.
Qed.

(** Every column of the result is a surviving column of the input,
    filtered. *)
Lemma boundary_filter_pointwise (this : ContribTent)
    (agg_part_rels : agg_partitioning_relations_t) (restriction : Z -> Z)
    (local local' : DenseMatrix) :
  Height local' = Height local ->
  columns local' = boundary_filter this agg_part_rels restriction local ->
  forall i, 0 <= i < Width local' ->
    exists k, 0 <= k < Width local /\
      column_survives this agg_part_rels restriction local k = true /\
      forall j, 0 <= j < Height local ->
        Elem local' j i
        = filtered_entry this agg_part_rels restriction j (Elem local j k).
Proof.
  intros HH Hcols i Hi. unfold columns, boundary_filter in Hcols.
  destruct (map_eq_lookup _ _ _ _ Hcols (Z.to_nat i) i) as (k & Hk & Hcolumn).
  { rewrite lookup_seqZ. split; [f_equal|]; lia. }
  apply list_elem_of_lookup_2, list_elem_of_In in Hk.
  unfold surviving_columns in Hk. apply filter_In in Hk as [Hk%In_seqZ Hsurvives].
  exists k. split; [lia|]. split; [done|].
  intros j Hj. unfold column, filtered_column in Hcolumn. rewrite HH in Hcolumn.
  by apply (map_seqZ_pointwise _ _ _ Hcolumn).
Qed.

Lemma entry_is_filtered_filtered (this : ContribTent)
    (agg_part_rels : agg_partitioning_relations_t) (restriction : Z -> Z)
    (j : Z) (a : float) :
  entry_is_filtered this agg_part_rels (restriction j)
    (filtered_entry this agg_part_rels restriction j a)
  = entry_is_filtered this agg_part_rels (restriction j) a.
Proof.
  unfold filtered_entry.
  destruct (entry_is_filtered this agg_part_rels (restriction j) a) eqn:Hfiltered;
    [|done].
  unfold entry_is_filtered in *. by destruct (PrimFloat.eqb a 0).
Qed.

(** X4. What contrib_filter_boundary returns: with the avoid-boundary
    option, every entry of the result at an essential-boundary dof is 0.0;
    every column of the result has an entry that does not compare equal to
    zero; and every column of the result comes from one column of the input,
    each entry either kept as it was or set to 0.0. *)
Theorem contrib_filter_boundary_postcondition (this : ContribTent)
    (agg_part_rels : agg_partitioning_relations_t) (local local' : DenseMatrix)
    (restriction : Z -> Z) (out : list message) :
  0 < Width local -> 0 <= Height local ->
  contrib_filter_boundary this agg_part_rels local restriction = Ok local' out ->
  (forall i j, 0 <= i < Width local' -> 0 <= j < Height local' ->
     avoid_ess_bdr_dofs this = true ->
     agg_is_dof_on_essential_border agg_part_rels (restriction j) = true ->
     Elem local' j i = 0%float) /\
  (forall i, 0 <= i < Width local' ->
     exists j, 0 <= j < Height local' /\
       PrimFloat.eqb (Elem local' j i) 0 = false /\
       (avoid_ess_bdr_dofs this = true ->
        agg_is_dof_on_essential_border agg_part_rels (restriction j) = false)) /\
  (forall i, 0 <= i < Width local' ->
     exists k, 0 <= k < Width local /\
       forall j, 0 <= j < Height local' ->
         Elem local' j i = Elem local j k \/ Elem local' j i = 0%float).
Proof.
  intros Hvects Hdim Hrun.
  destruct (contrib_filter_boundary_run this agg_part_rels local restriction)
    as (local0 & out0 & Hrun0 & HH & _ & Hcols & _); [done | done |].
  rewrite Hrun in Hrun0. injection Hrun0 as <- <-.
  pose proof (boundary_filter_pointwise this agg_part_rels restriction local local'
                HH Hcols) as Hpoint.
  rewrite HH. split_and!.
  - intros i j Hi Hj Havoid Hborder.
    destruct (Hpoint i Hi) as (k & _ & _ & Hentries). rewrite Hentries by done.
    unfold filtered_entry, entry_is_filtered. rewrite Havoid, Hborder.
    by rewrite orb_true_r.
  - intros i Hi. destruct (Hpoint i Hi) as (k & _ & Hsurvives & Hentries).
    unfold column_survives in Hsurvives.
    apply existsb_exists in Hsurvives as (j & Hj%In_seqZ & Hkept).
    apply negb_true_iff in Hkept. exists j. rewrite Hentries by done.
    unfold filtered_entry. rewrite Hkept. unfold entry_is_filtered in Hkept.
    apply orb_false_iff in Hkept as [Hnonzero Hoff]. split; [done|]. split; [done|].
    intros Havoid. by rewrite Havoid in Hoff.
  - intros i Hi. destruct (Hpoint i Hi) as (k & Hk & _ & Hentries).
    exists k. split; [done|]. intros j Hj. rewrite Hentries by done.
    unfold filtered_entry. destruct (entry_is_filtered _ _ _ _); [by right | by left].
Qed.

(** X5. contrib_filter_boundary is idempotent: filtering its own result,
    when that kept a column, returns the same columns and drops none; a
    result that kept no column is refused by the assertion on the width. *)
Theorem contrib_filter_boundary_idempotent (this : ContribTent)
    (agg_part_rels : agg_partitioning_relations_t) (local local' : DenseMatrix)
    (restriction : Z -> Z) (out : list message) :
  0 < Width local -> 0 <= Height local ->
  contrib_filter_boundary this agg_part_rels local restriction = Ok local' out ->
  (0 < Width local' ->
   exists local'' out',
     contrib_filter_boundary this agg_part_rels local' restriction = Ok local'' out' /\
     Height local'' = Height local' /\ Width local'' = Width local' /\
     columns local'' = columns local' /\
     List.filter is_column_alert out' = []) /\
  (Width local' = 0 ->
   contrib_filter_boundary this agg_part_rels local' restriction = Fault AssertFailed).
Proof.
  intros Hvects Hdim Hrun.
  destruct (contrib_filter_boundary_run this agg_part_rels local restriction)
    as (local0 & out0 & Hrun0 & HH & _ & Hcols & _); [done | done |].
  rewrite Hrun in Hrun0. injection Hrun0 as <- <-.
  pose proof (boundary_filter_pointwise this agg_part_rels restriction local local'
                HH Hcols) as Hpoint.
  split.
  - intros Hkept.
    destruct (contrib_filter_boundary_run this agg_part_rels local' restriction)
      as (local'' & out' & Hrun' & HH' & HW' & Hcols' & Halerts); [done | lia |].
    assert (Hall : surviving_columns this agg_part_rels restriction local'
                   = seqZ 0 (Width local')).
    { apply filter_all. intros i Hi%In_seqZ.
      destruct (Hpoint i Hi) as (k & _ & Hsurvives & Hentries).
      unfold column_survives in *.
      apply existsb_exists in Hsurvives as (j & Hj%In_seqZ & Hnot).
      apply existsb_exists. exists j. rewrite HH. split; [by apply In_seqZ|].
      by rewrite Hentries, entry_is_filtered_filtered. }
    assert (Hsame : boundary_filter this agg_part_rels restriction local'
                    = columns local').
    { unfold boundary_filter, columns. rewrite Hall. apply map_ext_in.
      intros i Hi%In_seqZ. destruct (Hpoint i Hi) as (k & _ & _ & Hentries).
      unfold filtered_column, column. apply map_ext_in. intros j Hj%In_seqZ.
      rewrite Hentries by lia. unfold filtered_entry at 1.
      rewrite entry_is_filtered_filtered. unfold filtered_entry.
      by destruct (entry_is_filtered _ _ _ _). }
    assert (HW'' : Width local'' = Width local').
    { rewrite HW', Hall, length_seqZ. lia. }
    exists local'', out'. split_and!; [done | done | done | congruence |].
    destruct (List.filter is_column_alert out'); [done | simpl in Halerts; lia].
  - intros Hnone. unfold contrib_filter_boundary. cbv zeta. by rewrite Hnone.
Qed.

(** ** contrib_filter_boundary: what it prints *)

Lemma for_res_out {S : Type} (P : Z -> S -> Prop) (Q : message -> Prop)
    (body : Z -> S -> result S) (n : nat) :
  forall (i : Z) (s s' : S) (out : list message),
    P i s ->
    (forall k s s' o, i <= k < i + Z.of_nat n -> P k s -> body k s = Ok s' o ->
       P (k + 1) s' /\ Forall Q o) ->
    for_res n i body s = Ok s' out ->
    Forall Q out.
Proof.
  induction n as [|n IH]; intros i s s' out Hs Hstep; simpl for_res.
  - intros [= _ <-]. constructor.
  - intros (s1 & o1 & o2 & Hbody & Hloop & ->)%bind_Ok.
    destruct (Hstep i s s1 o1) as [Hs1 Ho1]; [lia | done | done |].
    apply Forall_app. split; [done|].
    apply (IH (i + 1) s1 s' o2); [done | | done].
    intros k t t' o Hk. apply Hstep. lia.
Qed.

Lemma for_upto_res_out {S : Type} (P : Z -> S -> Prop) (Q : message -> Prop)
    (body : Z -> S -> result S) (hi : Z) (s s' : S) (out : list message) :
  P 0 s ->
  (forall k s s' o, 0 <= k < hi -> P k s -> body k s = Ok s' o ->
     P (k + 1) s' /\ Forall Q o) ->
  for_upto_res hi body s = Ok s' out ->
  Forall Q out.
Proof.
  intros Hs Hstep. apply (for_res_out P Q body (Z.to_nat hi) 0 s s' out Hs).
  intros k t t' o Hk. apply Hstep. lia.
Qed.

Lemma Forall_eq_repeat {A : Type} (x : A) (l : list A) :
  Forall (fun y => y = x) l -> l = repeat x (length l).
Proof. induction 1 as [|y l -> _ IH]; simpl; [done|]. by rewrite <- IH. Qed.

(** The messages of [contrib_filter_boundary]: the alert of a dropped
    column, or at output level 7 the alert of a zeroed entry. *)
Lemma contrib_filter_boundary_out (this : ContribTent)
    (agg_part_rels : agg_partitioning_relations_t) (local local' : DenseMatrix)
    (restriction : Z -> Z) (out : list message) :
  contrib_filter_boundary this agg_part_rels local restriction = Ok local' out ->
  Forall (fun m =>
            m = ALERT_entire_column_zero \/
            (SA_IS_OUTPUT_LEVEL 7 = true /\
             exists i j, 0 <= i < Width local /\ 0 <= j < Height local /\
               m = ALERT_nonzero_on_ess_boundary (Elem local j i) /\
               entry_is_filtered this agg_part_rels (restriction j) (Elem local j i)
               = true)) out.
Proof.
  unfold contrib_filter_boundary. cbv zeta.
  intros (u & oa & orest & [_ ->]%SA_ASSERT_Ok & Hrun & ->)%bind_Ok.
  apply bind_Ok in Hrun as (st & oloop & oret & Hloop & [= _ <-] & ->).
  rewrite app_nil_r. simpl.
  eapply (for_upto_res_out (fun k st => fs_data st = k * Height local));
    [| | exact Hloop]; [done|].
  intros i s s' ocol Hi Hdata
         (scan & oscan & otail & Hscan & Hstep & ->)%bind_Ok.
  rewrite Hdata in Hscan. split; [|apply Forall_app; split].
  - destruct (atleastone scan).
    + injection Hstep as <- _. simpl. lia.
    + apply bind_Ok in Hstep as (u' & op & oq & _ & [= <- _] & _). simpl. lia.
  - eapply (for_upto_res_out (fun _ _ => True)); [| | exact Hscan]; [done|].
    intros j t t' oe Hj _ Hentry. split; [done|].
    unfold filter_entry in Hentry. cbv zeta in Hentry.
    apply bind_Ok in Hentry as (u' & oa' & oe' & [_ ->]%SA_ASSERT_Ok & Hentry & ->).
    rewrite Data_Elem in Hentry. simpl.
    destruct (entry_is_filtered this agg_part_rels (restriction j) (Elem local j i))
      eqn:Hfiltered.
    + apply bind_Ok in Hentry as (u'' & op & oq & Hprint & [= _ <-] & ->).
      rewrite app_nil_r. unfold when in Hprint.
      destruct (SA_IS_OUTPUT_LEVEL 7) eqn:Hlevel; simpl in Hprint.
      * destruct (negb _); injection Hprint as _ <-; [|constructor].
        constructor; [|constructor]. right. split; [done|]. by exists i, j.
      * injection Hprint as _ <-. constructor.
    + injection Hentry as _ <-. constructor.
  - destruct (atleastone scan).
    + injection Hstep as _ <-. constructor.
    + apply bind_Ok in Hstep as (u' & op & oq & [= _ <-] & [= _ <-] & ->).
      repeat constructor.
Qed.

(** X6. What contrib_filter_boundary prints: one alert per dropped column
    and, at output level 7 only, alerts of zeroed entries. With output level
    7 off the output is exactly one column alert per dropped column, so
    nothing is printed when no column is dropped. *)
Theorem contrib_filter_boundary_prints (this : ContribTent)
    (agg_part_rels : agg_partitioning_relations_t) (local local' : DenseMatrix)
    (restriction : Z -> Z) (out : list message) :
  0 < Width local -> 0 <= Height local ->
  contrib_filter_boundary this agg_part_rels local restriction = Ok local' out ->
  Z.of_nat (length (List.filter is_column_alert out)) = Width local - Width local' /\
  Forall (fun m => is_column_alert m = true \/
                   (SA_IS_OUTPUT_LEVEL 7 = true /\
                    exists a, m = ALERT_nonzero_on_ess_boundary a)) out /\
  (SA_IS_OUTPUT_LEVEL 7 = false ->
   out = repeat ALERT_entire_column_zero (Z.to_nat (Width local - Width local'))).
Proof.
  intros Hvects Hdim Hrun.
  destruct (contrib_filter_boundary_run this agg_part_rels local restriction)
    as (local0 & out0 & Hrun0 & _ & _ & _ & Hcount); [done | done |].
  rewrite Hrun in Hrun0. injection Hrun0 as <- <-.
  pose proof (contrib_filter_boundary_out _ _ _ _ _ _ Hrun) as Hout.
  split_and!; [done | |].
  - eapply Forall_impl; [exact Hout|].
    intros m [->|(Hlevel & i & j & _ & _ & -> & _)]; [by left|].
    right. split; [done|]. by eexists.
  - intros Hoff.
    assert (Halerts : Forall (fun m => m = ALERT_entire_column_zero) out).
    { eapply Forall_impl; [exact Hout|]. intros m [->|[Hlevel _]]; [done | congruence]. }
    rewrite (filter_all is_column_alert out) in Hcount.
    + rewrite <- Hcount, Nat2Z.id. by apply Forall_eq_repeat.
    + intros m Hm. rewrite Forall_forall in Halerts.
      by rewrite (Halerts m) by (by apply list_elem_of_In).
Qed.

(** X7. contrib_filter_boundary leaves alone a matrix with nothing to
    filter: when no entry is exactly zero and (with the avoid-boundary
    option) no row is an essential-boundary dof, it returns the same sizes
    and the same entries and prints nothing, at every output level. *)
Theorem contrib_filter_boundary_nothing_to_filter (this : ContribTent)
    (agg_part_rels : agg_partitioning_relations_t) (local : DenseMatrix)
    (restriction : Z -> Z) :
  0 < Width local -> 0 < Height local ->
  (forall i j, 0 <= i < Width local -> 0 <= j < Height local ->
     entry_is_filtered this agg_part_rels (restriction j) (Elem local j i) = false) ->
  exists local',
    contrib_filter_boundary this agg_part_rels local restriction = Ok local' [] /\
    Height local' = Height local /\ Width local' = Width local /\
    forall i j, 0 <= i < Width local -> 0 <= j < Height local ->
      Elem local' j i = Elem local j i.
Proof.
  intros Hvects Hdim Hkept.
  destruct (contrib_filter_boundary_run this agg_part_rels local restriction)
    as (local' & out & Hrun & HH & HW & Hcols & Hcount); [done | lia |].
  assert (Hall : surviving_columns this agg_part_rels restriction local
                 = seqZ 0 (Width local)).
  { apply filter_all. intros i Hi%In_seqZ. unfold column_survives.
    apply existsb_exists. exists 0. split; [apply In_seqZ; lia|].
    rewrite Hkept; [done | done | lia]. }
  rewrite Hall, length_seqZ in HW.
  assert (HW' : Width local' = Width local) by lia.
  assert (Hout : out = []).
  { pose proof (contrib_filter_boundary_out _ _ _ _ _ _ Hrun) as Hout.
    rewrite HW' in Hcount. destruct out as [|m out]; [done|]. exfalso.
    apply Forall_cons in Hout as [[->|(_ & i & j & Hi & Hj & _ & Hfiltered)] _].
    - simpl in Hcount. lia.
    - by rewrite Hkept in Hfiltered. }
  subst out. exists local'. split_and!; [done | done | done |].
  intros i j Hi Hj. unfold boundary_filter in Hcols. rewrite Hall in Hcols.
  unfold columns in Hcols. rewrite HW' in Hcols.
  pose proof (map_seqZ_pointwise _ _ _ Hcols i Hi) as Hcolumn.
  unfold column, filtered_column in Hcolumn. rewrite HH in Hcolumn.
  rewrite (map_seqZ_pointwise _ _ _ Hcolumn j Hj).
  unfold filtered_entry. by rewrite Hkept.
Qed.

(** ** contrib_tent_insert_from_local as a whole *)

(** The loop over the rows of column [i]: the norm, the count of kept
    entries, the flag and what it leaves of [newdata]. *)
Lemma insert_from_local_scan_count (this : ContribTent)
    (agg_part_rels : agg_partitioning_relations_t) (local : DenseMatrix)
    (restriction : Z -> Z) (i newdatap : Z) (newdata newcolumn0 : Z -> float)
    (modified : bool) :
  0 <= Height local -> 0 <= i < Width local ->
  exists scan out,
    for_upto_res (Height local)
      (insert_from_local_entry this agg_part_rels local restriction
         (i * Height local) newdatap)
      (mkLocalScan newdata newcolumn0 modified 0 0%float) = Ok scan out /\
    (forall j, 0 <= j < Height local ->
       ls_newcolumn scan j
       = filtered_entry this agg_part_rels restriction j (Elem local j i)) /\
    ls_adhoc_column_norm scan = adhoc_l1_norm this agg_part_rels restriction local i /\
    ls_nonzerodofs scan = nonzero_dofs this agg_part_rels restriction local i /\
    ls_modified scan
    = modified || column_has_filtered this agg_part_rels restriction local i /\
    (forall x, x < newdatap -> ls_newdata scan x = newdata x).
Proof.
  intros Hdim Hi. unfold adhoc_l1_norm, nonzero_dofs, column_has_filtered.
  apply (for_upto_res_ind (fun n scan (o : list message) =>
    (forall j, 0 <= j < n ->
       ls_newcolumn scan j
       = filtered_entry this agg_part_rels restriction j (Elem local j i)) /\
    ls_adhoc_column_norm scan
    = fold_left
        (fun norm j =>
           if entry_is_filtered this agg_part_rels (restriction j) (Elem local j i)
           then norm else PrimFloat.add norm (fabs (Elem local j i)))
        (seqZ 0 n) 0%float /\
    ls_nonzerodofs scan
    = Z.of_nat (length (List.filter
        (fun j => negb (entry_is_filtered this agg_part_rels (restriction j)
                          (Elem local j i))) (seqZ 0 n))) /\
    ls_modified scan
    = modified || existsb (fun j => entry_is_filtered this agg_part_rels (restriction j)
                                      (Elem local j i)) (seqZ 0 n) /\
    (forall x, x < newdatap -> ls_newdata scan x = newdata x))); [done | |].
  - simpl. split_and!; [intros; lia | done | done | by rewrite orb_false_r | done].
  - intros n scan o Hn (Hcol & Hnorm & Hcount & Hmod & Hframe).
    unfold insert_from_local_entry. cbv zeta.
    replace (i * Height local + n <? Height local * Width local) with true by nia.
    unfold SA_ASSERT, bind at 1, ret.
    rewrite seqZ_snoc, fold_left_app, List.filter_app, existsb_app, <- Hnorm by lia.
    simpl fold_left. simpl List.filter. simpl existsb.
    rewrite Data_Elem. unfold filtered_entry in *.
    destruct (entry_is_filtered this agg_part_rels (restriction n) (Elem local n i))
      eqn:Hfiltered.
    + rewrite when_Ok. unfold bind, ret. eexists _, _. split; [reflexivity|].
      simpl. rewrite app_nil_r. split_and!.
      * intros j Hj. destruct (decide (n = j)) as [<-|Hne].
        -- by rewrite fn_lookup_insert, Hfiltered.
        -- rewrite fn_lookup_insert_ne by done. apply Hcol. lia.
      * done.
      * done.
      * by rewrite !orb_true_r.
      * intros x Hx. rewrite fn_lookup_insert_ne by lia. by apply Hframe.
    + eexists _, _. split; [reflexivity|]. simpl. split_and!.
      * intros j Hj. destruct (decide (n = j)) as [<-|Hne].
        -- by rewrite fn_lookup_insert, Hfiltered.
        -- rewrite fn_lookup_insert_ne by done. apply Hcol. lia.
      * done.
      * rewrite length_app. simpl. lia.
      * by rewrite !orb_false_r.
      * done.
Qed.

(** The loop that stores an accepted column: what it leaves in [newdata]. *)
Lemma store_column_newdata (restriction : Z -> Z) (newcolumn : Z -> float)
    (col newdatap dim : Z) (tent : SparseMatrix) (newdata : Z -> float) :
  0 <= dim ->
  let stored :=
    for_upto dim
      (fun j '(tent, nd) =>
         let row := restriction j in
         (sm_Set tent row col (newcolumn j), <[ newdatap + j := newcolumn j ]> nd))
      (tent, newdata) in
  forall x,
    stored.2 x = if (newdatap <=? x) && (x <? newdatap + dim)
                 then newcolumn (x - newdatap) else newdata x.
Proof.
  intros Hdim. cbv zeta.
  apply (for_upto_ind (fun n (p : SparseMatrix * (Z -> float)) =>
    forall x, p.2 x = if (newdatap <=? x) && (x <? newdatap + n)
                      then newcolumn (x - newdatap) else newdata x)); [done | |].
  - intros x. cbn [snd]. Z_tests.
  - intros n [t nd] Hn Hnd x. cbn [snd] in *.
    destruct (decide (newdatap + n = x)) as [<-|Hne].
    + rewrite fn_lookup_insert. replace (newdatap + n - newdatap) with n by lia. Z_tests.
    + rewrite fn_lookup_insert_ne by done. rewrite Hnd. Z_tests.
Qed.

(** One iteration of the loop over the columns. *)
Lemma insert_from_local_column_run (this : ContribTent)
    (agg_part_rels : agg_partitioning_relations_t) (local : DenseMatrix)
    (restriction : Z -> Z) (i : Z) (st : local_state) :
  0 <= Height local -> 0 <= i < Width local ->
  lo_data st = i * Height local ->
  let accepted := column_accepted this agg_part_rels restriction local i in
  exists st' out,
    insert_from_local_column this agg_part_rels local restriction i st = Ok st' out /\
    lo_data st' = lo_data st + Height local /\
    lo_bestcase_nonzerodofs st'
    = Z.max (lo_bestcase_nonzerodofs st)
            (nonzero_dofs this agg_part_rels restriction local i) /\
    lo_col st' = lo_col st + (if accepted then 1 else 0) /\
    lo_newdatap st' = lo_newdatap st + (if accepted then Height local else 0) /\
    lo_modified st'
    = lo_modified st
      || (negb accepted || column_has_filtered this agg_part_rels restriction local i) /\
    (forall x, x < lo_newdatap st -> lo_newdata st' x = lo_newdata st x) /\
    (accepted = true -> forall j, 0 <= j < Height local ->
       lo_newdata st' (lo_newdatap st + j)
       = filtered_entry this agg_part_rels restriction j (Elem local j i)).
Proof.
  intros Hdim Hi Hdata accepted. subst accepted. unfold column_accepted.
  unfold insert_from_local_column. cbv zeta. rewrite Hdata.
  destruct (insert_from_local_scan_count this agg_part_rels local restriction i
              (lo_newdatap st) (lo_newdata st) (lo_newcolumn st) (lo_modified st))
    as (scan & o1 & Hscan & Hcol & Hnorm & Hcount & Hmod & Hframe); [done | done |].
  rewrite Hscan. unfold bind at 1. rewrite Hnorm, Hcount.
  assert (Hbest : (if lo_bestcase_nonzerodofs st
                      <? nonzero_dofs this agg_part_rels restriction local i
                   then nonzero_dofs this agg_part_rels restriction local i
                   else lo_bestcase_nonzerodofs st)
                  = Z.max (lo_bestcase_nonzerodofs st)
                      (nonzero_dofs this agg_part_rels restriction local i)).
  { destruct (Z.ltb_spec (lo_bestcase_nonzerodofs st)
                (nonzero_dofs this agg_part_rels restriction local i)); lia. }
  rewrite Hbest.
  destruct (PrimFloat.ltb (adhoc_l1_norm this agg_part_rels restriction local i) 0.001)
    eqn:Hignore.
  - eexists _, _. split; [reflexivity|]. simpl.
    split_and!; [done | done | lia | lia | by rewrite orb_true_r | done | done].
  - rewrite when_Ok.
    pose proof (store_column_newdata restriction (ls_newcolumn scan) (lo_col st)
                  (lo_newdatap st) (Height local) (lo_tent st) (ls_newdata scan) Hdim)
      as Hstored.
    cbv zeta in Hstored.
    destruct (for_upto (Height local) _ (lo_tent st, ls_newdata scan)) as [tent nd].
    unfold bind, ret. eexists _, _. split; [reflexivity|]. cbn [snd] in *. simpl.
    split_and!; [done | done | done | done | done | |].
    + intros x Hx. rewrite Hstored.
      replace (lo_newdatap st <=? x) with false by lia. simpl. by apply Hframe.
    + intros _ j Hj. rewrite Hstored.
      replace (lo_newdatap st <=? lo_newdatap st + j) with true by lia.
      replace (lo_newdatap st + j <? lo_newdatap st + Height local) with true by lia.
      simpl. replace (lo_newdatap st + j - lo_newdatap st) with j by lia.
      by apply Hcol.
Qed.

(** The state after the loop over the columns. *)
Lemma insert_from_local_columns_run (this : ContribTent)
    (agg_part_rels : agg_partitioning_relations_t) (local : DenseMatrix)
    (restriction : Z -> Z) (newdata0 newcolumn0 : Z -> float) :
  0 <= Height local -> 0 <= Width local ->
  let accepted := accepted_columns this agg_part_rels restriction local in
  exists st out,
    for_upto_res (Width local)
      (insert_from_local_column this agg_part_rels local restriction)
      (mkLocal 0 newdata0 0 newcolumn0 false (filled_cols this) (tent_interp_ this) 0)
    = Ok st out /\
    lo_col st = filled_cols this + Z.of_nat (length accepted) /\
    lo_bestcase_nonzerodofs st
    = bestcase_nonzerodofs this agg_part_rels restriction local /\
    lo_modified st = local_modified this agg_part_rels restriction local /\
    cols_of (lo_newdata st) (Height local) (Z.of_nat (length accepted))
    = map (filtered_column this agg_part_rels restriction local) accepted.
Proof.
  intros Hdim Hvects accepted. subst accepted.
  unfold accepted_columns, bestcase_nonzerodofs, local_modified.
  set (dim := Height local) in *.
  set (accepts := column_accepted this agg_part_rels restriction local).
  set (count := nonzero_dofs this agg_part_rels restriction local).
  set (touched := fun i => negb (accepts i)
                           || column_has_filtered this agg_part_rels restriction local i).
  destruct (for_upto_res_ind (fun n st (o : list message) =>
      lo_data st = n * dim /\
      lo_newdatap st = Z.of_nat (length (List.filter accepts (seqZ 0 n))) * dim /\
      lo_col st = filled_cols this + Z.of_nat (length (List.filter accepts (seqZ 0 n))) /\
      lo_bestcase_nonzerodofs st
      = fold_left (fun best i => Z.max best (count i)) (seqZ 0 n) 0 /\
      lo_modified st = existsb touched (seqZ 0 n) /\
      cols_of (lo_newdata st) dim (Z.of_nat (length (List.filter accepts (seqZ 0 n))))
      = map (filtered_column this agg_part_rels restriction local)
            (List.filter accepts (seqZ 0 n)))
      (insert_from_local_column this agg_part_rels local restriction) (Width local)
      (mkLocal 0 newdata0 0 newcolumn0 false (filled_cols this) (tent_interp_ this) 0)
      Hvects)
    as (st & out & Hloop & _ & _ & Hcol & Hbest & Hmod & Hcols).
  - simpl. split_and!; try done. lia.
  - intros n st o Hn (Hdata & Hnewdatap & Hcol & Hbest & Hmod & Hcols).
    destruct (insert_from_local_column_run this agg_part_rels local restriction n st)
      as (st' & o' & Hstep & Hdata' & Hbest' & Hcol' & Hnewdatap' & Hmod' & Hframe
          & Hstored); [done | lia | done |].
    cbv zeta in *. fold accepts count dim in Hbest', Hcol', Hnewdatap', Hmod', Hstored.
    exists st', o'. split; [done|].
    rewrite seqZ_snoc, List.filter_app, fold_left_app, existsb_app by lia.
    simpl List.filter. simpl fold_left. simpl existsb. rewrite orb_false_r.
    rewrite <- Hbest, <- Hmod. fold (touched n) in Hmod'.
    set (p := Z.of_nat (length (List.filter accepts (seqZ 0 n)))) in *.
    destruct (accepts n) eqn:Haccepts.
    + rewrite length_app, map_app. simpl length. simpl map.
      replace (Z.of_nat (length (List.filter accepts (seqZ 0 n)) + 1)) with (p + 1)
        by lia.
      split_and!; [lia | lia | lia | done | done |].
      rewrite cols_of_snoc by lia. f_equal.
      * rewrite <- Hcols. apply cols_of_ext; [done|]. intros x Hx.
        apply Hframe. lia.
      * f_equal. unfold filtered_column. apply map_seqZ_ext. intros j Hj.
        rewrite <- Hstored by done. f_equal. lia.
    + rewrite app_nil_r. fold p.
      split_and!; [lia | lia | lia | done | done |].
      rewrite <- Hcols. apply cols_of_ext; [done|]. intros x Hx.
      apply Hframe. lia.
  - by exists st, out.
Qed.

Lemma fold_max_bound (f : Z -> Z) (B : Z) (l : list Z) :
  forall best, best <= B -> (forall i, In i l -> f i <= B) ->
    fold_left (fun best i => Z.max best (f i)) l best <= B.
Proof.
  induction l as [|x l IH]; intros best Hbest Hall; simpl; [done|].
  apply IH.
  - pose proof (Hall x (or_introl eq_refl)). lia.
  - intros i Hi. apply Hall. by right.
Qed.

(** The run of [contrib_tent_insert_from_local]: it returns when no more
    columns are accepted than the fullest column has kept entries, and
    fails its last assertion otherwise. *)
Lemma contrib_tent_insert_from_local_run (this : ContribTent)
    (agg_part_rels : agg_partitioning_relations_t) (local : DenseMatrix)
    (restriction : Z -> Z) :
  0 < Width local -> Width local <= Height local ->
  let accepted := accepted_columns this agg_part_rels restriction local in
  let best := bestcase_nonzerodofs this agg_part_rels restriction local in
  (Z.of_nat (length accepted) <= best ->
   exists this' local' out,
     contrib_tent_insert_from_local this agg_part_rels local restriction
     = Ok (this', local') out /\
     filled_cols this' = filled_cols this + Z.of_nat (length accepted) /\
     Height local' = Height local /\
     Width local' = Z.of_nat (length accepted) /\
     columns local'
     = map (filtered_column this agg_part_rels restriction local) accepted) /\
  (best < Z.of_nat (length accepted) ->
   contrib_tent_insert_from_local this agg_part_rels local restriction
   = Fault AssertFailed).
Proof.
  intros Hvects Hle accepted best.
  destruct (insert_from_local_columns_run this agg_part_rels local restriction
              indeterminate indeterminate) as (st & out & Hloop & Hcol & Hbest & Hmod
                                               & Hcols); [lia | lia |].
  cbv zeta in Hcol, Hcols. fold accepted in Hcol, Hcols. fold best in Hbest.
  assert (Hadvance : lo_col st - filled_cols this = Z.of_nat (length accepted))
    by lia.
  split; unfold contrib_tent_insert_from_local; cbv zeta;
    replace (0 <? Width local) with true by lia;
    replace (Width local <=? Height local) with true by lia;
    unfold SA_ASSERT at 1 2, bind at 1 2, ret;
    rewrite Hloop; unfold bind at 1; rewrite Hadvance, Hbest.
  - intros Hfits. replace (Z.of_nat (length accepted) <=? best) with true by lia.
    unfold SA_ASSERT, bind, ret. eexists _, _, _. split; [reflexivity|].
    rewrite Hmod. cbn [fst snd filled_cols set_tent]. split; [lia|].
    destruct (local_modified this agg_part_rels restriction local) eqn:Hmodified.
    + cbn [Height Width SetSize]. split_and!; [done | done |].
      rewrite columns_cols_of. cbn [Height Width Data]. rewrite <- Hcols.
      apply cols_of_ext; [lia|]. intros x Hx.
      rewrite (write_range_spec (Data local) (lo_newdata st) 0) by lia.
      replace (x - 0) with x by lia. Z_tests.
    + unfold local_modified in Hmodified.
      assert (Huntouched : forall i, 0 <= i < Width local ->
                column_accepted this agg_part_rels restriction local i = true /\
                column_has_filtered this agg_part_rels restriction local i = false).
      { intros i Hi. apply In_seqZ in Hi.
        destruct (column_accepted this agg_part_rels restriction local i) eqn:Hacc,
                 (column_has_filtered this agg_part_rels restriction local i) eqn:Hfil;
          try done; exfalso; apply not_true_iff_false in Hmodified; apply Hmodified;
          apply existsb_exists; exists i; by rewrite Hacc, Hfil. }
      assert (Hall : accepted = seqZ 0 (Width local)).
      { apply filter_all. intros i Hi%In_seqZ. by apply Huntouched. }
      rewrite Hall, length_seqZ. split_and!; [done | lia |].
      unfold columns. apply map_ext_in. intros i Hi%In_seqZ.
      unfold column, filtered_column. apply map_ext_in. intros j Hj%In_seqZ.
      destruct (Huntouched i Hi) as [_ Hnone]. unfold column_has_filtered in Hnone.
      unfold filtered_entry.
      destruct (entry_is_filtered this agg_part_rels (restriction j) (Elem local j i))
        eqn:Hfiltered; [|done].
      exfalso. apply not_true_iff_false in Hnone. apply Hnone.
      apply existsb_exists. exists j. split; [by apply In_seqZ | done].
  - intros Hover. replace (Z.of_nat (length accepted) <=? best) with false by lia.
    reflexivity.
Qed.

(** The loop over the columns: the alerts about the norms, and what the
    accepted columns leave in the matrix under assembly. *)
Lemma insert_from_local_columns_verdicts (this : ContribTent)
    (agg_part_rels : agg_partitioning_relations_t) (local : DenseMatrix)
    (restriction : Z -> Z) (newdata0 newcolumn0 : Z -> float) :
  0 <= Height local -> 0 <= Width local ->
  let accepted := accepted_columns this agg_part_rels restriction local in
  exists st out,
    for_upto_res (Width local)
      (insert_from_local_column this agg_part_rels local restriction)
      (mkLocal 0 newdata0 0 newcolumn0 false (filled_cols this) (tent_interp_ this) 0)
    = Ok st out /\
    List.filter is_norm_alert out = norm_alerts this agg_part_rels restriction local /\
    (forall r c,
       c < filled_cols this \/ filled_cols this + Z.of_nat (length accepted) <= c ->
       sm_entries (lo_tent st) !! (r, c) = sm_entries (tent_interp_ this) !! (r, c)) /\
    ((forall j j', 0 <= j < Height local -> 0 <= j' < Height local ->
        restriction j = restriction j' -> j = j') ->
     forall (p : nat) i, accepted !! p = Some i ->
       forall j, 0 <= j < Height local ->
         sm_entries (lo_tent st) !! (restriction j, filled_cols this + Z.of_nat p)
         = Some (filtered_entry this agg_part_rels restriction j (Elem local j i))).
Proof.
  intros Hdim Hvects accepted. subst accepted. unfold accepted_columns, norm_alerts.
  set (dim := Height local) in *.
  set (accepts := column_accepted this agg_part_rels restriction local).
  set (alert := column_norm_alert this agg_part_rels restriction local).
  destruct (for_upto_res_ind (fun n st (o : list message) =>
      lo_data st = n * dim /\
      lo_col st = filled_cols this + Z.of_nat (length (List.filter accepts (seqZ 0 n))) /\
      List.filter is_norm_alert o = flat_map alert (seqZ 0 n) /\
      (forall r c,
         c < filled_cols this \/
         filled_cols this + Z.of_nat (length (List.filter accepts (seqZ 0 n))) <= c ->
         sm_entries (lo_tent st) !! (r, c) = sm_entries (tent_interp_ this) !! (r, c)) /\
      ((forall j j', 0 <= j < dim -> 0 <= j' < dim ->
          restriction j = restriction j' -> j = j') ->
       forall (p : nat) i, List.filter accepts (seqZ 0 n) !! p = Some i ->
         forall j, 0 <= j < dim ->
           sm_entries (lo_tent st) !! (restriction j, filled_cols this + Z.of_nat p)
           = Some (filtered_entry this agg_part_rels restriction j (Elem local j i))))
      (insert_from_local_column this agg_part_rels local restriction) (Width local)
      (mkLocal 0 newdata0 0 newcolumn0 false (filled_cols this) (tent_interp_ this) 0)
      Hvects)
    as (st & out & Hloop & _ & _ & Halerts & Hframe & Hstored).
  - simpl. split_and!; try done. lia.
  - intros n st o Hn (Hdata & Hcol & Halerts & Hframe & Hstored).
    destruct (insert_from_local_column_verdict this agg_part_rels local restriction n st)
      as (st' & o' & Hstep & Hverdict); [done | lia | done |].
    destruct (insert_from_local_column_run this agg_part_rels local restriction n st)
      as (st'' & o'' & Hstep' & Hdata' & _); [done | lia | done |].
    rewrite Hstep in Hstep'. injection Hstep' as <- <-.
    cbv zeta in Hverdict. fold dim in Hverdict, Hdata'.
    exists st', o'. split; [done|].
    rewrite seqZ_snoc, List.filter_app, flat_map_app, List.filter_app by lia.
    simpl List.filter. simpl flat_map. rewrite app_nil_r, Halerts.
    set (L := List.filter accepts (seqZ 0 n)) in *.
    assert (Haccepts : accepts n
              = negb (PrimFloat.ltb
                        (adhoc_l1_norm this agg_part_rels restriction local n) 0.001))
      by reflexivity.
    assert (Halert : alert n
              = if PrimFloat.ltb (adhoc_l1_norm this agg_part_rels restriction local n)
                     0.001
                then [ALERT_near_zero_ignoring
                        (adhoc_l1_norm this agg_part_rels restriction local n)]
                else if PrimFloat.ltb
                          (adhoc_l1_norm this agg_part_rels restriction local n) 0.1
                     then [ALERT_accepting_small
                             (adhoc_l1_norm this agg_part_rels restriction local n)]
                     else [])
      by reflexivity.
    rewrite Haccepts, Halert.
    destruct (PrimFloat.ltb (adhoc_l1_norm this agg_part_rels restriction local n) 0.001)
      eqn:Hignore.
    + destruct Hverdict as (Hout & Hcol' & Htent). simpl negb. cbv iota.
      rewrite app_nil_r, Hout, Htent. split_and!; [lia | lia | done | done | done].
    + destruct Hverdict as (Hout & Hcol' & Hframe' & Hstored'). simpl negb. cbv iota.
      rewrite length_app. simpl length. rewrite Hout. split_and!; [lia | lia | | |].
      * by destruct (PrimFloat.ltb _ 0.1).
      * intros r c Hc. rewrite Hframe' by lia. apply Hframe. lia.
      * intros Hinj p i [Hp|[Hp Hlast]]%lookup_app_Some j Hj.
        -- pose proof (lookup_lt_Some _ _ _ Hp) as Hlt.
           rewrite Hframe' by lia. by apply Hstored.
        -- apply list_lookup_singleton_Some in Hlast as [Hlast <-].
           replace (filled_cols this + Z.of_nat p) with (lo_col st) by lia.
           by apply Hstored'.
  - exists st, out. by split_and!.
Qed.

(** C7, as the code has it. A call of the deprecated insertion on a matrix
    at least as high as wide, in which no more columns are accepted than
    the fullest column keeps entries, returns, and of every column: when
    its ad hoc l1 norm (the sum of the magnitudes of its entries that are
    not zeroed) is below 1e-3 the column is rejected: the alert that it is
    ignored is printed, it takes no column of the tentative prolongator and
    it is not among the columns left in [local]. When its norm is not below
    1e-3 the column is accepted, with the alert of a small norm when the
    norm is below 1e-1: the accepted columns take the columns of the
    tentative prolongator from [filled_cols] on, in their order, where
    their filtered entries are set, and they are the columns left in
    [local]. [filled_cols] advances by the number of accepted columns, the
    alerts about the norms are printed column by column, and no other
    column of the tentative prolongator is touched. *)
Theorem contrib_tent_insert_from_local_verdicts (this : ContribTent)
    (agg_part_rels : agg_partitioning_relations_t) (local : DenseMatrix)
    (restriction : Z -> Z) :
  0 < Width local -> Width local <= Height local ->
  let accepted := accepted_columns this agg_part_rels restriction local in
  Z.of_nat (length accepted)
  <= bestcase_nonzerodofs this agg_part_rels restriction local ->
  exists this' local' out,
    contrib_tent_insert_from_local this agg_part_rels local restriction
    = Ok (this', local') out /\
    List.filter is_norm_alert out = norm_alerts this agg_part_rels restriction local /\
    (forall i, 0 <= i < Width local ->
       let norm := adhoc_l1_norm this agg_part_rels restriction local i in
       if PrimFloat.ltb norm 1e-3%float then
         In (ALERT_near_zero_ignoring norm) out /\ ~ In i accepted
       else
         In i accepted /\
         (PrimFloat.ltb norm 1e-1%float = true -> In (ALERT_accepting_small norm) out)) /\
    filled_cols this' = filled_cols this + Z.of_nat (length accepted) /\
    Width local' = Z.of_nat (length accepted) /\
    columns local' = map (filtered_column this agg_part_rels restriction local) accepted /\
    (forall r c, c < filled_cols this \/ filled_cols this' <= c ->
       sm_entries (tent_interp_ this') !! (r, c)
       = sm_entries (tent_interp_ this) !! (r, c)) /\
    ((forall j j', 0 <= j < Height local -> 0 <= j' < Height local ->
        restriction j = restriction j' -> j = j') ->
     forall (p : nat) i, accepted !! p = Some i ->
       forall j, 0 <= j < Height local ->
         sm_entries (tent_interp_ this') !! (restriction j, filled_cols this + Z.of_nat p)
         = Some (filtered_entry this agg_part_rels restriction j (Elem local j i))).
Proof.
  intros Hvects Hle accepted Hfits.
  destruct (contrib_tent_insert_from_local_run this agg_part_rels local restriction
              Hvects Hle) as [Hreturns _].
  destruct (Hreturns Hfits) as (this' & local' & out & Hrun & Hfc & _ & Hwidth & Hcols).
  fold accepted in Hfc, Hwidth, Hcols.
  destruct (insert_from_local_columns_verdicts this agg_part_rels local restriction
              indeterminate indeterminate) as (st & o & Hloop & Halerts & Hframe & Hstored);
    [lia | lia |].
  fold accepted in Hframe, Hstored.
  exists this', local', out. split; [done|].
  unfold contrib_tent_insert_from_local in Hrun. cbv zeta in Hrun.
  apply bind_Ok in Hrun as (u1 & o1 & o2 & [_ ->]%SA_ASSERT_Ok & Hrun & ->).
  apply bind_Ok in Hrun as (u2 & o3 & o4 & [_ ->]%SA_ASSERT_Ok & Hrun & ->).
  apply bind_Ok in Hrun as (st' & o5 & o6 & Hloop' & Hrun & ->).
  rewrite Hloop in Hloop'. injection Hloop' as <- <-.
  apply bind_Ok in Hrun as (u3 & o7 & o8 & [_ ->]%SA_ASSERT_Ok & Hrun & ->).
  injection Hrun as <- _ <-. simpl app. rewrite app_nil_r.
  cbn [tent_interp_ filled_cols set_tent] in *.
  assert (Hin : forall m, In m (List.filter is_norm_alert o) -> In m o)
    by (intros m Hm; by apply filter_In in Hm as [Hm _]).
  split_and!; try done.
  - intros i Hi. cbv zeta.
    assert (Halert : forall m,
              In m (column_norm_alert this agg_part_rels restriction local i) ->
              In m o).
    { intros m Hm. apply Hin. rewrite Halerts. unfold norm_alerts.
      apply in_flat_map. exists i. split; [by apply In_seqZ | done]. }
    unfold column_norm_alert in Halert. cbv zeta in Halert.
    unfold accepted, accepted_columns.
    destruct (PrimFloat.ltb (adhoc_l1_norm this agg_part_rels restriction local i) 0.001)
      eqn:Hnorm.
    + split; [apply Halert; by left|]. intros [_ Haccepted]%filter_In.
      unfold column_accepted in Haccepted. by rewrite Hnorm in Haccepted.
    + split.
      * apply filter_In. split; [by apply In_seqZ|].
        unfold column_accepted. by rewrite Hnorm.
      * intros Hsmall. rewrite Hsmall in Halert. apply Halert. by left.
  - intros r c Hc. apply Hframe. lia.
Qed.

(** X8. contrib_tent_insert_from_local returns when the matrix is at least
    as high as wide and the number of accepted columns (ad hoc norm not
    below 1e-3) is at most the largest number of kept entries of a column.
    It then advances [filled_cols] by
    the number of accepted columns and leaves in [local] the accepted
    columns, in their order, each with its zeroed entries: the width of
    [local] is the advance of [filled_cols]. *)
Theorem contrib_tent_insert_from_local_accepted (this : ContribTent)
    (agg_part_rels : agg_partitioning_relations_t) (local : DenseMatrix)
    (restriction : Z -> Z) :
  0 < Width local -> Width local <= Height local ->
  let accepted := accepted_columns this agg_part_rels restriction local in
  Z.of_nat (length accepted)
  <= bestcase_nonzerodofs this agg_part_rels restriction local ->
  exists this' local' out,
    contrib_tent_insert_from_local this agg_part_rels local restriction
    = Ok (this', local') out /\
    filled_cols this' = filled_cols this + Width local' /\
    0 <= Width local' <= Width local /\
    Height local' = Height local /\
    Width local' = Z.of_nat (length accepted) /\
    columns local'
    = map (filtered_column this agg_part_rels restriction local) accepted.
Proof.
  intros Hvects Hle accepted Hfits.
  destruct (contrib_tent_insert_from_local_run this agg_part_rels local restriction
              Hvects Hle) as [Hreturns _].
  destruct (Hreturns Hfits) as (this' & local' & out & Hrun & Hfc & HH & HW & Hcols).
  exists this', local', out. fold accepted in HW, Hfc, Hcols.
  split_and!; [done | lia | lia | | done | done | done].
  rewrite HW. unfold accepted, accepted_columns.
  pose proof (filter_length_le (column_accepted this agg_part_rels restriction local)
                (seqZ 0 (Width local))) as Hlen.
  rewrite length_seqZ in Hlen. lia.
Qed.

(** X9. contrib_tent_insert_from_local refuses a matrix with more accepted
    columns than any column has kept entries: when every column keeps at
    most B entries and more than B columns are accepted, the call fails by
    an assertion. *)
Theorem contrib_tent_insert_from_local_refuses (this : ContribTent)
    (agg_part_rels : agg_partitioning_relations_t) (local : DenseMatrix)
    (restriction : Z -> Z) (B : Z) :
  0 < Width local -> Width local <= Height local -> 0 <= B ->
  (forall i, 0 <= i < Width local ->
     nonzero_dofs this agg_part_rels restriction local i <= B) ->
  B < Z.of_nat (length (accepted_columns this agg_part_rels restriction local)) ->
  contrib_tent_insert_from_local this agg_part_rels local restriction
  = Fault AssertFailed.
Proof.
  intros Hvects Hle HB Hcount Hover.
  destruct (contrib_tent_insert_from_local_run this agg_part_rels local restriction
              Hvects Hle) as [_ Hfails].
  apply Hfails.
  assert (bestcase_nonzerodofs this agg_part_rels restriction local <= B); [|lia].
  unfold bestcase_nonzerodofs. apply fold_max_bound; [done|].
  intros i Hi%In_seqZ. by apply Hcount.
Qed.

(** ** The extensions, slot by slot *)

(** The run of [ExtendWithPolynomials] for a supported order. *)
Lemma ExtendWithPolynomials_run (PROC_RANK : Z)
    (agg_part_rels : agg_partitioning_relations_t) (received_mats : received_mats_t)
    (order spatial_dimension num_nodes : Z) (coords : Vector) :
  (forall mis, 0 <= mis < num_mises agg_part_rels ->
     mis_master agg_part_rels mis = PROC_RANK ->
     0 <= mises_size agg_part_rels mis /\
     slot_ok (received_mats mis) (mises_size agg_part_rels mis)) ->
  order = 0 \/ (order = 1 /\ 0 <= spatial_dimension) ->
  exists received_mats',
    ExtendWithPolynomials PROC_RANK received_mats agg_part_rels order
      spatial_dimension num_nodes coords = Ok received_mats' [] /\
    (forall mis, 0 <= mis < num_mises agg_part_rels ->
       mis_master agg_part_rels mis = PROC_RANK ->
       let old := slot_matrix (received_mats mis) (mises_size agg_part_rels mis) in
       exists arr',
         received_mats' mis = Some arr' /\
         Height (arr' 0) = mises_size agg_part_rels mis /\
         Width (arr' 0)
         = Width old + 1 + (if order =? 1 then spatial_dimension else 0) /\
         forall k j, 0 <= k < mises_size agg_part_rels mis ->
           Elem (arr' 0) k j
           = polynomial_entry old order spatial_dimension num_nodes coords
               (GetRow (mis_to_dof agg_part_rels) mis) k j) /\
    (forall mis, ~ (0 <= mis < num_mises agg_part_rels) \/
                 mis_master agg_part_rels mis <> PROC_RANK ->
       received_mats' mis = received_mats mis).
Proof.
  intros Hslots Horder. unfold ExtendWithPolynomials. cbv zeta.
  destruct (for_each_slot
    (extend_polynomials_mis PROC_RANK agg_part_rels order spatial_dimension
       num_nodes coords)
    (num_mises agg_part_rels)
    (fun mis slot slot' =>
       (mis_master agg_part_rels mis = PROC_RANK ->
        let old := slot_matrix slot (mises_size agg_part_rels mis) in
        exists arr',
          slot' = Some arr' /\
          Height (arr' 0) = mises_size agg_part_rels mis /\
          Width (arr' 0)
          = Width old + 1 + (if order =? 1 then spatial_dimension else 0) /\
          forall k j, 0 <= k < mises_size agg_part_rels mis ->
            Elem (arr' 0) k j
            = polynomial_entry old order spatial_dimension num_nodes coords
                (GetRow (mis_to_dof agg_part_rels) mis) k j) /\
       (mis_master agg_part_rels mis <> PROC_RANK -> slot' = slot))
    received_mats) as (mats' & Hloop & Hpost & Hframe).
  - intros mis m Hmis Hslot.
    destruct (decide (mis_master agg_part_rels mis = PROC_RANK)) as [Howner|Hforeign].
    + destruct (Hslots mis Hmis Howner) as [Hsize Hok].
      rewrite <- Hslot in Hok.
      destruct (extend_polynomials_mis_owned PROC_RANK agg_part_rels order
                  spatial_dimension num_nodes coords mis m Howner Hsize Hok Horder)
        as (arr' & Hrun & HH & HW & Hread).
      eexists. split; [exact Hrun|]. split; [split|].
      * intros _. exists arr'. rewrite fn_lookup_insert, <- Hslot. by split_and!.
      * done.
      * intros k Hk. by apply fn_lookup_insert_ne.
    + exists m. unfold extend_polynomials_mis. cbv zeta.
      replace (mis_master agg_part_rels mis =? PROC_RANK) with false by lia.
      split_and!; [done | done | by rewrite Hslot | done].
  - exists mats'. split_and!; [done | |].
    + intros mis Hmis Howner. by apply (Hpost mis Hmis).
    + intros mis [Hout|Hforeign]; [by apply Hframe|].
      destruct (decide (0 <= mis < num_mises agg_part_rels)) as [Hmis|Hout];
        [by apply (Hpost mis Hmis) | by apply Hframe].
Qed.

(** The run of [ExtendWithRBMs] for a supported dimension. *)
Lemma ExtendWithRBMs_run (PROC_RANK : Z)
    (agg_part_rels : agg_partitioning_relations_t) (received_mats : received_mats_t)
    (spatial_dimension num_nodes : Z) (coords : Vector) :
  (forall mis, 0 <= mis < num_mises agg_part_rels ->
     mis_master agg_part_rels mis = PROC_RANK ->
     0 <= mises_size agg_part_rels mis /\
     slot_ok (received_mats mis) (mises_size agg_part_rels mis)) ->
  spatial_dimension = 1 \/ spatial_dimension = 2 \/ spatial_dimension = 3 ->
  (forall mis, 0 <= mis < num_mises agg_part_rels ->
     mis_master agg_part_rels mis = PROC_RANK ->
     Z.rem (mises_size agg_part_rels mis) spatial_dimension = 0 /\
     forall node, 0 <= node < Z.quot (mises_size agg_part_rels mis) spatial_dimension ->
       node_num_of (GetRow (mis_to_dof agg_part_rels) mis) spatial_dimension node
       < num_nodes) ->
  exists received_mats',
    ExtendWithRBMs PROC_RANK received_mats agg_part_rels spatial_dimension
      num_nodes coords = Ok received_mats' [] /\
    (forall mis, 0 <= mis < num_mises agg_part_rels ->
       mis_master agg_part_rels mis = PROC_RANK ->
       let mis_size := mises_size agg_part_rels mis in
       let row := GetRow (mis_to_dof agg_part_rels) mis in
       let old := slot_matrix (received_mats mis) mis_size in
       exists arr',
         received_mats' mis = Some arr' /\
         Height (arr' 0) = mis_size /\
         Width (arr' 0) = Width old + rbm_count spatial_dimension /\
         forall node c j,
           0 <= node < Z.quot mis_size spatial_dimension ->
           0 <= c < spatial_dimension ->
           Elem (arr' 0) (node * spatial_dimension + c) j
           = if (0 <=? j) && (j <? Width old)
             then Elem old (node * spatial_dimension + c) j
             else if (Width old <=? j)
                     && (j <? Width old + rbm_count spatial_dimension)
             then rbm_value spatial_dimension
                    (node_coord coords num_nodes row spatial_dimension node 0)
                    (node_coord coords num_nodes row spatial_dimension node 1)
                    (node_coord coords num_nodes row spatial_dimension node 2)
                    c (j - Width old)
             else 0%float) /\
    (forall mis, ~ (0 <= mis < num_mises agg_part_rels) \/
                 mis_master agg_part_rels mis <> PROC_RANK ->
       received_mats' mis = received_mats mis).
Proof.
  intros Hslots Hsd Hnodes. unfold ExtendWithRBMs. cbv zeta.
  destruct (for_each_slot
    (extend_rbms_mis PROC_RANK agg_part_rels spatial_dimension num_nodes coords)
    (num_mises agg_part_rels)
    (fun mis slot slot' =>
       (mis_master agg_part_rels mis = PROC_RANK ->
        let mis_size := mises_size agg_part_rels mis in
        let row := GetRow (mis_to_dof agg_part_rels) mis in
        let old := slot_matrix slot mis_size in
        exists arr',
          slot' = Some arr' /\
          Height (arr' 0) = mis_size /\
          Width (arr' 0) = Width old + rbm_count spatial_dimension /\
          forall node c j,
            0 <= node < Z.quot mis_size spatial_dimension ->
            0 <= c < spatial_dimension ->
            Elem (arr' 0) (node * spatial_dimension + c) j
            = if (0 <=? j) && (j <? Width old)
              then Elem old (node * spatial_dimension + c) j
              else if (Width old <=? j)
                      && (j <? Width old + rbm_count spatial_dimension)
              then rbm_value spatial_dimension
                     (node_coord coords num_nodes row spatial_dimension node 0)
                     (node_coord coords num_nodes row spatial_dimension node 1)
                     (node_coord coords num_nodes row spatial_dimension node 2)
                     c (j - Width old)
              else 0%float) /\
       (mis_master agg_part_rels mis <> PROC_RANK -> slot' = slot))
    received_mats) as (mats' & Hloop & Hpost & Hframe).
  - intros mis m Hmis Hslot.
    destruct (decide (mis_master agg_part_rels mis = PROC_RANK)) as [Howner|Hforeign].
    + destruct (Hslots mis Hmis Howner) as [Hsize Hok].
      destruct (Hnodes mis Hmis Howner) as [Hrem Hnum].
      rewrite <- Hslot in Hok.
      destruct (extend_rbms_mis_owned PROC_RANK agg_part_rels spatial_dimension
                  num_nodes coords mis m Howner Hsize Hok Hsd Hrem Hnum)
        as (arr' & Hrun & HH & HW & Hread).
      eexists. split; [exact Hrun|]. split; [split|].
      * intros _. exists arr'. rewrite fn_lookup_insert, <- Hslot. by split_and!.
      * done.
      * intros k Hk. by apply fn_lookup_insert_ne.
    + exists m. unfold extend_rbms_mis. cbv zeta.
      replace (mis_master agg_part_rels mis =? PROC_RANK) with false by lia.
      split_and!; [done | done | by rewrite Hslot | done].
  - exists mats'. split_and!; [done | |].
    + intros mis Hmis Howner. by apply (Hpost mis Hmis).
    + intros mis [Hout|Hforeign]; [by apply Hframe|].
      destruct (decide (0 <= mis < num_mises agg_part_rels)) as [Hmis|Hout];
        [by apply (Hpost mis Hmis) | by apply Hframe].
Qed.

(** X10. ExtendWithConstants returns and prints nothing, whatever the
    storage of its dummy coordinates: every MIS that the rank owns gets one
    more column, identically 1.0, after its old columns (a NULL slot becomes
    a single column of ones), and every other slot is what it was. *)
Theorem ExtendWithConstants_appends_ones (PROC_RANK : Z)
    (agg_part_rels : agg_partitioning_relations_t) (received_mats : received_mats_t) :
  (forall mis, 0 <= mis < num_mises agg_part_rels ->
     mis_master agg_part_rels mis = PROC_RANK ->
     0 <= mises_size agg_part_rels mis /\
     slot_ok (received_mats mis) (mises_size agg_part_rels mis)) ->
  exists received_mats',
    ExtendWithConstants PROC_RANK received_mats agg_part_rels = Ok received_mats' [] /\
    (forall mis, 0 <= mis < num_mises agg_part_rels ->
       mis_master agg_part_rels mis = PROC_RANK ->
       let mis_size := mises_size agg_part_rels mis in
       let old := slot_matrix (received_mats mis) mis_size in
       exists arr',
         received_mats' mis = Some arr' /\
         Height (arr' 0) = mis_size /\
         Width (arr' 0) = Width old + 1 /\
         (received_mats mis = None -> Width (arr' 0) = 1) /\
         forall k, 0 <= k < mis_size ->
           Elem (arr' 0) k (Width old) = 1%float /\
           forall j, 0 <= j < Width old -> Elem (arr' 0) k j = Elem old k j) /\
    (forall mis, ~ (0 <= mis < num_mises agg_part_rels) \/
                 mis_master agg_part_rels mis <> PROC_RANK ->
       received_mats' mis = received_mats mis).
Proof.
  intros Hslots. unfold ExtendWithConstants. cbv zeta.
  destruct (ExtendWithPolynomials_run PROC_RANK agg_part_rels received_mats 0 (-1) (-1)
              (mkVector 0 indeterminate) Hslots) as (mats' & Hrun & Hpost & Hframe);
    [by left|].
  exists mats'. split_and!; [done | | done].
  intros mis Hmis Howner.
  destruct (Hpost mis Hmis Howner) as (arr' & Hslot' & HH & HW & Hread).
  destruct (Hslots mis Hmis Howner) as [Hsize [_ Hwidth]%slot_matrix_ok].
  cbv zeta in HW, Hread. simpl in HW.
  exists arr'. split_and!; [done | done | lia | |].
  - intros Hnull. rewrite HW, Hnull. simpl. lia.
  - intros k Hk. split.
    + rewrite Hread by done. unfold polynomial_entry. Z_tests.
    + intros j Hj. rewrite Hread by done. unfold polynomial_entry. Z_tests.
Qed.

(** X11. In one dimension the rigid body modes are the constants: when its
    assertions hold, ExtendWithRBMs with spatial dimension 1 gives every
    slot the sizes and the entries that ExtendWithConstants gives it. *)
Theorem ExtendWithRBMs_1d_is_ExtendWithConstants (PROC_RANK : Z)
    (agg_part_rels : agg_partitioning_relations_t) (received_mats : received_mats_t)
    (num_nodes : Z) (coords : Vector) :
  (forall mis, 0 <= mis < num_mises agg_part_rels ->
     mis_master agg_part_rels mis = PROC_RANK ->
     0 <= mises_size agg_part_rels mis /\
     slot_ok (received_mats mis) (mises_size agg_part_rels mis)) ->
  (forall mis k, 0 <= mis < num_mises agg_part_rels ->
     mis_master agg_part_rels mis = PROC_RANK ->
     0 <= k < mises_size agg_part_rels mis ->
     GetRow (mis_to_dof agg_part_rels) mis k < num_nodes) ->
  exists with_rbms with_constants,
    ExtendWithRBMs PROC_RANK received_mats agg_part_rels 1 num_nodes coords
    = Ok with_rbms [] /\
    ExtendWithConstants PROC_RANK received_mats agg_part_rels = Ok with_constants [] /\
    (forall mis, 0 <= mis < num_mises agg_part_rels ->
       mis_master agg_part_rels mis = PROC_RANK ->
       exists a b,
         with_rbms mis = Some a /\ with_constants mis = Some b /\
         Height (a 0) = Height (b 0) /\ Width (a 0) = Width (b 0) /\
         forall k j, 0 <= k < Height (a 0) -> 0 <= j < Width (a 0) ->
           Elem (a 0) k j = Elem (b 0) k j) /\
    (forall mis, ~ (0 <= mis < num_mises agg_part_rels) \/
                 mis_master agg_part_rels mis <> PROC_RANK ->
       with_rbms mis = with_constants mis).
Proof.
  intros Hslots Hdofs. unfold ExtendWithConstants. cbv zeta.
  destruct (ExtendWithPolynomials_run PROC_RANK agg_part_rels received_mats 0 (-1) (-1)
              (mkVector 0 indeterminate) Hslots) as (mats_c & Hrun_c & Hpost_c & Hframe_c);
    [by left|].
  destruct (ExtendWithRBMs_run PROC_RANK agg_part_rels received_mats 1 num_nodes coords
              Hslots) as (mats_r & Hrun_r & Hpost_r & Hframe_r); [by left | |].
  { intros mis Hmis Howner. split; [apply Z.rem_1_r|].
    intros node Hnode. rewrite Z.quot_1_r in Hnode. unfold node_num_of.
    rewrite Z.quot_1_r, Z.mul_1_r. by apply Hdofs. }
  exists mats_r, mats_c. split_and!; [done | done | |].
  - intros mis Hmis Howner.
    destruct (Hpost_c mis Hmis Howner) as (b & Hb & HHb & HWb & Hreadb).
    destruct (Hpost_r mis Hmis Howner) as (a & Ha & HHa & HWa & Hreada).
    destruct (Hslots mis Hmis Howner) as [Hsize [_ Hwidth]%slot_matrix_ok].
    cbv zeta in *. simpl in HWb. change (rbm_count 1) with 1 in *.
    exists a, b. split_and!; [done | done | congruence | lia |].
    intros k j Hk Hj. rewrite HHa in Hk.
    specialize (Hreada k 0 j). rewrite Z.quot_1_r, Z.mul_1_r, Z.add_0_r in Hreada.
    rewrite Hreada, Hreadb by lia. unfold polynomial_entry, rbm_value. Z_cases.
    all: try done; lia.
  - intros mis Hmis. by rewrite Hframe_c, Hframe_r.
Qed.

(** ** SVDInsert: the counts of coarse dofs *)

(** One iteration of the loop of SVDInsert: the count it records for its
    MIS is the width of the basis it records, and is what it adds to
    [filled_cols] and to [num_coarse_dofs]. *)
Lemma svd_insert_mis_count (PROC_RANK : Z) (agg_part_rels : agg_partitioning_relations_t)
    (row_sizes : Z -> Z) (scaling_P : bool) (mis : Z) (st st' : svd_state)
    (out : list message) :
  svd_insert_mis PROC_RANK agg_part_rels row_sizes scaling_P mis st = Ok st' out ->
  exists n M,
    mis_numcoarsedof (sv_this st') mis = Some n /\
    mis_tent_interps (sv_this st') mis = Some M /\
    Width M = n /\ 0 <= n /\
    sv_num_coarse_dofs st' = sv_num_coarse_dofs st + n /\
    filled_cols (sv_this st') = filled_cols (sv_this st) + n /\
    (mis_master agg_part_rels mis <> PROC_RANK ->
     n = 0 /\ M = DenseMatrix_empty /\
     sv_received_mats st' = sv_received_mats st /\
     tent_interp_ (sv_this st') = tent_interp_ (sv_this st) /\
     out = []).
Proof.
  unfold svd_insert_mis. cbv zeta.
  destruct (Z.eqb_spec (mis_master agg_part_rels mis) PROC_RANK) as [Howner|Hforeign].
  - destruct (sv_received_mats st mis) as [arr|] eqn:Hslot; [|discriminate].
    intros Hrun. bind_inv Hrun u Hassert. bind_inv Hrun skip Hskip.
    destruct skip.
    + injection Hrun as <- _. exists 0, (SetSize DenseMatrix_empty (Height (arr 0)) 0).
      simpl. rewrite !fn_lookup_insert. split_and!; try done; lia.
    + bind_inv Hrun reduced Hreduced.
      destruct reduced as [[[arr' lsvects] svals] [basis|]].
      * bind_inv Hrun u' Hfile. bind_inv Hrun inserted Hinsert.
        destruct inserted as [this' filled_cols_l].
        injection Hrun as <- _. simpl sv_this. simpl sv_num_coarse_dofs.
        destruct (insert_basis_fields _ _ _ _ _ _ _ _ Hinsert)
          as (-> & Hfc & _ & _ & Hinterps & Hnum & _).
        unfold insert_basis in Hinsert. bind_inv Hinsert this1 Hsimple.
        apply contrib_tent_insert_simple_inv in Hsimple as [Hpos _].
        exists (Width basis), basis. rewrite Hinterps, Hnum, Hfc. simpl.
        rewrite !fn_lookup_insert. split_and!; try done; lia.
      * injection Hrun as <- _. exists 0, (SetSize DenseMatrix_empty (Height (arr 0)) 0).
        simpl. rewrite !fn_lookup_insert. split_and!; try done; lia.
  - intros [= <- <-]. exists 0, DenseMatrix_empty. simpl.
    rewrite !fn_lookup_insert. split_and!; try done; lia.
Qed.

Lemma sum_counts_snoc (l : list Z) (x : Z) : sum_counts (l ++ [x]) = sum_counts l + x.
Proof. unfold sum_counts. induction l as [|y l IH]; simpl; lia. Qed.

(** X12. When SVDInsert reaches the collective call, every MIS of the
    rank has a count and a basis on record, the count being the width of the
    basis; the local [num_coarse_dofs] is the sum of these counts and is
    exactly what [filled_cols] has advanced by. *)
Theorem SVDInsert_counts (PROC_RANK : Z) (this : ContribTent)
    (agg_part_rels : agg_partitioning_relations_t) (received_mats : received_mats_t)
    (row_sizes : Z -> Z) (scaling_P : bool) (st : svd_state) (out : list message) :
  SVDInsert_local PROC_RANK this agg_part_rels received_mats row_sizes scaling_P
    = Ok st out ->
  filled_cols (sv_this st) = filled_cols this + sv_num_coarse_dofs st /\
  0 <= sv_num_coarse_dofs st /\
  sv_num_coarse_dofs st
  = sum_mis_numcoarsedof (sv_this st) (num_mises agg_part_rels) /\
  forall mis, 0 <= mis < num_mises agg_part_rels ->
    exists n M,
      mis_numcoarsedof (sv_this st) mis = Some n /\
      mis_tent_interps (sv_this st) mis = Some M /\
      Width M = n /\ 0 <= n.
Proof.
  unfold sum_mis_numcoarsedof. intros [_ Hloop]%SVDInsert_local_Ok.
  apply (for_upto_res_inv (fun k st =>
           0 <= k /\
           filled_cols (sv_this st) = filled_cols this + sv_num_coarse_dofs st /\
           0 <= sv_num_coarse_dofs st /\
           sv_num_coarse_dofs st
           = sum_counts (map (fun mis => default 0 (mis_numcoarsedof (sv_this st) mis))
                             (seqZ 0 k)) /\
           forall mis, 0 <= mis < k ->
             exists n M,
               mis_numcoarsedof (sv_this st) mis = Some n /\
               mis_tent_interps (sv_this st) mis = Some M /\
               Width M = n /\ 0 <= n)) in Hloop.
  - destruct Hloop as (_ & Hfc & Hpos & Hsum & Hall).
    destruct (Z.le_gt_cases 0 (num_mises agg_part_rels)) as [Hn|Hn].
    + rewrite Z.max_r in Hsum, Hall by done. by split_and!.
    + rewrite Z.max_l in Hsum by lia. split_and!; [done | done | | intros; lia].
      rewrite Hsum. unfold seqZ. by replace (Z.to_nat (num_mises agg_part_rels)) with O
        by lia.
  - simpl. split_and!; [done | lia | done | done | intros; lia].
  - intros k s s' o Hk (_ & Hfc & Hpos & Hsum & Hall) Hstep.
    destruct (svd_insert_mis_frame _ _ _ _ _ _ _ _ Hstep) as (_ & _ & _ & Hframe).
    destruct (svd_insert_mis_count _ _ _ _ _ _ _ _ Hstep)
      as (n & M & Hn & HM & HW & Hnpos & Hnum & Hfc' & _).
    split_and!; [lia | lia | lia | |].
    + rewrite seqZ_snoc, map_app by lia. simpl map. rewrite sum_counts_snoc.
      rewrite Hn. simpl default. rewrite Hnum, Hsum. f_equal. f_equal.
      apply map_ext_in. intros m Hm%In_seqZ.
      destruct (Hframe m) as (_ & -> & _); [lia | done].
    + intros m Hm. destruct (decide (m = k)) as [->|Hne].
      * by exists n, M.
      * destruct (Hframe m Hne) as (-> & -> & _). apply Hall. lia.
Qed.

(** X13. The loop of SVDInsert records, for every MIS that another rank
    owns, zero coarse dofs and an empty basis, and does not touch its slot
    of [received_mats]. On a rank that owns no MIS, and with a number of
    MISes that is not negative, the loop ends without printing and without
    touching the matrix under assembly: its [num_coarse_dofs] is 0. *)
Theorem SVDInsert_foreign_mis (PROC_RANK : Z) (this : ContribTent)
    (agg_part_rels : agg_partitioning_relations_t) (received_mats : received_mats_t)
    (row_sizes : Z -> Z) (scaling_P : bool) :
  (forall st out,
     SVDInsert_local PROC_RANK this agg_part_rels received_mats row_sizes scaling_P
       = Ok st out ->
     forall mis, 0 <= mis < num_mises agg_part_rels ->
       mis_master agg_part_rels mis <> PROC_RANK ->
       mis_numcoarsedof (sv_this st) mis = Some 0 /\
       mis_tent_interps (sv_this st) mis = Some DenseMatrix_empty /\
       sv_received_mats st mis = received_mats mis) /\
  (0 <= num_mises agg_part_rels ->
   (forall mis, 0 <= mis < num_mises agg_part_rels ->
      mis_master agg_part_rels mis <> PROC_RANK) ->
   exists st,
     SVDInsert_local PROC_RANK this agg_part_rels received_mats row_sizes scaling_P
       = Ok st [] /\
     sv_num_coarse_dofs st = 0 /\
     filled_cols (sv_this st) = filled_cols this /\
     tent_interp_ (sv_this st) = tent_interp_ this /\
     sv_received_mats st = received_mats).
Proof.
  split.
  - intros st out [_ Hloop]%SVDInsert_local_Ok mis Hmis Hforeign.
    apply (for_upto_res_inv (fun k st =>
             (mis < k ->
              mis_numcoarsedof (sv_this st) mis = Some 0 /\
              mis_tent_interps (sv_this st) mis = Some DenseMatrix_empty) /\
             sv_received_mats st mis = received_mats mis)) in Hloop.
    + destruct Hloop as [Hdone Hslot]. destruct Hdone; [lia|]. by split_and!.
    + split; [intros; lia | done].
    + intros k s s' o Hk [Hdone Hslot] Hstep.
      destruct (svd_insert_mis_frame _ _ _ _ _ _ _ _ Hstep) as (_ & _ & _ & Hframe).
      destruct (decide (mis = k)) as [->|Hne].
      * destruct (svd_insert_mis_count _ _ _ _ _ _ _ _ Hstep)
          as (n & M & Hn & HM & _ & _ & _ & _ & Hown).
        destruct (Hown Hforeign) as (-> & -> & -> & _). by split_and!.
      * destruct (Hframe mis Hne) as (-> & -> & ->). split; [|done].
        intros Hlt. apply Hdone. lia.
  - intros Hn Hnone. rewrite SVDInsert_local_nonneg by done.
    destruct (for_upto_res_ind (fun k st o =>
        o = [] /\ sv_num_coarse_dofs st = 0 /\
        filled_cols (sv_this st) = filled_cols this /\
        tent_interp_ (sv_this st) = tent_interp_ this /\
        sv_received_mats st = received_mats)
        (svd_insert_mis PROC_RANK agg_part_rels row_sizes scaling_P)
        (num_mises agg_part_rels)
        (mkSVD (new_mis_arrays this) received_mats DenseMatrix_empty
           (mkVector 0 indeterminate) 0) Hn)
      as (st & o & Hloop & -> & Hrest); [done | | by exists st].
    intros k s o Hk (-> & Hnum & Hfc & Htent & Hslots).
    unfold svd_insert_mis. cbv zeta.
    replace (mis_master agg_part_rels k =? PROC_RANK) with false
      by (specialize (Hnone k Hk); lia).
    eexists _, _. split; [reflexivity|]. by split_and!.
Qed.

(** ** SVDInsert: the numbering of the coarse dofs over the ranks *)

Lemma SVDInsert_local_advance (PROC_RANK : Z) (this : ContribTent)
    (agg_part_rels : agg_partitioning_relations_t) (received_mats : received_mats_t)
    (row_sizes : Z -> Z) (scaling_P : bool) (st : svd_state) (out : list message) :
  SVDInsert_local PROC_RANK this agg_part_rels received_mats row_sizes scaling_P
    = Ok st out ->
  filled_cols (sv_this st) = filled_cols this + sv_num_coarse_dofs st /\
  0 <= sv_num_coarse_dofs st.
Proof.
  intros [_ Hloop]%SVDInsert_local_Ok.
  apply (for_upto_res_inv (fun _ st =>
           filled_cols (sv_this st) = filled_cols this + sv_num_coarse_dofs st /\
           0 <= sv_num_coarse_dofs st)) in Hloop; [done | simpl; lia |].
  intros k s s' o _ [Hfc Hpos] Hstep.
  destruct (svd_insert_mis_count _ _ _ _ _ _ _ _ Hstep)
    as (n & M & _ & _ & _ & Hnpos & Hnum & Hfc' & _).
  lia.
Qed.

Lemma SVDInsert_locals_lookup (scaling_P : bool) (inputs : list rank_input) :
  forall (rank : Z) (sts : list svd_state) (out : list message),
    SVDInsert_locals rank inputs scaling_P = Ok sts out ->
    forall (r : nat) (input : rank_input) (st : svd_state),
      inputs !! r = Some input -> sts !! r = Some st ->
      exists o,
        SVDInsert_local (rank + Z.of_nat r) (ri_this input) (ri_agg_part_rels input)
          (ri_received_mats input) (ri_row_sizes input) scaling_P = Ok st o.
Proof.
  induction inputs as [|first higher IH]; intros rank sts out; simpl; [done|].
  intros (st0 & o1 & o2 & Hfirst & Hrest & _)%bind_Ok.
  apply bind_Ok in Hrest as (sts' & o3 & o4 & Hhigher & [= <- _] & _).
  intros [|r] input st; simpl.
  - intros [= <-] [= <-]. exists o1. by rewrite Z.add_0_r.
  - intros Hinput Hst. destruct (IH _ _ _ Hhigher r input st Hinput Hst) as (o & Hrun).
    exists o. rewrite <- Hrun. f_equal. lia.
Qed.

(** X14. After SVDInsert on all ranks, each started on a fresh object, the
    coarse dofs are numbered without gap or overlap: rank 0 starts at 0, and
    every rank starts where the rank before it ends, that is at the offset
    of that rank plus its [filled_cols]. *)
Theorem SVDInsert_offsets_contiguous (inputs : list rank_input) (scaling_P : bool)
    (thiss : list ContribTent) (out : list message) :
  SVDInsert inputs scaling_P = Ok thiss out ->
  (forall input, In input inputs -> filled_cols (ri_this input) = 0) ->
  (forall this, thiss !! 0%nat = Some this -> coarse_truedof_offset this = Some 0) /\
  (forall (r : nat) this next,
     thiss !! r = Some this -> thiss !! Datatypes.S r = Some next ->
     0 <= filled_cols this /\
     exists offset,
       coarse_truedof_offset this = Some offset /\
       coarse_truedof_offset next = Some (offset + filled_cols this)).
Proof.
  unfold SVDInsert. intros (sts & o1 & o2 & Hlocals & Hoffsets & _)%bind_Ok Hfresh.
  cbv zeta in Hoffsets.
  destruct (SVDInsert_offsets_exclusive (Z.of_nat (length inputs)) sts 0 0)
    as (thiss' & o' & Hrun & Hlen & Hlookup).
  unfold MPI_Scan_SUM in Hoffsets. rewrite Hrun in Hoffsets.
  injection Hoffsets as -> _.
  pose proof (SVDInsert_locals_length _ _ _ _ _ Hlocals) as Hlen'.
  assert (Hst : forall (r : nat) this, thiss !! r = Some this ->
            exists st, sts !! r = Some st /\
              this = set_coarse_truedof_offset (sv_this st)
                       (0 + sum_counts (take r (map sv_num_coarse_dofs sts))) /\
              filled_cols (sv_this st) = sv_num_coarse_dofs st /\
              0 <= sv_num_coarse_dofs st).
  { intros r this Hthis.
    destruct (sts !! r) as [st|] eqn:Hr.
    - exists st. rewrite (Hlookup r st Hr) in Hthis. injection Hthis as <-.
      split_and!; [done | done | |].
      all: destruct (inputs !! r) as [input|] eqn:Hinput;
        [|apply lookup_ge_None in Hinput; apply lookup_lt_Some in Hr; lia].
      all: destruct (SVDInsert_locals_lookup _ _ _ _ _ Hlocals r input st Hinput Hr)
        as (o & Hlocal).
      all: destruct (SVDInsert_local_advance _ _ _ _ _ _ _ _ Hlocal) as [Hfc Hpos].
      all: rewrite (Hfresh input) in Hfc
        by (by apply list_elem_of_In, list_elem_of_lookup_2 with r).
      all: lia.
    - apply lookup_ge_None in Hr. apply lookup_lt_Some in Hthis. lia. }
  split.
  - intros this Hthis. destruct (Hst 0%nat this Hthis) as (st & _ & -> & _). done.
  - intros r this next Hthis Hnext.
    destruct (Hst r this Hthis) as (st & Hr & -> & Hfc & Hpos).
    destruct (Hst (Datatypes.S r) next Hnext) as (st' & _ & -> & _).
    simpl. split; [lia|]. eexists. split; [reflexivity|]. f_equal.
    rewrite (take_S_r _ _ (sv_num_coarse_dofs st)), sum_counts_snoc; [lia|].
    change (map sv_num_coarse_dofs sts) with (sv_num_coarse_dofs <$> sts).
    by rewrite list_lookup_fmap, Hr.
Qed.

(** ** SVDInsert: the MISes that get no coarse dof *)

Lemma find_interior_dof_none (this : ContribTent)
    (agg_part_rels : agg_partitioning_relations_t) (row : Z -> Z) (n : nat) :
  forall j0,
    (forall j, j0 <= j < j0 + Z.of_nat n ->
       row j < rows this /\ agg_is_dof_on_essential_border agg_part_rels (row j) = true) ->
    find_interior_dof this agg_part_rels row n j0 = Ok false [].
Proof.
  induction n as [|n IH]; intros j0 Hall; simpl; [done|].
  destruct (Hall j0) as [Hrow Hborder]; [lia|].
  replace (row j0 <? rows this) with true by lia. rewrite Hborder. simpl.
  rewrite IH; [done|]. intros j Hj. apply Hall. lia.
Qed.

(** The iteration of SVDInsert on an owned MIS whose dofs are all on the
    essential boundary. *)
Lemma svd_insert_mis_on_boundary (PROC_RANK : Z)
    (agg_part_rels : agg_partitioning_relations_t) (row_sizes : Z -> Z)
    (scaling_P : bool) (mis : Z) (arr : Z -> DenseMatrix) (st : svd_state) :
  mis_master agg_part_rels mis = PROC_RANK ->
  sv_received_mats st mis = Some arr ->
  Height (arr 0) = mises_size agg_part_rels mis ->
  avoid_ess_bdr_dofs (sv_this st) = true ->
  (forall j, 0 <= j < mises_size agg_part_rels mis ->
     GetRow (mis_to_dof agg_part_rels) mis j < rows (sv_this st) /\
     agg_is_dof_on_essential_border agg_part_rels
       (GetRow (mis_to_dof agg_part_rels) mis j) = true) ->
  exists st',
    svd_insert_mis PROC_RANK agg_part_rels row_sizes scaling_P mis st
    = Ok st' (if SA_IS_OUTPUT_LEVEL 6
              then [ALERT_all_dofs_on_ess_boundary (Width (arr 0))
                      (mises_size agg_part_rels mis)]
              else []) /\
    mis_numcoarsedof (sv_this st') mis = Some 0 /\
    mis_tent_interps (sv_this st') mis
    = Some (SetSize DenseMatrix_empty (mises_size agg_part_rels mis) 0) /\
    sv_num_coarse_dofs st' = sv_num_coarse_dofs st /\
    filled_cols (sv_this st') = filled_cols (sv_this st) /\
    tent_interp_ (sv_this st') = tent_interp_ (sv_this st).
Proof.
  intros Howner Hslot Hheight Havoid Hall.
  unfold svd_insert_mis. cbv zeta.
  rewrite Howner, Z.eqb_refl, Hslot, Hheight, Z.eqb_refl.
  unfold SA_ASSERT at 1, bind at 1, ret.
  unfold all_dofs_on_boundary. cbn [avoid_ess_bdr_dofs set_mis_tent_interp].
  rewrite Havoid.
  rewrite find_interior_dof_none.
  - unfold bind at 2. cbn [negb]. rewrite when_Ok. unfold bind, ret.
    eexists. split; [by rewrite !app_nil_r|]. simpl.
    by rewrite !fn_lookup_insert.
  - intros j Hj. cbn [rows]. apply Hall. lia.
Qed.

(** X15. With the avoid-boundary option, SVDInsert gives an owned MIS
    whose dofs are all on the essential boundary no coarse dof, whatever
    its size and the matrices received for it: the iteration returns, prints
    at most the alert of output level 6, inserts nothing and records a basis
    of width 0; the record stands when SVDInsert reaches the collective
    call. *)
Theorem SVDInsert_skips_boundary_mis (PROC_RANK : Z) (this : ContribTent)
    (agg_part_rels : agg_partitioning_relations_t) (received_mats : received_mats_t)
    (row_sizes : Z -> Z) (scaling_P : bool) (mis : Z) (arr : Z -> DenseMatrix) :
  0 <= mis < num_mises agg_part_rels ->
  mis_master agg_part_rels mis = PROC_RANK ->
  received_mats mis = Some arr ->
  Height (arr 0) = mises_size agg_part_rels mis ->
  avoid_ess_bdr_dofs this = true ->
  (forall j, 0 <= j < mises_size agg_part_rels mis ->
     GetRow (mis_to_dof agg_part_rels) mis j < rows this /\
     agg_is_dof_on_essential_border agg_part_rels
       (GetRow (mis_to_dof agg_part_rels) mis j) = true) ->
  (forall st,
     sv_received_mats st mis = Some arr ->
     avoid_ess_bdr_dofs (sv_this st) = true ->
     rows (sv_this st) = rows this ->
     exists st',
       svd_insert_mis PROC_RANK agg_part_rels row_sizes scaling_P mis st
       = Ok st' (if SA_IS_OUTPUT_LEVEL 6
                 then [ALERT_all_dofs_on_ess_boundary (Width (arr 0))
                         (mises_size agg_part_rels mis)]
                 else []) /\
       sv_num_coarse_dofs st' = sv_num_coarse_dofs st /\
       filled_cols (sv_this st') = filled_cols (sv_this st) /\
       tent_interp_ (sv_this st') = tent_interp_ (sv_this st)) /\
  (forall st out,
     SVDInsert_local PROC_RANK this agg_part_rels received_mats row_sizes scaling_P
       = Ok st out ->
     mis_numcoarsedof (sv_this st) mis = Some 0 /\
     exists basis,
       mis_tent_interps (sv_this st) mis = Some basis /\
       Height basis = mises_size agg_part_rels mis /\ Width basis = 0).
Proof.
  intros Hmis Howner Hslot Hheight Havoid Hall. split.
  - intros st Hslot' Havoid' Hrows.
    destruct (svd_insert_mis_on_boundary PROC_RANK agg_part_rels row_sizes scaling_P
                mis arr st Howner Hslot' Hheight Havoid')
      as (st' & Hrun & _ & _ & Hnum & Hfc & Htent).
    { intros j Hj. rewrite Hrows. by apply Hall. }
    by exists st'.
  - intros st out [_ Hloop]%SVDInsert_local_Ok.
    apply (for_upto_res_inv (fun k st =>
             rows (sv_this st) = rows this /\
             avoid_ess_bdr_dofs (sv_this st) = true /\
             (k <= mis -> sv_received_mats st mis = Some arr) /\
             (mis < k ->
              mis_numcoarsedof (sv_this st) mis = Some 0 /\
              mis_tent_interps (sv_this st) mis
              = Some (SetSize DenseMatrix_empty (mises_size agg_part_rels mis) 0))))
      in Hloop.
    + destruct Hloop as (_ & _ & _ & Hdone). destruct Hdone as [Hnum Hbasis]; [lia|].
      split; [done|]. by eexists.
    + simpl. split_and!; [done | done | done | intros; lia].
    + intros k s s' o Hk (Hrows & Havoid' & Hbefore & Hafter) Hstep.
      destruct (svd_insert_mis_frame _ _ _ _ _ _ _ _ Hstep)
        as (Hrows' & Havoid'' & _ & Hframe).
      split_and!; [congruence | congruence | |].
      * intros Hle. destruct (Hframe mis) as (_ & _ & ->); [lia|]. apply Hbefore. lia.
      * intros Hlt. destruct (decide (mis = k)) as [->|Hne].
        -- destruct (svd_insert_mis_on_boundary PROC_RANK agg_part_rels row_sizes
                       scaling_P k arr s Howner) as (st' & Hrun & Hnum & Hbasis & _);
             [apply Hbefore; lia | done | done | |].
           { intros j Hj. rewrite Hrows. by apply Hall. }
           rewrite Hrun in Hstep. by injection Hstep as <- _.
        -- destruct (Hframe mis Hne) as (-> & -> & _). apply Hafter. lia.
Qed.

Lemma find_interior_dof_some (this : ContribTent)
    (agg_part_rels : agg_partitioning_relations_t) (row : Z -> Z) (n : nat) :
  forall j0 j1,
    j0 <= j1 < j0 + Z.of_nat n ->
    agg_is_dof_on_essential_border agg_part_rels (row j1) = false ->
    (forall j, j0 <= j <= j1 -> row j < rows this) ->
    find_interior_dof this agg_part_rels row n j0 = Ok true [].
Proof.
  induction n as [|n IH]; intros j0 j1 Hj1 Hinterior Hrows; simpl; [lia|].
  replace (row j0 <? rows this) with true by (specialize (Hrows j0); lia).
  unfold SA_ASSERT, bind at 1, ret.
  destruct (agg_is_dof_on_essential_border agg_part_rels (row j0)) eqn:Hborder;
    simpl; [|done].
  assert (j0 <> j1) by (intros ->; congruence).
  rewrite (IH (j0 + 1) j1); [done | lia | done |]. intros j Hj. apply Hrows. lia.
Qed.

Lemma filter_none {A : Type} (f : A -> bool) (l : list A) :
  (forall x, In x l -> f x = false) -> List.filter f l = [].
Proof.
  induction l as [|x l IH]; simpl; [done|]. intros Hnone.
  rewrite (Hnone x) by (by left). apply IH. intros y Hy. apply Hnone. by right.
Qed.

(** The loop over the received matrices of a MIS when the filter drops
    every column of every one of them. *)
Lemma filter_received_all_dropped (this : ContribTent)
    (agg_part_rels : agg_partitioning_relations_t) (mis row_size : Z)
    (arr : Z -> DenseMatrix) :
  0 <= row_size ->
  (forall q, 0 <= q < row_size ->
     0 < Width (arr q) /\ 0 <= Height (arr q) /\
     forall i, 0 <= i < Width (arr q) ->
       column_survives this agg_part_rels (GetRow (mis_to_dof agg_part_rels) mis)
         (arr q) i = false) ->
  exists arr' out,
    filter_received this agg_part_rels mis row_size arr = Ok (arr', 0) out /\
    forall q, 0 <= q < row_size -> Width (arr' q) = 0.
Proof.
  intros Hsize Hdropped. unfold filter_received.
  destruct (for_upto_res_ind (fun k (p : (Z -> DenseMatrix) * Z) (o : list message) =>
      p.2 = 0 /\
      (forall q, 0 <= q < k -> Width (p.1 q) = 0) /\
      (forall q, k <= q -> p.1 q = arr q))
      (fun q '(arr, total_num_columns) =>
         filtered <- contrib_filter_boundary this agg_part_rels (arr q)
                       (GetRow (mis_to_dof agg_part_rels) mis) ;;
         ret (<[ q := filtered ]> arr, total_num_columns + Width filtered))
      row_size (arr, 0) Hsize)
    as ([arr' total] & out & Hloop & Htotal & Hwidths & _).
  - simpl. split_and!; [done | intros; lia | done].
  - intros k [a total] o Hk (Htotal & Hwidths & Hrest). cbn [fst snd] in *.
    destruct (Hdropped k Hk) as (Hpos & Hdim & Hnone).
    rewrite Hrest by lia.
    destruct (contrib_filter_boundary_run this agg_part_rels (arr k)
                (GetRow (mis_to_dof agg_part_rels) mis) Hpos Hdim)
      as (filtered & o' & Hrun & _ & HW & _).
    rewrite Hrun. unfold bind, ret. eexists (_, _), _. split; [reflexivity|].
    cbn [fst snd].
    assert (HW0 : Width filtered = 0).
    { rewrite HW. unfold surviving_columns. rewrite filter_none; [done|].
      intros i Hi%In_seqZ. by apply Hnone. }
    split_and!; [lia | |].
    + intros q Hq. destruct (decide (k = q)) as [<-|Hne].
      * by rewrite fn_lookup_insert.
      * rewrite fn_lookup_insert_ne by done. apply Hwidths. lia.
    + intros q Hq. rewrite fn_lookup_insert_ne by lia. apply Hrest. lia.
  - cbn [fst snd] in *. subst total. by exists arr', out.
Qed.

(** The iteration of SVDInsert on an owned MIS whose received matrices
    lose every column to the filter. *)
Lemma svd_insert_mis_zero_contribution (PROC_RANK : Z)
    (agg_part_rels : agg_partitioning_relations_t) (row_sizes : Z -> Z)
    (scaling_P : bool) (mis : Z) (arr : Z -> DenseMatrix) (st : svd_state) :
  let row := GetRow (mis_to_dof agg_part_rels) mis in
  let dim := mises_size agg_part_rels mis in
  mis_master agg_part_rels mis = PROC_RANK ->
  sv_received_mats st mis = Some arr ->
  Height (arr 0) = dim -> dim <> 1 -> 0 <= row_sizes mis ->
  (avoid_ess_bdr_dofs (sv_this st) = false \/
   exists j1, 0 <= j1 < dim /\
     agg_is_dof_on_essential_border agg_part_rels (row j1) = false /\
     forall j, 0 <= j <= j1 -> row j < rows (sv_this st)) ->
  (forall q, 0 <= q < row_sizes mis ->
     0 < Width (arr q) /\ 0 <= Height (arr q) /\
     forall i, 0 <= i < Width (arr q) ->
       column_survives (sv_this st) agg_part_rels row (arr q) i = false) ->
  exists st' alerts,
    svd_insert_mis PROC_RANK agg_part_rels row_sizes scaling_P mis st
    = Ok st' (alerts ++ [WARN_zero_contribution mis;
                         WARN_dim_row_size dim (row_sizes mis)]) /\
    mis_numcoarsedof (sv_this st') mis = Some 0 /\
    mis_tent_interps (sv_this st') mis = Some (SetSize DenseMatrix_empty dim 0) /\
    sv_num_coarse_dofs st' = sv_num_coarse_dofs st /\
    filled_cols (sv_this st') = filled_cols (sv_this st) /\
    tent_interp_ (sv_this st') = tent_interp_ (sv_this st).
Proof.
  intros row dim Howner Hslot Hheight Hdim Hsize Hinterior Hdropped.
  unfold svd_insert_mis. cbv zeta.
  rewrite Howner, Z.eqb_refl, Hslot, Hheight. fold dim. rewrite Z.eqb_refl.
  unfold SA_ASSERT at 1, bind at 1, ret.
  set (this1 := set_mis_tent_interp (sv_this st) mis DenseMatrix_empty).
  assert (Hskip : all_dofs_on_boundary this1 agg_part_rels mis arr dim = Ok false []).
  { unfold all_dofs_on_boundary. cbn [avoid_ess_bdr_dofs this1 set_mis_tent_interp].
    destruct (avoid_ess_bdr_dofs (sv_this st)) eqn:Havoid; [|done].
    destruct Hinterior as [|(j1 & Hj1 & Hfree & Hrows)]; [done|].
    fold row. rewrite (find_interior_dof_some this1 agg_part_rels row _ 0 j1);
      [done | lia | done | done]. }
  rewrite Hskip. unfold bind at 1.
  replace (dim =? 1) with false by lia.
  unfold svd_basis.
  destruct (filter_received_all_dropped this1 agg_part_rels mis (row_sizes mis) arr
              Hsize) as (arr' & alerts & Hfilter & _).
  { intros q Hq. destruct (Hdropped q Hq) as (Hpos & Hheight' & Hnone).
    split_and!; [done | done |]. intros i Hi. by apply Hnone. }
  rewrite Hfilter. unfold bind at 2. rewrite Z.eqb_refl. cbn [Size]. rewrite Z.eqb_refl.
  unfold SA_PRINTF, bind, ret. eexists _, alerts. split; [by rewrite !app_nil_r|].
  simpl. by rewrite !fn_lookup_insert.
Qed.

(** X16. SVDInsert gives an owned MIS of more than one dof no coarse dof,
    and does not fail, when the filter drops every column of every matrix
    received for it (all entries exactly zero or at boundary dofs): after
    the alerts of the filter it prints the two warnings of a zero
    contribution, records a basis of width 0 and inserts nothing; the
    decomposition is not consulted. The record stands when SVDInsert reaches
    the collective call. *)
Theorem SVDInsert_zero_contribution (PROC_RANK : Z) (this : ContribTent)
    (agg_part_rels : agg_partitioning_relations_t) (received_mats : received_mats_t)
    (row_sizes : Z -> Z) (scaling_P : bool) (mis : Z) (arr : Z -> DenseMatrix) :
  let row := GetRow (mis_to_dof agg_part_rels) mis in
  let dim := mises_size agg_part_rels mis in
  0 <= mis < num_mises agg_part_rels ->
  mis_master agg_part_rels mis = PROC_RANK ->
  received_mats mis = Some arr ->
  Height (arr 0) = dim -> dim <> 1 -> 0 <= row_sizes mis ->
  (avoid_ess_bdr_dofs this = false \/
   exists j1, 0 <= j1 < dim /\
     agg_is_dof_on_essential_border agg_part_rels (row j1) = false /\
     forall j, 0 <= j <= j1 -> row j < rows this) ->
  (forall q i, 0 <= q < row_sizes mis -> 0 <= i < Width (arr q) ->
     column_survives this agg_part_rels row (arr q) i = false) ->
  (forall q, 0 <= q < row_sizes mis -> 0 < Width (arr q) /\ 0 <= Height (arr q)) ->
  (forall st,
     sv_received_mats st mis = Some arr ->
     avoid_ess_bdr_dofs (sv_this st) = avoid_ess_bdr_dofs this ->
     rows (sv_this st) = rows this ->
     exists st' alerts,
       svd_insert_mis PROC_RANK agg_part_rels row_sizes scaling_P mis st
       = Ok st' (alerts ++ [WARN_zero_contribution mis;
                            WARN_dim_row_size dim (row_sizes mis)]) /\
       sv_num_coarse_dofs st' = sv_num_coarse_dofs st /\
       filled_cols (sv_this st') = filled_cols (sv_this st) /\
       tent_interp_ (sv_this st') = tent_interp_ (sv_this st)) /\
  (forall st out,
     SVDInsert_local PROC_RANK this agg_part_rels received_mats row_sizes scaling_P
       = Ok st out ->
     mis_numcoarsedof (sv_this st) mis = Some 0 /\
     exists basis,
       mis_tent_interps (sv_this st) mis = Some basis /\
       Height basis = dim /\ Width basis = 0).
Proof.
  intros row dim Hmis Howner Hslot Hheight Hdim Hsize Hinterior Hdropped Hshape.
  assert (Hiter : forall st,
    sv_received_mats st mis = Some arr ->
    avoid_ess_bdr_dofs (sv_this st) = avoid_ess_bdr_dofs this ->
    rows (sv_this st) = rows this ->
    exists st' alerts,
      svd_insert_mis PROC_RANK agg_part_rels row_sizes scaling_P mis st
      = Ok st' (alerts ++ [WARN_zero_contribution mis;
                           WARN_dim_row_size dim (row_sizes mis)]) /\
      mis_numcoarsedof (sv_this st') mis = Some 0 /\
      mis_tent_interps (sv_this st') mis = Some (SetSize DenseMatrix_empty dim 0) /\
      sv_num_coarse_dofs st' = sv_num_coarse_dofs st /\
      filled_cols (sv_this st') = filled_cols (sv_this st) /\
      tent_interp_ (sv_this st') = tent_interp_ (sv_this st)).
  { intros st Hslot' Havoid Hrows.
    apply (svd_insert_mis_zero_contribution PROC_RANK agg_part_rels row_sizes
             scaling_P mis arr st Howner Hslot' Hheight Hdim Hsize).
    - rewrite Havoid, Hrows. exact Hinterior.
    - intros q Hq. destruct (Hshape q Hq) as [Hpos Hheight'].
      split_and!; [done | done |]. intros i Hi.
      rewrite <- (Hdropped q i Hq Hi). unfold column_survives.
      apply existsb_pointwise. intros j. unfold entry_is_filtered. by rewrite Havoid. }
  split.
  - intros st Hslot' Havoid Hrows.
    destruct (Hiter st Hslot' Havoid Hrows)
      as (st' & alerts & Hrun & _ & _ & Hnum & Hfc & Htent).
    by exists st', alerts.
  - intros st out [_ Hloop]%SVDInsert_local_Ok.
    apply (for_upto_res_inv (fun k st =>
             rows (sv_this st) = rows this /\
             avoid_ess_bdr_dofs (sv_this st) = avoid_ess_bdr_dofs this /\
             (k <= mis -> sv_received_mats st mis = Some arr) /\
             (mis < k ->
              mis_numcoarsedof (sv_this st) mis = Some 0 /\
              mis_tent_interps (sv_this st) mis
              = Some (SetSize DenseMatrix_empty dim 0)))) in Hloop.
    + destruct Hloop as (_ & _ & _ & Hdone). destruct Hdone as [Hnum Hbasis]; [lia|].
      split; [done|]. by eexists.
    + simpl. split_and!; [done | done | done | intros; lia].
    + intros k s s' o Hk (Hrows & Havoid & Hbefore & Hafter) Hstep.
      destruct (svd_insert_mis_frame _ _ _ _ _ _ _ _ Hstep)
        as (Hrows' & Havoid' & _ & Hframe).
      split_and!; [congruence | congruence | |].
      * intros Hle. destruct (Hframe mis) as (_ & _ & ->); [lia|]. apply Hbefore. lia.
      * intros Hlt. destruct (decide (mis = k)) as [->|Hne].
        -- destruct (Hiter s) as (st' & alerts & Hrun & Hnum & Hbasis & _);
             [apply Hbefore; lia | done | done |].
           rewrite Hrun in Hstep. by injection Hstep as <- _.
        -- destruct (Hframe mis Hne) as (-> & -> & _). apply Hafter. lia.
Qed.

(** ** How the routines fail *)

Lemma bind_Fault {A B : Type} (m : result A) (k : A -> result B) (f : fault) :
  bind m k = Fault f ->
  m = Fault f \/ exists a o, m = Ok a o /\ k a = Fault f.
Proof.
  unfold bind. destruct m as [a o|f']; [|intros [= ->]; by left].
  destruct (k a) as [b o'|f'] eqn:Hk; [discriminate|]. intros [= ->]. right. eauto.
Qed.

Lemma SA_ASSERT_Fault (c : bool) (f : fault) : SA_ASSERT c = Fault f -> f = AssertFailed.
Proof. destruct c; [discriminate | by intros [= <-]]. Qed.

Lemma for_res_Fault {S : Type} (P : Z -> S -> Prop) (body : Z -> S -> result S)
    (f : fault) (n : nat) :
  forall (i : Z) (s : S),
    P i s ->
    (forall k s s' o, i <= k < i + Z.of_nat n -> P k s -> body k s = Ok s' o ->
       P (k + 1) s') ->
    for_res n i body s = Fault f ->
    exists k s', i <= k < i + Z.of_nat n /\ P k s' /\ body k s' = Fault f.
Proof.
  induction n as [|n IH]; intros i s Hs Hstep; simpl for_res; [discriminate|].
  intros [Hfirst|(s1 & o1 & Hfirst & Hrest)]%bind_Fault.
  - exists i, s. split_and!; [lia | lia | done | done].
  - destruct (IH (i + 1) s1) as (k & s' & Hk & Hs' & Hfault); [| |done|].
    + apply (Hstep i s s1 o1); [lia | done | done].
    + intros k t t' o Hk. apply Hstep. lia.
    + exists k, s'. split_and!; [lia | lia | done | done].
Qed.

Lemma for_upto_res_Fault {S : Type} (P : Z -> S -> Prop) (body : Z -> S -> result S)
    (f : fault) (hi : Z) (s : S) :
  P 0 s ->
  (forall k s s' o, 0 <= k < hi -> P k s -> body k s = Ok s' o -> P (k + 1) s') ->
  for_upto_res hi body s = Fault f ->
  exists k s', 0 <= k < hi /\ P k s' /\ body k s' = Fault f.
Proof.
  intros Hs Hstep Hfault.
  destruct (for_res_Fault P body f (Z.to_nat hi) 0 s Hs) as (k & s' & Hk & Hrest);
    [| done |].
  - intros k t t' o Hk. apply Hstep. lia.
  - exists k, s'. split; [lia | done].
Qed.

Lemma contrib_filter_boundary_Fault (this : ContribTent)
    (agg_part_rels : agg_partitioning_relations_t) (local : DenseMatrix)
    (restriction : Z -> Z) (f : fault) :
  contrib_filter_boundary this agg_part_rels local restriction = Fault f ->
  f = AssertFailed.
Proof.
  unfold contrib_filter_boundary. cbv zeta.
  intros [Hassert|(u & o & _ & Hrest)]%bind_Fault; [by apply SA_ASSERT_Fault in Hassert|].
  apply bind_Fault in Hrest as [Hloop|(st & o' & _ & Hret)]; [|discriminate].
  apply (for_upto_res_Fault (fun _ _ => True)) in Hloop
    as (i & s & _ & _ & Hcolumn); [|done|done].
  unfold filter_column in Hcolumn. cbv zeta in Hcolumn.
  apply bind_Fault in Hcolumn as [Hscan|(scan & o' & _ & Hstore)].
  - apply (for_upto_res_Fault (fun _ _ => True)) in Hscan
      as (j & t & _ & _ & Hentry); [|done|done].
    unfold filter_entry in Hentry. cbv zeta in Hentry.
    apply bind_Fault in Hentry as [Hassert|(u' & o'' & _ & Hentry)];
      [by apply SA_ASSERT_Fault in Hassert|].
    destruct (entry_is_filtered _ _ _ _); [|discriminate].
    apply bind_Fault in Hentry as [Hprint|(? & ? & _ & ?)]; [|discriminate].
    by rewrite when_Ok in Hprint.
  - destruct (atleastone scan); [discriminate|].
    apply bind_Fault in Hstore as [?|(? & ? & _ & ?)]; discriminate.
Qed.

Lemma contrib_tent_insert_simple_Fault (this : ContribTent)
    (agg_part_rels : agg_partitioning_relations_t) (local : DenseMatrix)
    (restriction : Z -> Z) (f : fault) :
  contrib_tent_insert_simple this agg_part_rels local restriction = Fault f ->
  f = AssertFailed.
Proof.
  unfold contrib_tent_insert_simple. cbv zeta.
  intros [Hassert|(u & o & _ & Hrest)]%bind_Fault; [by apply SA_ASSERT_Fault in Hassert|].
  apply bind_Fault in Hrest as [Hassert|(u' & o' & _ & Hret)];
    [by apply SA_ASSERT_Fault in Hassert | discriminate].
Qed.

Lemma find_interior_dof_Fault (this : ContribTent)
    (agg_part_rels : agg_partitioning_relations_t) (row : Z -> Z) (f : fault) (n : nat) :
  forall j, find_interior_dof this agg_part_rels row n j = Fault f -> f = AssertFailed.
Proof.
  induction n as [|n IH]; intros j; simpl; [discriminate|].
  intros [Hassert|(u & o & _ & Hrest)]%bind_Fault; [by apply SA_ASSERT_Fault in Hassert|].
  destruct (negb _); [discriminate | by apply IH in Hrest].
Qed.

(** A fault of one iteration of the loop of SVDInsert is a failed
    assertion, or the NULL slot of an owned MIS. *)
Lemma svd_insert_mis_Fault (PROC_RANK : Z) (agg_part_rels : agg_partitioning_relations_t)
    (row_sizes : Z -> Z) (scaling_P : bool) (mis : Z) (st : svd_state) (f : fault) :
  svd_insert_mis PROC_RANK agg_part_rels row_sizes scaling_P mis st = Fault f ->
  f = AssertFailed \/
  (f = NullPointer /\ mis_master agg_part_rels mis = PROC_RANK /\
   sv_received_mats st mis = None).
Proof.
  unfold svd_insert_mis. cbv zeta.
  destruct (Z.eqb_spec (mis_master agg_part_rels mis) PROC_RANK) as [Howner|Hforeign];
    [|discriminate].
  destruct (sv_received_mats st mis) as [arr|] eqn:Hslot;
    [|intros [= <-]; by right].
  intros Hrun. left.
  apply bind_Fault in Hrun as [Hassert|(u & o & _ & Hrun)];
    [by apply SA_ASSERT_Fault in Hassert|].
  apply bind_Fault in Hrun as [Hskip|(skip & o' & _ & Hrun)].
  { unfold all_dofs_on_boundary in Hskip. destruct (avoid_ess_bdr_dofs _); [|discriminate].
    apply bind_Fault in Hskip as [Hfind|(interior & o' & _ & Hskip)];
      [by apply find_interior_dof_Fault in Hfind|].
    destruct (negb interior); [|discriminate].
    apply bind_Fault in Hskip as [Hprint|(? & ? & _ & ?)]; [|discriminate].
    by rewrite when_Ok in Hprint. }
  destruct skip; [discriminate|].
  apply bind_Fault in Hrun as [Hreduced|(reduced & o'' & _ & Hrun)].
  { destruct (Height (arr 0) =? 1); [discriminate|].
    unfold svd_basis in Hreduced.
    apply bind_Fault in Hreduced as [Hfilter|([arr' total] & o'' & _ & Hsvd)].
    - unfold filter_received in Hfilter.
      apply (for_upto_res_Fault (fun _ _ => True)) in Hfilter
        as (q & [a t] & _ & _ & Hq); [|done|done].
      apply bind_Fault in Hq as [Hq|(? & ? & _ & ?)]; [|discriminate].
      by apply contrib_filter_boundary_Fault in Hq.
    - destruct (if total =? 0 then _ else _) as [lsvects svals].
      destruct (Size svals =? 0); [|discriminate].
      apply bind_Fault in Hsvd as [?|(? & ? & _ & Hsvd)]; [discriminate|].
      apply bind_Fault in Hsvd as [?|(? & ? & _ & ?)]; discriminate. }
  destruct reduced as [[[arr' lsvects] svals] [basis|]]; [|discriminate].
  apply bind_Fault in Hrun as [Hfile|(u' & o3 & _ & Hrun)];
    [by rewrite when_Ok in Hfile|].
  apply bind_Fault in Hrun as [Hinsert|([this' l] & o4 & _ & ?)]; [|discriminate].
  unfold insert_basis in Hinsert.
  apply bind_Fault in Hinsert as [Hsimple|(this1 & o4 & _ & Hinsert)];
    [by apply contrib_tent_insert_simple_Fault in Hsimple|].
  apply bind_Fault in Hinsert as [Hassert|(? & ? & _ & ?)];
    [by apply SA_ASSERT_Fault in Hassert | discriminate].
Qed.

(** A fault of [SVDInsert_local]. *)
Lemma SVDInsert_local_Fault (PROC_RANK : Z) (this : ContribTent)
    (agg_part_rels : agg_partitioning_relations_t) (received_mats : received_mats_t)
    (row_sizes : Z -> Z) (scaling_P : bool) (f : fault) :
  SVDInsert_local PROC_RANK this agg_part_rels received_mats row_sizes scaling_P
    = Fault f ->
  (num_mises agg_part_rels < 0 /\ f = BadArrayNewLength) \/
  (0 <= num_mises agg_part_rels /\
   (f = AssertFailed \/
    (f = NullPointer /\
     exists mis, 0 <= mis < num_mises agg_part_rels /\
       mis_master agg_part_rels mis = PROC_RANK /\ received_mats mis = None))).
Proof.
  destruct (Z.lt_ge_cases (num_mises agg_part_rels) 0) as [Hn|Hn].
  { unfold SVDInsert_local. cbv zeta. rewrite new_array_negative by done.
    intros [= <-]. by left. }
  rewrite SVDInsert_local_nonneg by done. intros Hloop. right. split; [done|].
  apply (for_upto_res_Fault (fun k st =>
           forall m, k <= m -> sv_received_mats st m = received_mats m)) in Hloop
    as (mis & st & Hmis & Hslots & Hiter).
  - apply svd_insert_mis_Fault in Hiter as [->|(-> & Howner & Hnull)]; [by left|].
    right. split; [done|]. exists mis. rewrite <- Hslots by lia. split; [done|]. by split.
  - done.
  - intros k s s' o Hk Hslots Hstep m Hm.
    destruct (svd_insert_mis_frame _ _ _ _ _ _ _ _ Hstep) as (_ & _ & _ & Hframe).
    destruct (Hframe m) as (_ & _ & ->); [lia|]. apply Hslots. lia.
Qed.

(** X17. How SVDInsert fails up to the collective call, when the kernels
    of xpacks.hpp return. With a negative number of MISes, and only then,
    the allocation of its arrays throws std::bad_array_new_length, before
    anything else is done. Otherwise it stops on a failed assertion or on
    reading the NULL slot in [received_mats] of a MIS that the rank owns;
    with a slot for every owned MIS the only failure is a failed
    assertion. *)
Theorem SVDInsert_failures (PROC_RANK : Z) (this : ContribTent)
    (agg_part_rels : agg_partitioning_relations_t) (received_mats : received_mats_t)
    (row_sizes : Z -> Z) (scaling_P : bool) (f : fault) :
  SVDInsert_local PROC_RANK this agg_part_rels received_mats row_sizes scaling_P
    = Fault f ->
  (f = BadArrayNewLength <-> num_mises agg_part_rels < 0) /\
  (f = BadArrayNewLength \/ f = AssertFailed \/ f = NullPointer) /\
  (f = NullPointer ->
   exists mis, 0 <= mis < num_mises agg_part_rels /\
     mis_master agg_part_rels mis = PROC_RANK /\ received_mats mis = None) /\
  (0 <= num_mises agg_part_rels ->
   (forall mis, 0 <= mis < num_mises agg_part_rels ->
      mis_master agg_part_rels mis = PROC_RANK -> received_mats mis <> None) ->
   f = AssertFailed).
Proof.
  intros [[Hn ->]|[Hn [->|(-> & mis & Hmis & Howner & Hnull)]]]%SVDInsert_local_Fault.
  - split_and!; [done | by left | done | intros; lia].
  - split_and!; [split; [done | lia] | right; by left | done | done].
  - split_and!; [split; [done | lia] | right; by right | by exists mis |].
    intros _ Hslots. by destruct (Hslots mis Hmis Howner).
Qed.

Lemma ExtendWithPolynomials_Fault (PROC_RANK : Z)
    (agg_part_rels : agg_partitioning_relations_t) (received_mats : received_mats_t)
    (order spatial_dimension num_nodes : Z) (coords : Vector) (f : fault) :
  order = 0 \/ order = 1 ->
  ExtendWithPolynomials PROC_RANK received_mats agg_part_rels order spatial_dimension
    num_nodes coords = Fault f ->
  f = AssertFailed.
Proof.
  intros Horder. unfold ExtendWithPolynomials. cbv zeta. intros Hloop.
  apply (for_upto_res_Fault (fun _ _ => True)) in Hloop
    as (mis & m & _ & _ & Hiter); [|done|done].
  unfold extend_polynomials_mis in Hiter. cbv zeta in Hiter.
  destruct (mis_master agg_part_rels mis =? PROC_RANK); [|discriminate].
  apply bind_Fault in Hiter as [Hassert|(u & o & _ & Hiter)];
    [by apply SA_ASSERT_Fault in Hassert|].
  apply bind_Fault in Hiter as [Hwidth|(? & ? & _ & ?)]; [|discriminate].
  by destruct Horder as [-> | ->].
Qed.

(** After [ExtendWithPolynomials] no owned MIS has a NULL slot. *)
Lemma ExtendWithPolynomials_allocates (PROC_RANK : Z)
    (agg_part_rels : agg_partitioning_relations_t)
    (received_mats received_mats' : received_mats_t)
    (order spatial_dimension num_nodes : Z) (coords : Vector) (out : list message) :
  ExtendWithPolynomials PROC_RANK received_mats agg_part_rels order spatial_dimension
    num_nodes coords = Ok received_mats' out ->
  forall mis, 0 <= mis < num_mises agg_part_rels ->
    mis_master agg_part_rels mis = PROC_RANK -> received_mats' mis <> None.
Proof.
  unfold ExtendWithPolynomials. cbv zeta. intros Hloop mis Hmis Howner.
  apply (for_upto_res_inv (fun k m => mis < k -> m mis <> None)) in Hloop.
  - done.
  - intros; lia.
  - intros k m m' o Hk Hdone Hstep Hlt.
    destruct (decide (mis = k)) as [->|Hne].
    + unfold extend_polynomials_mis in Hstep. cbv zeta in Hstep.
      rewrite Howner, Z.eqb_refl in Hstep.
      bind_inv Hstep u Hassert. bind_inv Hstep newwidth Hwidth.
      injection Hstep as <- _. by rewrite fn_lookup_insert.
    + rewrite (extend_polynomials_mis_frame _ _ _ _ _ _ _ _ _ _ Hstep) by (by left).
      apply Hdone. lia.
  - lia.
Qed.

(** X18. How contrib_ones and contrib_linears fail up to the collective
    call of SVDInsert, when the kernels of xpacks.hpp return. With a number
    of MISes that is not negative they can only stop on a failed assertion:
    they pass a supported order, so no integer is thrown, and the extension
    allocates the slot of every MIS that the rank owns, so SVDInsert reads
    no NULL slot. With a negative number of MISes the allocation of
    [received_mats] throws std::bad_array_new_length: contrib_ones always,
    contrib_linears once its assertion on the size of [coords] holds. *)
Theorem contrib_ones_linears_failures (PROC_RANK : Z) (this : ContribTent)
    (agg_part_rels : agg_partitioning_relations_t)
    (spatial_dimension num_nodes : Z) (coords : Vector) (f : fault) :
  (contrib_ones_local PROC_RANK this agg_part_rels = Fault f ->
   if num_mises agg_part_rels <? 0 then f = BadArrayNewLength else f = AssertFailed) /\
  (contrib_linears_local PROC_RANK this agg_part_rels spatial_dimension num_nodes coords
   = Fault f ->
   if (num_mises agg_part_rels <? 0) && (Size coords =? spatial_dimension * num_nodes)
   then f = BadArrayNewLength else f = AssertFailed) /\
  (num_mises agg_part_rels < 0 ->
   contrib_ones_local PROC_RANK this agg_part_rels = Fault BadArrayNewLength /\
   (Size coords = spatial_dimension * num_nodes ->
    contrib_linears_local PROC_RANK this agg_part_rels spatial_dimension num_nodes
      coords = Fault BadArrayNewLength)).
Proof.
  assert (Hinsert : forall order sd nn cs rm o row_sizes,
    0 <= num_mises agg_part_rels ->
    ExtendWithPolynomials PROC_RANK (fun _ => None) agg_part_rels order sd nn cs
      = Ok rm o ->
    SVDInsert_local PROC_RANK this agg_part_rels rm row_sizes false = Fault f ->
    f = AssertFailed).
  { intros order sd nn cs rm o row_sizes Hn Hextend
      [[? _]|[_ [->|(-> & mis & Hmis & Howner & Hnull)]]]%SVDInsert_local_Fault;
      [lia | done |].
    by destruct (ExtendWithPolynomials_allocates _ _ _ _ _ _ _ _ _ Hextend mis). }
  assert (Hones : num_mises agg_part_rels < 0 ->
                  contrib_ones_local PROC_RANK this agg_part_rels
                  = Fault BadArrayNewLength).
  { intros Hn. unfold contrib_ones_local. cbv zeta. by rewrite new_array_negative. }
  assert (Hlinears : num_mises agg_part_rels < 0 ->
                     Size coords = spatial_dimension * num_nodes ->
                     contrib_linears_local PROC_RANK this agg_part_rels
                       spatial_dimension num_nodes coords = Fault BadArrayNewLength).
  { intros Hn Hsize. unfold contrib_linears_local. cbv zeta.
    rewrite Hsize, Z.eqb_refl. unfold SA_ASSERT, bind at 1, ret.
    by rewrite new_array_negative. }
  split_and!; [| | intros Hn; split; [by apply Hones | by apply Hlinears]].
  - destruct (Z.ltb_spec (num_mises agg_part_rels) 0) as [Hn|Hn].
    { rewrite Hones by done. by intros [= <-]. }
    unfold contrib_ones_local, ExtendWithConstants. cbv zeta.
    rewrite new_array_nonneg by done.
    intros [Hextend|(rm & o & Hextend & Hrun)]%bind_Fault.
    + apply ExtendWithPolynomials_Fault in Hextend; [done | by left].
    + rewrite new_array_nonneg in Hrun by done.
      by apply (Hinsert _ _ _ _ _ _ _ Hn Hextend Hrun).
  - destruct (Z.eqb_spec (Size coords) (spatial_dimension * num_nodes)) as [Hsize|Hsize].
    + destruct (Z.ltb_spec (num_mises agg_part_rels) 0) as [Hn|Hn]; simpl.
      { rewrite Hlinears by done. by intros [= <-]. }
      unfold contrib_linears_local. cbv zeta.
      intros [Hassert|(u & o & _ & Hrun)]%bind_Fault;
        [by apply SA_ASSERT_Fault in Hassert|].
      rewrite new_array_nonneg in Hrun by done.
      apply bind_Fault in Hrun as [Hextend|(rm & o' & Hextend & Hrun)].
      * apply ExtendWithPolynomials_Fault in Hextend; [done | by right].
      * rewrite new_array_nonneg in Hrun by done.
        by apply (Hinsert _ _ _ _ _ _ _ Hn Hextend Hrun).
    + rewrite andb_false_r. unfold contrib_linears_local. cbv zeta.
      replace (Size coords =? spatial_dimension * num_nodes) with false by lia.
      by intros [= <-].
Qed.

(** ** contrib_ones on MISes of one dof *)

Lemma owned_before_next (PROC_RANK : Z) (agg_part_rels : agg_partitioning_relations_t)
    (k : Z) :
  0 <= k ->
  owned_before PROC_RANK agg_part_rels (k + 1)
  = owned_before PROC_RANK agg_part_rels k
    + (if mis_master agg_part_rels k =? PROC_RANK then 1 else 0).
Proof.
  intros Hk. unfold owned_before. rewrite seqZ_snoc, List.filter_app, length_app by done.
  simpl. destruct (mis_master agg_part_rels k =? PROC_RANK); simpl; lia.
Qed.

Lemma owned_before_mono (PROC_RANK : Z) (agg_part_rels : agg_partitioning_relations_t)
    (m k : Z) :
  0 <= m < k -> mis_master agg_part_rels m = PROC_RANK ->
  owned_before PROC_RANK agg_part_rels m < owned_before PROC_RANK agg_part_rels k.
Proof.
  intros Hm Howner.
  pose proof (owned_before_next PROC_RANK agg_part_rels m ltac:(lia)) as Hnext.
  rewrite Howner, Z.eqb_refl in Hnext. unfold owned_before in *.
  replace k with ((m + 1) + (k - m - 1)) by lia.
  rewrite seqZ_app by lia. rewrite List.filter_app, length_app. lia.
Qed.

(** What insert_basis leaves in the tentative prolongator: the columns
    that contrib_tent_insert_simple stores, and nothing printed. *)
Lemma insert_basis_tent (this this' : ContribTent)
    (agg_part_rels : agg_partitioning_relations_t) (mis : Z) (basis : DenseMatrix)
    (scaling_P : bool) (filled_cols_l : Z) (out : list message) :
  insert_basis this agg_part_rels mis basis scaling_P = Ok (this', filled_cols_l) out ->
  out = [] /\ threshold_ this' = threshold_ this /\
  tent_interp_ this'
  = is_tent (for_upto (Width basis)
               (insert_simple_column this basis (GetRow (mis_to_dof agg_part_rels) mis))
               (mkInsert 0 (filled_cols this) (tent_interp_ this))).
Proof.
  unfold insert_basis. intros Hrun.
  apply bind_Ok in Hrun as (this1 & oa & ob & Hsimple & Hrun & ->).
  destruct (contrib_tent_insert_simple_fields _ _ _ _ _ _ Hsimple)
    as (_ & _ & _ & Hthr & _).
  destruct (contrib_tent_insert_simple_inv _ _ _ _ _ _ Hsimple) as [Hpos Hle].
  rewrite contrib_tent_insert_simple_Ok in Hsimple by done.
  injection Hsimple as Hthis <-.
  apply bind_Ok in Hrun as (u & oc & od & [_ ->]%SA_ASSERT_Ok & Hrun & ->).
  injection Hrun as <- _ <-.
  destruct (scaling_P && _); simpl; rewrite <- Hthis; by split_and!.
Qed.

(** The iteration of SVDInsert on an owned MIS of one dof, without the
    avoid-boundary option: the entry 1.0 it stores. *)
Lemma svd_insert_mis_one_dof_entry (PROC_RANK : Z)
    (agg_part_rels : agg_partitioning_relations_t) (row_sizes : Z -> Z)
    (scaling_P : bool) (mis : Z) (arr : Z -> DenseMatrix) (st : svd_state) :
  let dof := GetRow (mis_to_dof agg_part_rels) mis 0 in
  mis_master agg_part_rels mis = PROC_RANK ->
  mises_size agg_part_rels mis = 1 ->
  sv_received_mats st mis = Some arr -> Height (arr 0) = 1 ->
  avoid_ess_bdr_dofs (sv_this st) = false ->
  PrimFloat.ltb (threshold_ (sv_this st)) 1 = true ->
  exists st' out,
    svd_insert_mis PROC_RANK agg_part_rels row_sizes scaling_P mis st = Ok st' out /\
    (testmesh agg_part_rels = false -> out = []) /\
    filled_cols (sv_this st') = filled_cols (sv_this st) + 1 /\
    sv_num_coarse_dofs st' = sv_num_coarse_dofs st + 1 /\
    threshold_ (sv_this st') = threshold_ (sv_this st) /\
    mis_numcoarsedof (sv_this st') mis = Some 1 /\
    sm_entries (tent_interp_ (sv_this st')) !! (dof, filled_cols (sv_this st))
    = Some 1%float /\
    (forall r c, c <> filled_cols (sv_this st) ->
       sm_entries (tent_interp_ (sv_this st')) !! (r, c)
       = sm_entries (tent_interp_ (sv_this st)) !! (r, c)).
Proof.
  intros dof Howner Hsize Hslot Hheight Havoid Hthreshold.
  unfold svd_insert_mis. cbv zeta.
  rewrite Howner, Z.eqb_refl, Hslot, Hsize, Hheight. simpl (1 =? 1).
  unfold SA_ASSERT at 1, bind at 1, ret.
  unfold all_dofs_on_boundary. cbn [avoid_ess_bdr_dofs set_mis_tent_interp].
  rewrite Havoid. unfold ret, bind at 1 2. cbv beta iota.
  set (basis := set_Elem (SetSize DenseMatrix_empty 1 1) 0 0 1%float).
  set (this1 := set_mis_tent_interp
                  (set_mis_tent_interp (sv_this st) mis DenseMatrix_empty) mis basis).
  rewrite when_Ok. unfold bind at 1.
  destruct (insert_basis_Ok this1 agg_part_rels mis basis scaling_P)
    as (this2 & o2 & Hinsert); [done | done |].
  rewrite Hinsert. unfold bind, ret.
  destruct (insert_basis_fields _ _ _ _ _ _ _ _ Hinsert)
    as (_ & Hfc & _ & _ & _ & Hnum & _).
  destruct (insert_basis_tent _ _ _ _ _ _ _ _ Hinsert) as (-> & Hthr & Htent).
  destruct (insert_simple_columns this1 basis (GetRow (mis_to_dof agg_part_rels) mis))
    as (_ & _ & _ & _ & _ & Hframe & _ & Hstored); [done | done |].
  cbv zeta in Hframe, Hstored. rewrite <- Htent in Hframe, Hstored.
  change (filled_cols this1) with (filled_cols (sv_this st)) in Hframe, Hstored, Hfc.
  change (tent_interp_ this1) with (tent_interp_ (sv_this st)) in Hframe.
  change (threshold_ this1) with (threshold_ (sv_this st)) in Hframe, Hstored, Hthr.
  change (Height basis) with 1 in Hframe, Hstored.
  change (Width basis) with 1 in Hframe, Hstored, Hfc, Hnum.
  assert (Hone : Elem basis 0 0 = 1%float) by (vm_compute; reflexivity).
  eexists _, _. split; [reflexivity|]. cbn [sv_this sv_num_coarse_dofs].
  split_and!; try done.
  - intros ->. reflexivity.
  - by rewrite Hnum, fn_lookup_insert.
  - assert (Hinj : forall j j' : Z, 0 <= j < 1 -> 0 <= j' < 1 ->
              GetRow (mis_to_dof agg_part_rels) mis j
              = GetRow (mis_to_dof agg_part_rels) mis j' -> j = j')
      by (intros; lia).
    assert (Hzero : 0 <= 0 < 1) by lia.
    specialize (Hstored Hinj 0 0 Hzero Hzero).
    rewrite Hone, Z.add_0_r in Hstored. apply Hstored.
    by change (fabs 1) with 1%float.
  - intros r c Hc. apply Hframe. intros i j Hi Hj _ [= _ Heq]. lia.
Qed.

(** SVDInsert, up to the collective call, when every owned MIS has one
    dof and a slot of one row, without the avoid-boundary option. *)
Lemma SVDInsert_local_one_dof_mises (PROC_RANK : Z) (this : ContribTent)
    (agg_part_rels : agg_partitioning_relations_t) (received_mats : received_mats_t)
    (row_sizes : Z -> Z) (scaling_P : bool) :
  0 <= num_mises agg_part_rels ->
  avoid_ess_bdr_dofs this = false ->
  PrimFloat.ltb (threshold_ this) 1 = true ->
  (forall mis, 0 <= mis < num_mises agg_part_rels ->
     mis_master agg_part_rels mis = PROC_RANK ->
     mises_size agg_part_rels mis = 1 /\
     exists arr, received_mats mis = Some arr /\ Height (arr 0) = 1) ->
  exists st out,
    SVDInsert_local PROC_RANK this agg_part_rels received_mats row_sizes scaling_P
    = Ok st out /\
    (testmesh agg_part_rels = false -> out = []) /\
    sv_num_coarse_dofs st
    = owned_before PROC_RANK agg_part_rels (num_mises agg_part_rels) /\
    filled_cols (sv_this st)
    = filled_cols this + owned_before PROC_RANK agg_part_rels (num_mises agg_part_rels) /\
    forall mis, 0 <= mis < num_mises agg_part_rels ->
      mis_master agg_part_rels mis = PROC_RANK ->
      mis_numcoarsedof (sv_this st) mis = Some 1 /\
      sm_entries (tent_interp_ (sv_this st))
        !! (GetRow (mis_to_dof agg_part_rels) mis 0,
            filled_cols this + owned_before PROC_RANK agg_part_rels mis)
      = Some 1%float.
Proof.
  intros Hn Havoid Hthreshold Hones. rewrite SVDInsert_local_nonneg by done.
  destruct (for_upto_res_ind (fun k st o =>
      (testmesh agg_part_rels = false -> o = []) /\
      sv_num_coarse_dofs st = owned_before PROC_RANK agg_part_rels k /\
      filled_cols (sv_this st)
      = filled_cols this + owned_before PROC_RANK agg_part_rels k /\
      avoid_ess_bdr_dofs (sv_this st) = false /\
      threshold_ (sv_this st) = threshold_ this /\
      (forall m, k <= m -> sv_received_mats st m = received_mats m) /\
      (forall m, 0 <= m < k -> mis_master agg_part_rels m = PROC_RANK ->
         mis_numcoarsedof (sv_this st) m = Some 1 /\
         sm_entries (tent_interp_ (sv_this st))
           !! (GetRow (mis_to_dof agg_part_rels) m 0,
               filled_cols this + owned_before PROC_RANK agg_part_rels m)
         = Some 1%float))
      (svd_insert_mis PROC_RANK agg_part_rels row_sizes scaling_P)
      (num_mises agg_part_rels)
      (mkSVD (new_mis_arrays this) received_mats DenseMatrix_empty
         (mkVector 0 indeterminate) 0) Hn)
    as (st & out & Hloop & Hout & Hnum & Hfc & _ & _ & _ & Hentries).
  - simpl. split_and!; try done; try (intros; lia). unfold owned_before. simpl. lia.
  - intros k s o Hk (Hout & Hnum & Hfc & Havoid' & Hthr & Hslots & Hentries).
    rewrite owned_before_next by lia.
    destruct (Z.eqb_spec (mis_master agg_part_rels k) PROC_RANK) as [Howner|Hforeign].
    + destruct (Hones k Hk Howner) as (Hsize & arr & Hslot & Hheight).
      destruct (svd_insert_mis_one_dof_entry PROC_RANK agg_part_rels row_sizes
                  scaling_P k arr s Howner Hsize)
        as (s' & o' & Hstep & Hout' & Hfc' & Hnum' & Hthr' & Hcount & Hentry & Hframe);
        [by rewrite Hslots by lia | done | done | by rewrite Hthr |].
      destruct (svd_insert_mis_frame _ _ _ _ _ _ _ _ Hstep)
        as (_ & Havoid'' & _ & Hothers).
      exists s', o'. split; [done|]. split_and!.
      * intros Hquiet. by rewrite Hout, Hout'.
      * lia.
      * lia.
      * congruence.
      * congruence.
      * intros m Hm. destruct (Hothers m) as (_ & _ & ->); [lia|]. apply Hslots. lia.
      * intros m Hm Hown. destruct (decide (m = k)) as [->|Hne].
        -- split; [done|]. by rewrite <- Hfc.
        -- destruct (Hentries m) as [Hcount' Hentry']; [lia | done |].
           destruct (Hothers m Hne) as (_ & -> & _). split; [done|].
           rewrite Hframe; [done|].
           pose proof (owned_before_mono PROC_RANK agg_part_rels m k) as Hlt. lia.
    + exists (mkSVD (set_mis_tent_interp (set_mis_numcoarsedof (sv_this s) k 0) k
                       DenseMatrix_empty)
                    (sv_received_mats s) (sv_lsvects s) (sv_svals s)
                    (sv_num_coarse_dofs s)), [].
      split.
      { unfold svd_insert_mis. cbv zeta.
        by replace (mis_master agg_part_rels k =? PROC_RANK) with false by lia. }
      rewrite app_nil_r. cbn [sv_this sv_num_coarse_dofs sv_received_mats].
      split_and!; [done | lia | simpl; lia | done | done | |].
      * intros m Hm. apply Hslots. lia.
      * intros m Hm Hown. assert (m <> k) by congruence.
        destruct (Hentries m) as [Hcount' Hentry']; [lia | done |].
        split; [|done]. simpl. by rewrite fn_lookup_insert_ne.
  - by exists st, out.
Qed.

(** X19. On an aggregation whose owned MISes have one dof each, and
    without the avoid-boundary option, contrib_ones returns, up to the
    collective call of SVDInsert: every owned MIS takes exactly one coarse
    dof, in the order of the MISes, and the tentative prolongator holds 1.0
    at the dof of the MIS in the column of that coarse dof. *)
Theorem contrib_ones_one_dof_mises (PROC_RANK : Z) (this : ContribTent)
    (agg_part_rels : agg_partitioning_relations_t) :
  0 <= num_mises agg_part_rels ->
  avoid_ess_bdr_dofs this = false ->
  PrimFloat.ltb (threshold_ this) 1 = true ->
  (forall mis, 0 <= mis < num_mises agg_part_rels ->
     mis_master agg_part_rels mis = PROC_RANK -> mises_size agg_part_rels mis = 1) ->
  exists st out,
    contrib_ones_local PROC_RANK this agg_part_rels = Ok st out /\
    (testmesh agg_part_rels = false -> out = []) /\
    sv_num_coarse_dofs st
    = owned_before PROC_RANK agg_part_rels (num_mises agg_part_rels) /\
    filled_cols (sv_this st)
    = filled_cols this + owned_before PROC_RANK agg_part_rels (num_mises agg_part_rels) /\
    forall mis, 0 <= mis < num_mises agg_part_rels ->
      mis_master agg_part_rels mis = PROC_RANK ->
      mis_numcoarsedof (sv_this st) mis = Some 1 /\
      sm_entries (tent_interp_ (sv_this st))
        !! (GetRow (mis_to_dof agg_part_rels) mis 0,
            filled_cols this + owned_before PROC_RANK agg_part_rels mis)
      = Some 1%float.
Proof.
  intros Hn Havoid Hthreshold Hones.
  unfold contrib_ones_local, ExtendWithConstants. cbv zeta.
  rewrite new_array_nonneg by done.
  destruct (ExtendWithPolynomials_run PROC_RANK agg_part_rels (fun _ => None) 0 (-1) (-1)
              (mkVector 0 indeterminate)) as (rm & Hextend & Howned & _); [| by left |].
  { intros mis Hmis Howner. rewrite (Hones mis Hmis Howner). by split. }
  rewrite Hextend. unfold bind at 1. rewrite new_array_nonneg by done.
  destruct (SVDInsert_local_one_dof_mises PROC_RANK this agg_part_rels rm
              (unit_row_sizes (num_mises agg_part_rels)) false Hn Havoid Hthreshold)
    as (st & out & Hrun & Hrest).
  { intros mis Hmis Howner. split; [by apply Hones|].
    destruct (Howned mis Hmis Howner) as (arr' & Hslot & Hheight & _).
    exists arr'. split; [done|]. rewrite Hheight. by apply Hones. }
  rewrite Hrun. by exists st, out.
Qed.

(** ** What the extensions of the contributions require *)

(** The loop over the nodes of a MIS returns only if every node passes
    the assertion on its number. *)
Lemma extend_rbms_nodes_inv (row : Z -> Z) (spatial_dimension num_nodes : Z)
    (coords : Vector) (swidth nodes_in_mis : Z) (extended extended' : DenseMatrix)
    (out : list message) :
  for_upto_res nodes_in_mis
    (extend_rbms_node row spatial_dimension num_nodes coords swidth) extended
  = Ok extended' out ->
  forall node, 0 <= node < nodes_in_mis ->
    node_num_of row spatial_dimension node < num_nodes.
Proof.
  intros Hloop node Hnode.
  enough (Hend : forall node, 0 <= node < Z.max 0 nodes_in_mis ->
            node_num_of row spatial_dimension node < num_nodes) by (apply Hend; lia).
  clear node Hnode.
  eapply (for_upto_res_inv (fun k _ => forall node, 0 <= node < k ->
            node_num_of row spatial_dimension node < num_nodes)); [| | exact Hloop].
  - intros; lia.
  - intros k s s' o Hk IH Hbody n Hn.
    destruct (decide (n = k)) as [->|Hne]; [|apply IH; lia].
    unfold extend_rbms_node in Hbody. cbv zeta in Hbody.
    apply bind_Ok in Hbody as (u & o1 & o2 & [Hassert _]%SA_ASSERT_Ok & _).
    unfold node_num_of. lia.
Qed.

(** X20. ExtendWithRBMs returns only if, for every MIS its rank owns,
    the spatial dimension is 1, 2 or 3, the first matrix of a slot that is
    not NULL has as many rows as the MIS has dofs, the dofs of the MIS
    split evenly into nodes, and every node number is below num_nodes. *)
Theorem ExtendWithRBMs_returns_only_if (PROC_RANK : Z)
    (agg_part_rels : agg_partitioning_relations_t)
    (received_mats received_mats' : received_mats_t)
    (spatial_dimension num_nodes : Z) (coords : Vector) (out : list message) :
  ExtendWithRBMs PROC_RANK received_mats agg_part_rels spatial_dimension num_nodes
    coords = Ok received_mats' out ->
  forall mis, 0 <= mis < num_mises agg_part_rels ->
    mis_master agg_part_rels mis = PROC_RANK ->
    (spatial_dimension = 1 \/ spatial_dimension = 2 \/ spatial_dimension = 3) /\
    Height (slot_matrix (received_mats mis) (mises_size agg_part_rels mis))
    = mises_size agg_part_rels mis /\
    Z.rem (mises_size agg_part_rels mis) spatial_dimension = 0 /\
    forall node,
      0 <= node < Z.quot (mises_size agg_part_rels mis) spatial_dimension ->
      node_num_of (GetRow (mis_to_dof agg_part_rels) mis) spatial_dimension node
      < num_nodes.
Proof.
  unfold ExtendWithRBMs. cbv zeta. intros Hloop mis Hmis Howner.
  apply (for_upto_res_inv (fun k m =>
      (forall j, k <= j -> m j = received_mats j) /\
      (mis < k ->
       (spatial_dimension = 1 \/ spatial_dimension = 2 \/ spatial_dimension = 3) /\
       Height (slot_matrix (received_mats mis) (mises_size agg_part_rels mis))
       = mises_size agg_part_rels mis /\
       Z.rem (mises_size agg_part_rels mis) spatial_dimension = 0 /\
       forall node,
         0 <= node < Z.quot (mises_size agg_part_rels mis) spatial_dimension ->
         node_num_of (GetRow (mis_to_dof agg_part_rels) mis) spatial_dimension node
         < num_nodes))) in Hloop.
  - apply Hloop. lia.
  - split; [done | intros; lia].
  - intros k s s' o Hk [Hlater IH] Hbody.
    unfold extend_rbms_mis in Hbody. cbv zeta in Hbody.
    destruct (Z.eqb_spec (mis_master agg_part_rels k) PROC_RANK) as [Hown|Hforeign].
    + apply bind_Ok in Hbody as (u & o1 & o2 & [Hheight _]%SA_ASSERT_Ok & Hbody & _).
      apply bind_Ok in Hbody as (newwidth & o3 & o4 & Hwidth & Hbody & _).
      apply bind_Ok in Hbody as (u' & o5 & o6 & [Hrem _]%SA_ASSERT_Ok & Hbody & _).
      apply bind_Ok in Hbody as (ext & o7 & o8 & Hnodes & Hbody & _).
      injection Hbody as <- _. split.
      * intros j Hj. rewrite fn_lookup_insert_ne by lia. apply Hlater. lia.
      * intros Hlt. destruct (decide (mis = k)) as [->|Hne]; [|apply IH; lia].
        rewrite (Hlater k) in Hheight, Hnodes by lia.
        rewrite slot_matrix_allocate in Hheight.
        split_and!.
        -- destruct (Z.eqb_spec spatial_dimension 1); [by left|].
           destruct (Z.eqb_spec spatial_dimension 2); [right; by left|].
           destruct (Z.eqb_spec spatial_dimension 3); [right; by right|].
           discriminate.
        -- lia.
        -- lia.
        -- by apply (extend_rbms_nodes_inv _ _ _ _ _ _ _ _ _ Hnodes).
    + injection Hbody as <- _. split.
      * intros j Hj. apply Hlater. lia.
      * intros Hlt. assert (mis <> k) by congruence. apply IH. lia.
Qed.

(** X21. The only failures of the extensions: ExtendWithPolynomials
    fails by an assertion, or throws 1 and then the order is neither 0 nor
    1; ExtendWithRBMs fails by an assertion, or throws 1 and then the
    spatial dimension is none of 1, 2 and 3. *)
Theorem Extend_failures (PROC_RANK : Z)
    (agg_part_rels : agg_partitioning_relations_t) (received_mats : received_mats_t)
    (order spatial_dimension num_nodes : Z) (coords : Vector) (f : fault) :
  (ExtendWithPolynomials PROC_RANK received_mats agg_part_rels order spatial_dimension
     num_nodes coords = Fault f ->
   f = AssertFailed \/ (f = Thrown 1 /\ order <> 0 /\ order <> 1)) /\
  (ExtendWithRBMs PROC_RANK received_mats agg_part_rels spatial_dimension num_nodes
     coords = Fault f ->
   f = AssertFailed \/
   (f = Thrown 1 /\ spatial_dimension <> 1 /\ spatial_dimension <> 2 /\
    spatial_dimension <> 3)).
Proof.
  split.
  - unfold ExtendWithPolynomials. cbv zeta. intros Hloop.
    apply (for_upto_res_Fault (fun _ _ => True)) in Hloop
      as (mis & m & _ & _ & Hiter); [|done|done].
    unfold extend_polynomials_mis in Hiter. cbv zeta in Hiter.
    destruct (mis_master agg_part_rels mis =? PROC_RANK); [|discriminate].
    apply bind_Fault in Hiter as [Hassert|(u & o & _ & Hiter)];
      [left; by apply SA_ASSERT_Fault in Hassert|].
    apply bind_Fault in Hiter as [Hwidth|(? & ? & _ & ?)]; [|discriminate].
    destruct (Z.eqb_spec order 0); [discriminate|].
    destruct (Z.eqb_spec order 1); [discriminate|].
    injection Hwidth as <-. by right.
  - unfold ExtendWithRBMs. cbv zeta. intros Hloop.
    apply (for_upto_res_Fault (fun _ _ => True)) in Hloop
      as (mis & m & _ & _ & Hiter); [|done|done].
    unfold extend_rbms_mis in Hiter. cbv zeta in Hiter.
    destruct (mis_master agg_part_rels mis =? PROC_RANK); [|discriminate].
    apply bind_Fault in Hiter as [Hassert|(u & o & _ & Hiter)];
      [left; by apply SA_ASSERT_Fault in Hassert|].
    apply bind_Fault in Hiter as [Hwidth|(w & o' & _ & Hiter)].
    + destruct (Z.eqb_spec spatial_dimension 1); [discriminate|].
      destruct (Z.eqb_spec spatial_dimension 2); [discriminate|].
      destruct (Z.eqb_spec spatial_dimension 3); [discriminate|].
      injection Hwidth as <-. by right.
    + left.
      apply bind_Fault in Hiter as [Hassert|(u' & o'' & _ & Hiter)];
        [by apply SA_ASSERT_Fault in Hassert|].
      apply bind_Fault in Hiter as [Hnodes|(? & ? & _ & ?)]; [|discriminate].
      apply (for_upto_res_Fault (fun _ _ => True)) in Hnodes
        as (node & ext & _ & _ & Hnode); [|done|done].
      unfold extend_rbms_node in Hnode. cbv zeta in Hnode.
      apply bind_Fault in Hnode as [Hassert|(? & ? & _ & ?)]; [|discriminate].
      by apply SA_ASSERT_Fault in Hassert.
Qed.

End Externals.

(** * Concrete runs *)

(** External parts chosen for the runs: output level 5, dof 1 on the
    essential boundary, zeroed fresh storage, and numerical kernels that
    find no singular value. *)
Definition ex_output_level (level : Z) : bool := level <=? 5.
Definition ex_border (agg_part_rels : agg_partitioning_relations_t) (dof : Z) : bool :=
  dof =? 1.
Definition ex_fresh (offset : Z) : float := 0%float.
Definition ex_svd (mats : Z -> DenseMatrix) (n : Z) : DenseMatrix * Vector :=
  (DenseMatrix_empty, mkVector 0 ex_fresh).
Definition ex_orth (lsvects : DenseMatrix) (svals : Vector) (eps : float) : DenseMatrix :=
  lsvects.
Definition ex_lls (A : DenseMatrix) (b : Vector) : Vector := b.

(** A dense matrix from the list of its entries, column by column. *)
Definition dense_of_list (h w : Z) (entries : list float) : DenseMatrix :=
  mkDense h w (fun i => nth (Z.to_nat i) entries 0%float).

(** Two MISes: MIS 0 = {dof 0} owned by rank 0, MIS 1 = {dofs 1, 2} owned
    by rank 1. *)
Definition ex_rels : agg_partitioning_relations_t :=
  mkRels 3 2 (fun mis => mis) (fun mis => mis + 1)
         (mkTable (fun mis => mis + 1) (fun mis j => mis + j)) false.

(** One column on two rows: 0.5 kept, 0.0 not above the threshold 0. *)
Definition ex_basis : DenseMatrix := dense_of_list 2 1 [0.5%float; 0%float].

Definition ex_inserted : ContribTent :=
  match contrib_tent_insert_simple (ContribTent_new 3 false) ex_rels ex_basis
          (fun j => j + 1) with
  | Ok this _ => this
  | Fault _ => ContribTent_new 3 false
  end.

(** Three rows, two columns: column 0 is nonzero at dof 1 only, which is
    on the essential boundary; column 1 is (1, 2, 3). *)
Definition ex_local : DenseMatrix :=
  dense_of_list 3 2 [0%float; 5%float; 0%float; 1%float; 2%float; 3%float].

(** One MIS of four dofs, the two components of the nodes 0 and 1, owned by
    rank 0; the nodes sit at (1, 3) and (2, 4). *)
Definition ex_rels_2d : agg_partitioning_relations_t :=
  mkRels 4 1 (fun _ => 0) (fun _ => 4) (mkTable (fun _ => 4) (fun _ j => j)) false.
Definition ex_coords : Vector :=
  mkVector 4 (fun i => nth (Z.to_nat i) [1%float; 2%float; 3%float; 4%float] 0%float).

(** One MIS whose only dof is dof 1, on the essential boundary, owned by
    rank 0, with one received matrix of one row and one column. *)
Definition ex_rels_bdr : agg_partitioning_relations_t :=
  mkRels 3 1 (fun _ => 0) (fun _ => 1) (mkTable (fun _ => 1) (fun _ j => j + 1)) false.
Definition ex_received_one : Z -> option (Z -> DenseMatrix) :=
  fun _ => Some (fun _ => dense_of_list 1 1 [2%float]).

(** Three MISes of one dof each; rank 0 owns the MISes 0 and 1, rank 1 owns
    MIS 2, rank 2 owns none. *)
Definition ex_rels_ranks : agg_partitioning_relations_t :=
  mkRels 3 3 (fun mis => if mis <? 2 then 0 else 1) (fun _ => 1)
         (mkTable (fun _ => 1) (fun mis j => mis + j)) false.
Definition ex_input (rank : Z) : rank_input :=
  mkRankInput (ContribTent_new 3 false) ex_rels_ranks
    (fun mis => if mis_master ex_rels_ranks mis =? rank
                then Some (fun _ => dense_of_list 1 1 [2%float]) else None)
    (fun _ => 1).
Definition ex_inputs : list rank_input := [ex_input 0; ex_input 1; ex_input 2].
Definition ex_locals : result (list svd_state) :=
  SVDInsert_locals ex_output_level ex_border ex_fresh ex_svd ex_orth ex_lls
    0 ex_inputs false.
Definition ex_sts : list svd_state :=
  match ex_locals with Ok sts _ => sts | Fault _ => [] end.
Definition ex_out : list message :=
  match ex_locals with Ok _ out => out | Fault _ => [] end.

(** Two rows, one column of l1 norm 0.05, and one of l1 norm 0.0001. *)
Definition ex_small : DenseMatrix := dense_of_list 2 1 [0.05%float; 0%float].
Definition ex_tiny : DenseMatrix := dense_of_list 2 1 [0.0001%float; 0%float].
Definition ex_local_state : local_state :=
  mkLocal 0 ex_fresh 0 ex_fresh false 0 (SparseMatrix_new 3) 0.

(** ** C6: finalization *)



Example contrib_tent_finalize_one_column :
  match contrib_tent_finalize ex_inserted with
  | Ok tent_interp_l out =>
      sm_Size tent_interp_l = 3 /\ sm_Width tent_interp_l = 1 /\ out = [] /\
      sm_entries tent_interp_l !! (1, 0) = Some 0.5%float /\
      sm_entries tent_interp_l !! (2, 0) = None
  | Fault _ => False
  end.
Proof. vm_compute. by split_and!. Qed.

Example contrib_tent_finalize_no_column :
  contrib_tent_finalize (ContribTent_new 3 true)
  = Ok (mkSparse 3 0 ∅ true) [WARN_no_coarse_dofs].
Proof. vm_compute. reflexivity. Qed.

(** ** C9: the simple insertion *)

Lemma contrib_tent_insert_simple_advances_witness :
  exists this',
    contrib_tent_insert_simple (ContribTent_new 3 false) ex_rels ex_basis (fun j => j + 1)
    = Ok this' [] /\
    filled_cols this' = 1 /\
    sm_entries (tent_interp_ this') !! (1, 0) = Some 0.5%float /\
    sm_entries (tent_interp_ this') !! (2, 0) = None.
Proof.
  destruct (contrib_tent_insert_simple_advances ex_lls (ContribTent_new 3 false)
              ex_rels ex_basis (fun j => j + 1))
    as (this' & Hrun & Hfc & _ & Hcell & _); [done | done |].
  exists this'. split_and!; [done | done | |].
  - apply (Hcell ltac:(intros; lia) 0 0 ltac:(done) ltac:(done)).
  - apply (Hcell ltac:(intros; lia) 0 1 ltac:(done) ltac:(done)).
Defined.

(** ** C3: the offsets of three ranks *)

Lemma SVDInsert_offset_exclusive_prefix_sum_witness :
  exists thiss out,
    SVDInsert ex_output_level ex_border ex_fresh ex_svd ex_orth ex_lls ex_inputs false
    = Ok thiss out /\
    length thiss = length ex_inputs /\
    forall (r : nat) (st : svd_state),
      ex_sts !! r = Some st ->
      exists this,
        thiss !! r = Some this /\
        coarse_truedof_offset this
        = Some (sum_counts (take r (map sv_num_coarse_dofs ex_sts))) /\
        MPI_Scan_SUM (map sv_num_coarse_dofs ex_sts) !! r
        = Some (sum_counts (take r (map sv_num_coarse_dofs ex_sts))
                + sv_num_coarse_dofs st).
Proof.
  apply (SVDInsert_offset_exclusive_prefix_sum ex_output_level ex_border ex_fresh
           ex_svd ex_orth ex_lls ex_inputs false ex_sts ex_out).
  vm_compute. reflexivity.
Defined.

Example SVDInsert_three_ranks :
  match SVDInsert ex_output_level ex_border ex_fresh ex_svd ex_orth ex_lls
          ex_inputs false with
  | Ok thiss _ =>
      map coarse_truedof_offset thiss = [Some 0; Some 2; Some 3] /\
      map filled_cols thiss = [2; 1; 0] /\
      map sv_num_coarse_dofs ex_sts = [2; 1; 0]
  | Fault _ => False
  end.
Proof. vm_compute. by split_and!. Qed.

(** ** C10 and C4: the polynomial extension on rank 0 *)

Lemma Extend_leaves_foreign_slots_witness :
  (forall received_mats' out,
     ExtendWithPolynomials 0 (fun _ => None) ex_rels 1 2 3 ex_coords
       = Ok received_mats' out ->
     received_mats' 1 = None) /\
  (forall received_mats' out,
     ExtendWithRBMs 0 (fun _ => None) ex_rels 2 3 ex_coords = Ok received_mats' out ->
     received_mats' 1 = None).
Proof.
  destruct (Extend_leaves_foreign_slots 0 ex_rels 1 2 3 ex_coords (fun _ => None) 1)
    as (Hpoly & Hrbms & _); [vm_compute; discriminate|].
  by split.
Defined.

Lemma ExtendWithPolynomials_appends_witness :
  exists received_mats' arr',
    ExtendWithPolynomials 0 (fun _ => None) ex_rels 1 2 3 ex_coords
    = Ok received_mats' [] /\
    received_mats' 0 = Some arr' /\
    Height (arr' 0) = 1 /\ Width (arr' 0) = 3 /\
    Elem (arr' 0) 0 0 = 1%float /\
    Elem (arr' 0) 0 1 = vElem ex_coords 0 /\
    Elem (arr' 0) 0 2 = vElem ex_coords 3.
Proof.
  destruct (ExtendWithPolynomials_appends 0 ex_rels (fun _ => None) 1 2 3 ex_coords)
    as [Hsupported _].
  { intros mis Hmis Howner. split; [unfold ex_rels; simpl; lia | done]. }
  destruct Hsupported as (received_mats' & Hrun & Howned); [right; lia|].
  destruct (Howned 0) as (arr' & Hslot & HH & HW & Hrows); [done | done |].
  destruct (Hrows 0) as (Hones & _ & Hcoords); [done|].
  exists received_mats', arr'. split_and!; [done | done | done | done | done | |].
  - apply (Hcoords eq_refl 0). lia.
  - apply (Hcoords eq_refl 1). lia.
Defined.

Example ExtendWithPolynomials_order_2_throws :
  ExtendWithPolynomials 0 (fun _ => None) ex_rels 2 2 3 ex_coords = Fault (Thrown 1).
Proof. reflexivity. Qed.

Example ExtendWithPolynomials_no_owned_MIS :
  exists received_mats',
    ExtendWithPolynomials 7 (fun _ => None) ex_rels 2 2 3 ex_coords
    = Ok received_mats' [].
Proof. eexists. reflexivity. Qed.

(** ** C5: the rigid body modes of two nodes in 2-D *)

Lemma ExtendWithRBMs_appends_witness :
  exists received_mats' arr',
    ExtendWithRBMs 0 (fun _ => None) ex_rels_2d 2 2 ex_coords = Ok received_mats' [] /\
    received_mats' 0 = Some arr' /\
    Height (arr' 0) = 4 /\ Width (arr' 0) = 3 /\
    Elem (arr' 0) 0 2 = 3%float /\ Elem (arr' 0) 1 2 = (-1)%float /\
    Elem (arr' 0) 2 2 = 4%float /\ Elem (arr' 0) 3 2 = (-2)%float.
Proof.
  destruct (ExtendWithRBMs_appends 0 ex_rels_2d (fun _ => None) 2 2 ex_coords)
    as [Hsupported _].
  { intros mis Hmis Howner. split; [simpl; lia | done]. }
  destruct Hsupported as (received_mats' & Hrun & Howned); [right; by left | |].
  { intros mis Hmis Howner. split; [done|]. intros node Hnode.
    change (0 <= node < 2) in Hnode.
    assert (node = 0 \/ node = 1) as [-> | ->] by lia; vm_compute; done. }
  destruct (Howned 0) as (arr' & Hslot & HH & HW & Hnodes); [done | done |].
  destruct (Hnodes 0) as (_ & _ & Hnode0); [done|].
  destruct (Hnodes 1) as (_ & _ & Hnode1); [done|].
  destruct (Hnode0 eq_refl) as (_ & _ & _ & _ & Hy0 & Hx0).
  destruct (Hnode1 eq_refl) as (_ & _ & _ & _ & Hy1 & Hx1).
  exists received_mats', arr'. by split_and!.
Defined.

Example ExtendWithRBMs_two_nodes :
  match ExtendWithRBMs 0 (fun _ => None) ex_rels_2d 2 2 ex_coords with
  | Ok received_mats' _ =>
      match received_mats' 0 with
      | Some arr' =>
          columns (arr' 0)
          = [[1; 0; 1; 0]; [0; 1; 0; 1]; [3; -1; 4; -2]]%float
      | None => False
      end
  | Fault _ => False
  end.
Proof. vm_compute. reflexivity. Qed.

Example ExtendWithRBMs_dimension_4_throws :
  ExtendWithRBMs 0 (fun _ => None) ex_rels_2d 4 2 ex_coords = Fault (Thrown 1).
Proof. reflexivity. Qed.

(** ** C2: the boundary filter on three rows and two columns *)

Lemma contrib_filter_boundary_spec_witness :
  exists local' out,
    contrib_filter_boundary ex_output_level ex_border ex_fresh
      (ContribTent_new 3 true) ex_rels ex_local (fun j => j) = Ok local' out /\
    Height local' = 3 /\ Width local' = 1 /\
    columns local' = [[1; 0; 3]]%float /\
    length (List.filter is_column_alert out) = 1%nat.
Proof.
  destruct (contrib_filter_boundary_spec ex_output_level ex_border ex_fresh
              (ContribTent_new 3 true) ex_rels ex_local (fun j => j))
    as (local' & out & Hrun & HH & HW & Hcols & Halerts & Hexample); [done | done |].
  destruct Hexample as [Hone Hcolumn]; [done | done | done | |].
  { exists 1. split; [done|]. intros j Hj Hne.
    assert (j = 0 \/ j = 2) as [-> | ->] by lia; done. }
  assert (column_survives ex_border (ContribTent_new 3 true) ex_rels (fun j => j)
            ex_local 1 = true) as Hkept by (vm_compute; reflexivity).
  rewrite Hkept in Hone, Hcolumn.
  exists local', out. split_and!; [done | done | done | by rewrite Hcolumn |].
  rewrite Hone in Halerts. simpl in Halerts. lia.
Defined.

(** C2 as the specification words its example does not hold: three rows
    and two columns, (0, 5, 0) and (0, 7, 0), with dof 1 on the essential
    boundary and the avoid-boundary option. Column 0 has its only nonzero at
    the boundary row, and so has column 1: both columns are dropped, each
    with its alert, and the result has width 0, not 1. *)
Definition ex_local_boundary : DenseMatrix :=
  dense_of_list 3 2 [0%float; 5%float; 0%float; 0%float; 7%float; 0%float].

Lemma contrib_filter_boundary_example_width_0 :
  Height ex_local_boundary = 3 /\ Width ex_local_boundary = 2 /\
  columns ex_local_boundary = [[0; 5; 0]; [0; 7; 0]]%float /\
  ex_border ex_rels 1 = true /\
  match contrib_filter_boundary ex_output_level ex_border ex_fresh
          (ContribTent_new 3 true) ex_rels ex_local_boundary (fun j => j) with
  | Ok local' out =>
      Height local' = 3 /\ Width local' = 0 /\ columns local' = [] /\
      List.filter is_column_alert out
      = [ALERT_entire_column_zero; ALERT_entire_column_zero]
  | Fault _ => False
  end.
Proof. vm_compute. by split_and!. Qed.

Example contrib_filter_boundary_keeps_all_without_option :
  match contrib_filter_boundary ex_output_level ex_border ex_fresh
          (ContribTent_new 3 false) ex_rels ex_local (fun j => j) with
  | Ok local' out => columns local' = [[0; 5; 0]; [1; 2; 3]]%float /\ out = []
  | Fault _ => False
  end.
Proof. vm_compute. by split. Qed.

(** ** C7: the deprecated insertion *)

(** Three rows, two columns: column 0 has l1 norm 0.0001, column 1 has l1
    norm 0.05. *)
Definition ex_mixed : DenseMatrix :=
  dense_of_list 3 2 [0.0001%float; 0%float; 0%float; 0.05%float; 0%float; 0%float].

Lemma contrib_tent_insert_from_local_verdicts_witness :
  exists this' local' out,
    contrib_tent_insert_from_local ex_output_level ex_border ex_fresh
      (ContribTent_new 3 false) ex_rels ex_mixed (fun j => j) = Ok (this', local') out /\
    List.filter is_norm_alert out
    = [ALERT_near_zero_ignoring 0.0001%float; ALERT_accepting_small 0.05%float] /\
    filled_cols this' = 1 /\ Width local' = 1 /\
    columns local' = [[0.05; 0; 0]]%float /\
    sm_entries (tent_interp_ this') !! (0, 0) = Some 0.05%float /\
    sm_entries (tent_interp_ this') !! (1, 0) = Some 0%float /\
    sm_entries (tent_interp_ this') !! (0, 1) = None.
Proof.
  pose proof (contrib_tent_insert_from_local_verdicts ex_output_level ex_border ex_fresh
                (ContribTent_new 3 false) ex_rels ex_mixed (fun j => j)) as Hrun.
  cbv zeta in Hrun.
  destruct Hrun as (this' & local' & out & Hrun & Halerts & _ & Hfc & Hwidth & Hcols
                    & Hframe & Hstored); [done | done | by vm_compute |].
  assert (Haccepted : accepted_columns ex_border (ContribTent_new 3 false) ex_rels
                        (fun j => j) ex_mixed = [1]) by (vm_compute; reflexivity).
  assert (Hnorms : norm_alerts ex_border (ContribTent_new 3 false) ex_rels
                     (fun j => j) ex_mixed
                   = [ALERT_near_zero_ignoring 0.0001%float;
                      ALERT_accepting_small 0.05%float]) by (vm_compute; reflexivity).
  rewrite Haccepted in Hfc, Hwidth, Hcols, Hstored. rewrite Hnorms in Halerts.
  assert (Hinj : forall j j' : Z, 0 <= j < Height ex_mixed -> 0 <= j' < Height ex_mixed ->
                   j = j' -> j = j') by done.
  assert (Hcolumn : map (filtered_column ex_border (ContribTent_new 3 false) ex_rels
                           (fun j => j) ex_mixed) [1] = [[0.05; 0; 0]]%float)
    by (vm_compute; reflexivity).
  assert (Hfirst : filtered_entry ex_border (ContribTent_new 3 false) ex_rels
                     (fun j => j) 0 (Elem ex_mixed 0 1) = 0.05%float)
    by (vm_compute; reflexivity).
  assert (Hsecond : filtered_entry ex_border (ContribTent_new 3 false) ex_rels
                      (fun j => j) 1 (Elem ex_mixed 1 1) = 0%float)
    by (vm_compute; reflexivity).
  assert (Hrange0 : 0 <= 0 < Height ex_mixed) by (change (0 <= 0 < 3); lia).
  assert (Hrange1 : 0 <= 1 < Height ex_mixed) by (change (0 <= 1 < 3); lia).
  pose proof (Hstored Hinj 0%nat 1 eq_refl 0 Hrange0) as Hentry0.
  pose proof (Hstored Hinj 0%nat 1 eq_refl 1 Hrange1) as Hentry1.
  rewrite Hfirst in Hentry0. rewrite Hsecond in Hentry1. rewrite Hcolumn in Hcols.
  change (filled_cols (ContribTent_new 3 false) + Z.of_nat 0) with 0 in Hentry0, Hentry1.
  change (Z.of_nat (length [1])) with 1 in Hfc, Hwidth.
  change (filled_cols (ContribTent_new 3 false) + 1) with 1 in Hfc.
  exists this', local', out.
  split; [exact Hrun|]. split; [exact Halerts|]. split; [exact Hfc|].
  split; [exact Hwidth|]. split; [exact Hcols|]. split; [exact Hentry0|].
  split; [exact Hentry1|].
  rewrite Hframe; [reflexivity|]. right. rewrite Hfc. lia.
Defined.

Lemma insert_from_local_column_verdict_witness :
  exists st' out,
    insert_from_local_column ex_output_level ex_border (ContribTent_new 3 false)
      ex_rels ex_small (fun j => j) 0 ex_local_state = Ok st' out /\
    adhoc_l1_norm ex_border (ContribTent_new 3 false) ex_rels (fun j => j) ex_small 0
    = 0.05%float /\
    List.filter is_norm_alert out = [ALERT_accepting_small 0.05%float] /\
    lo_col st' = 1 /\
    sm_entries (lo_tent st') !! (0, 0) = Some 0.05%float.
Proof.
  destruct (insert_from_local_column_verdict ex_output_level ex_border
              (ContribTent_new 3 false) ex_rels ex_small (fun j => j) 0 ex_local_state)
    as (st' & out & Hrun & Hverdict); [done | done | done |].
  assert (adhoc_l1_norm ex_border (ContribTent_new 3 false) ex_rels (fun j => j)
            ex_small 0 = 0.05%float) as Hnorm by (vm_compute; reflexivity).
  cbv zeta in Hverdict. rewrite Hnorm in Hverdict.
  change (PrimFloat.ltb 0.05 1e-3) with false in Hverdict.
  change (PrimFloat.ltb 0.05 1e-1) with true in Hverdict.
  destruct Hverdict as (Hout & Hcol & _ & Hstored).
  exists st', out. split_and!; [done | done | done | done |].
  apply (Hstored ltac:(intros; done) 0). done.
Defined.

Example insert_from_local_accepts_small_column :
  match contrib_tent_insert_from_local ex_output_level ex_border ex_fresh
          (ContribTent_new 3 false) ex_rels ex_small (fun j => j) with
  | Ok (this', local') out =>
      filled_cols this' = 1 /\ out = [ALERT_accepting_small 0.05%float] /\
      sm_entries (tent_interp_ this') !! (0, 0) = Some 0.05%float /\
      Width local' = 1
  | Fault _ => False
  end.
Proof. vm_compute. by split_and!. Qed.

(** C7 as the specification words it does not hold: a column of l1 norm
    0.0001, below both cutoffs, is not accepted. The alert says it is ignored, [filled_cols]
    stays 0, the tentative prolongator has no entry and the local matrix
    loses the column. *)
Lemma insert_from_local_rejects_tiny_column :
  match contrib_tent_insert_from_local ex_output_level ex_border ex_fresh
          (ContribTent_new 3 false) ex_rels ex_tiny (fun j => j) with
  | Ok (this', local') out =>
      PrimFloat.ltb (adhoc_l1_norm ex_border (ContribTent_new 3 false) ex_rels
                       (fun j => j) ex_tiny 0) 1e-3%float = true /\
      out = [ALERT_near_zero_ignoring 0.0001%float] /\
      filled_cols this' = 0 /\
      sm_entries (tent_interp_ this') = ∅ /\
      Width local' = 0
  | Fault _ => False
  end.
Proof. vm_compute. by split_and!. Qed.

(** ** C1: a MIS with one dof *)

Lemma SVDInsert_one_dof_basis_witness :
  exists st out basis,
    SVDInsert_local ex_output_level ex_border ex_fresh ex_svd ex_orth ex_lls 0
      (ContribTent_new 3 true) ex_rels ex_received_one (fun _ => 1) false = Ok st out /\
    mis_tent_interps (sv_this st) 0 = Some basis /\ is_unit_basis basis /\
    mis_numcoarsedof (sv_this st) 0 = Some 1.
Proof.
  destruct (SVDInsert_one_dof_basis ex_output_level ex_border ex_fresh ex_svd ex_orth
              ex_lls 0 (ContribTent_new 3 true) ex_rels ex_received_one (fun _ => 1)
              false 0 (fun _ => dense_of_list 1 1 [2%float]))
    as [_ Hlocal]; [done | done | done | done | done | by right |].
  destruct (SVDInsert_local ex_output_level ex_border ex_fresh ex_svd ex_orth ex_lls 0
              (ContribTent_new 3 true) ex_rels ex_received_one (fun _ => 1) false)
    as [st out|f] eqn:Hrun; [|by vm_compute in Hrun].
  destruct (Hlocal st out eq_refl) as (basis & Hbasis & Hunit & Hnum).
  by exists st, out, basis.
Defined.

(** C1 as the specification words it does not hold: with the avoid-boundary option, the MIS
    whose only dof is on the essential boundary, owned by this rank, gets
    the basis of width 0 and no coarse dof. *)
Lemma SVDInsert_one_dof_on_boundary :
  mis_master ex_rels_bdr 0 = 0 /\ mises_size ex_rels_bdr 0 = 1 /\
  match SVDInsert_local ex_output_level ex_border ex_fresh ex_svd ex_orth ex_lls 0
          (ContribTent_new 3 true) ex_rels_bdr ex_received_one (fun _ => 1) false with
  | Ok st _ =>
      mis_numcoarsedof (sv_this st) 0 = Some 0 /\
      sv_num_coarse_dofs st = 0 /\
      match mis_tent_interps (sv_this st) 0 with
      | Some basis => Height basis = 1 /\ Width basis = 0
      | None => False
      end
  | Fault _ => False
  end.
Proof. vm_compute. by split_and!. Qed.

Example SVDInsert_one_dof_without_option :
  match SVDInsert_local ex_output_level ex_border ex_fresh ex_svd ex_orth ex_lls 0
          (ContribTent_new 3 false) ex_rels_bdr ex_received_one (fun _ => 1) false with
  | Ok st _ =>
      mis_numcoarsedof (sv_this st) 0 = Some 1 /\
      sm_entries (tent_interp_ (sv_this st)) !! (1, 0) = Some 1%float
  | Fault _ => False
  end.
Proof. vm_compute. by split. Qed.

(** * Concrete runs of the further properties *)

(** Zeroed fresh storage of integers. *)
Definition ex_ints (offset : Z) : Z := 0.

(** Two rows, two columns, no zero entry: columns (1, 2) and (3, 4). *)
Definition ex_full : DenseMatrix := dense_of_list 2 2 [1; 2; 3; 4]%float.

(** The 2 by 2 identity. *)
Definition ex_diagonal : DenseMatrix := dense_of_list 2 2 [1; 0; 0; 1]%float.

(** For every MIS, one received matrix of two rows and one column of zeros. *)
Definition ex_received_zero : Z -> option (Z -> DenseMatrix) :=
  fun _ => Some (fun _ => dense_of_list 2 1 [0; 0]%float).

(** [ex_local] filtered with the avoid-boundary option, and what is printed. *)
Definition ex_filtered : DenseMatrix :=
  match contrib_filter_boundary ex_output_level ex_border ex_fresh
          (ContribTent_new 3 true) ex_rels ex_local (fun j => j) with
  | Ok local' _ => local'
  | Fault _ => ex_local
  end.
Definition ex_filter_out : list message :=
  match contrib_filter_boundary ex_output_level ex_border ex_fresh
          (ContribTent_new 3 true) ex_rels ex_local (fun j => j) with
  | Ok _ out => out
  | Fault _ => []
  end.

(** ** X2, X3: the simple insertion *)

Lemma contrib_tent_insert_simple_frame_witness :
  rows ex_inserted = 3 /\ threshold_ ex_inserted = 0%float /\
  sm_entries (tent_interp_ ex_inserted) !! (0, 0) = None /\
  sm_entries (tent_interp_ ex_inserted) !! (1, 1) = None.
Proof.
  destruct (contrib_tent_insert_simple_frame (ContribTent_new 3 false) ex_inserted
              ex_rels ex_basis (fun j => j + 1) [])
    as (Hcols & Hrows & _ & _ & Hnrows & _ & _ & Hthr & _); [vm_compute; reflexivity|].
  split_and!; [done | done | |].
  - rewrite Hrows; [done|]. intros j Hj. lia.
  - rewrite Hcols; [done|]. right. change (0 + 1 <= 1). lia.
Defined.

Lemma insert_simple_finalize_round_trip_witness :
  exists this' tent_interp_l,
    contrib_tent_insert_simple (ContribTent_new 3 false) ex_rels ex_basis
      (fun j => j + 1) = Ok this' [] /\
    contrib_tent_finalize this' = Ok tent_interp_l [] /\
    sm_Size tent_interp_l = 3 /\ sm_Width tent_interp_l = 1 /\
    sm_entries tent_interp_l !! (1, 0) = Some 0.5%float /\
    sm_entries tent_interp_l !! (2, 0) = None.
Proof.
  destruct (insert_simple_finalize_round_trip 3 false ex_rels ex_basis (fun j => j + 1))
    as (this' & A & Hinsert & Hfinalize & HS & HW & Hread & _);
    [done | done | intros; lia |].
  exists this', A. split_and!; [done | done | done | done | |].
  - apply (Hread 0 0); done.
  - apply (Hread 0 1); done.
Defined.

(** ** X4 to X7: the boundary filter *)

Lemma contrib_filter_boundary_postcondition_witness :
  Elem ex_filtered 1 0 = 0%float /\
  exists j, 0 <= j < Height ex_filtered /\
    PrimFloat.eqb (Elem ex_filtered j 0) 0 = false.
Proof.
  destruct (contrib_filter_boundary_postcondition ex_output_level ex_border ex_fresh
              (ContribTent_new 3 true) ex_rels ex_local ex_filtered (fun j => j)
              ex_filter_out) as (Hzero & Hnonzero & _);
    [done | done | vm_compute; reflexivity |].
  split.
  - apply Hzero; by vm_compute.
  - destruct (Hnonzero 0) as (j & Hj & Hentry & _); [by vm_compute|]. by exists j.
Defined.

Lemma contrib_filter_boundary_idempotent_witness :
  exists local'' out',
    contrib_filter_boundary ex_output_level ex_border ex_fresh (ContribTent_new 3 true)
      ex_rels ex_filtered (fun j => j) = Ok local'' out' /\
    Width local'' = Width ex_filtered /\
    columns local'' = columns ex_filtered.
Proof.
  destruct (contrib_filter_boundary_idempotent ex_output_level ex_border ex_fresh
              (ContribTent_new 3 true) ex_rels ex_local ex_filtered (fun j => j)
              ex_filter_out) as [Hagain _]; [done | done | vm_compute; reflexivity |].
  destruct Hagain as (local'' & out' & Hrun & _ & HW & Hcols & _); [by vm_compute|].
  by exists local'', out'.
Defined.

Lemma contrib_filter_boundary_prints_witness :
  ex_filter_out = [ALERT_entire_column_zero].
Proof.
  destruct (contrib_filter_boundary_prints ex_output_level ex_border ex_fresh
              (ContribTent_new 3 true) ex_rels ex_local ex_filtered (fun j => j)
              ex_filter_out) as (_ & _ & Hoff); [done | done | vm_compute; reflexivity |].
  rewrite Hoff by (vm_compute; reflexivity). vm_compute. reflexivity.
Defined.

Lemma contrib_filter_boundary_nothing_to_filter_witness :
  exists local',
    contrib_filter_boundary ex_output_level ex_border ex_fresh (ContribTent_new 3 false)
      ex_rels ex_full (fun j => j) = Ok local' [] /\
    Width local' = 2 /\ Elem local' 1 1 = 4%float.
Proof.
  destruct (contrib_filter_boundary_nothing_to_filter ex_output_level ex_border ex_fresh
              (ContribTent_new 3 false) ex_rels ex_full (fun j => j))
    as (local' & Hrun & _ & HW & Hsame); [done | done | |].
  { intros i j Hi Hj. change (0 <= i < 2) in Hi. change (0 <= j < 2) in Hj.
    assert (i = 0 \/ i = 1) as [-> | ->] by lia;
      assert (j = 0 \/ j = 1) as [-> | ->] by lia; vm_compute; reflexivity. }
  exists local'. split_and!; [done | done |]. by rewrite Hsame.
Defined.

(** ** X8, X9: the deprecated insertion *)

Lemma contrib_tent_insert_from_local_accepted_witness :
  exists this' local' out,
    contrib_tent_insert_from_local ex_output_level ex_border ex_fresh
      (ContribTent_new 3 false) ex_rels ex_small (fun j => j) = Ok (this', local') out /\
    filled_cols this' = 1 /\ Width local' = 1.
Proof.
  pose proof (contrib_tent_insert_from_local_accepted ex_output_level ex_border ex_fresh
                (ContribTent_new 3 false) ex_rels ex_small (fun j => j)) as Hrun.
  cbv zeta in Hrun.
  destruct Hrun as (this' & local' & out & Hrun & Hfc & _ & _ & HW & _);
    [done | done | by vm_compute |].
  assert (Hlen : Z.of_nat (length (accepted_columns ex_border (ContribTent_new 3 false)
                                     ex_rels (fun j => j) ex_small)) = 1)
    by (vm_compute; reflexivity).
  exists this', local', out. rewrite Hfc, HW, Hlen. by split_and!.
Defined.

Lemma contrib_tent_insert_from_local_refuses_witness :
  contrib_tent_insert_from_local ex_output_level ex_border ex_fresh
    (ContribTent_new 3 false) ex_rels ex_diagonal (fun j => j) = Fault AssertFailed.
Proof.
  apply (contrib_tent_insert_from_local_refuses ex_output_level ex_border ex_fresh
           (ContribTent_new 3 false) ex_rels ex_diagonal (fun j => j) 1);
    [done | done | done | | by vm_compute].
  intros i Hi. change (0 <= i < 2) in Hi.
  assert (i = 0 \/ i = 1) as [-> | ->] by lia; by vm_compute.
Defined.

(** ** X10, X11: the extensions *)

Lemma ExtendWithConstants_appends_ones_witness :
  exists received_mats' arr',
    ExtendWithConstants ex_fresh 0 (fun _ => None) ex_rels = Ok received_mats' [] /\
    received_mats' 0 = Some arr' /\
    Height (arr' 0) = 1 /\ Width (arr' 0) = 1 /\ Elem (arr' 0) 0 0 = 1%float /\
    received_mats' 1 = None.
Proof.
  destruct (ExtendWithConstants_appends_ones ex_fresh 0 ex_rels (fun _ => None))
    as (received_mats' & Hrun & Howned & Hforeign).
  { intros mis Hmis Howner. split; [unfold ex_rels; simpl; lia | done]. }
  destruct (Howned 0) as (arr' & Hslot & HH & HW & _ & Hones); [done | done |].
  destruct (Hones 0) as [Hone _]; [done|].
  exists received_mats', arr'. split_and!; [done | done | done | done | done |].
  apply Hforeign. right. by vm_compute.
Defined.

Lemma ExtendWithRBMs_1d_is_ExtendWithConstants_witness :
  exists with_rbms with_constants a b,
    ExtendWithRBMs 0 (fun _ => None) ex_rels 1 3 ex_coords = Ok with_rbms [] /\
    ExtendWithConstants ex_fresh 0 (fun _ => None) ex_rels = Ok with_constants [] /\
    with_rbms 0 = Some a /\ with_constants 0 = Some b /\
    Width (a 0) = Width (b 0) /\
    (forall k j, 0 <= k < Height (a 0) -> 0 <= j < Width (a 0) ->
       Elem (a 0) k j = Elem (b 0) k j).
Proof.
  destruct (ExtendWithRBMs_1d_is_ExtendWithConstants ex_fresh 0 ex_rels (fun _ => None)
              3 ex_coords) as (with_rbms & with_constants & Hrbms & Hconstants & Howned & _).
  { intros mis Hmis Howner. split; [unfold ex_rels; simpl; lia | done]. }
  { intros mis k Hmis Howner Hk. unfold ex_rels in *. simpl in *. lia. }
  destruct (Howned 0) as (a & b & Ha & Hb & _ & HW & Hsame); [done | done |].
  by exists with_rbms, with_constants, a, b.
Defined.

(** ** X12 to X17: SVDInsert *)

Lemma SVDInsert_counts_witness :
  exists st out,
    SVDInsert_local ex_output_level ex_border ex_fresh ex_svd ex_orth ex_lls 0
      (ContribTent_new 3 false) ex_rels_ranks (ri_received_mats (ex_input 0))
      (fun _ => 1) false = Ok st out /\
    filled_cols (sv_this st) = 2 /\ sv_num_coarse_dofs st = 2 /\
    sum_mis_numcoarsedof (sv_this st) 3 = 2.
Proof.
  destruct (SVDInsert_local ex_output_level ex_border ex_fresh ex_svd ex_orth ex_lls 0
              (ContribTent_new 3 false) ex_rels_ranks (ri_received_mats (ex_input 0))
              (fun _ => 1) false) as [st out|f] eqn:Hrun; [|by vm_compute in Hrun].
  destruct (SVDInsert_counts _ _ _ _ _ _ _ _ _ _ _ _ _ _ Hrun) as (Hfc & _ & Hsum & _).
  assert (Hnum : sv_num_coarse_dofs st = 2)
    by (vm_compute in Hrun; by injection Hrun as <- _).
  change (num_mises ex_rels_ranks) with 3 in Hsum.
  exists st, out. split; [done|]. rewrite Hfc, <- Hsum, Hnum. by split_and!.
Defined.

Lemma SVDInsert_offsets_contiguous_witness :
  exists thiss out,
    SVDInsert ex_output_level ex_border ex_fresh ex_svd ex_orth ex_lls ex_inputs false
    = Ok thiss out /\
    (forall this, thiss !! 0%nat = Some this -> coarse_truedof_offset this = Some 0) /\
    (forall (r : nat) this next,
       thiss !! r = Some this -> thiss !! Datatypes.S r = Some next ->
       0 <= filled_cols this /\
       exists offset,
         coarse_truedof_offset this = Some offset /\
         coarse_truedof_offset next = Some (offset + filled_cols this)).
Proof.
  destruct (SVDInsert ex_output_level ex_border ex_fresh ex_svd ex_orth ex_lls ex_inputs
              false) as [thiss out|f] eqn:Hrun; [|by vm_compute in Hrun].
  exists thiss, out. split; [done|].
  apply (SVDInsert_offsets_contiguous _ _ _ _ _ _ _ _ _ _ Hrun).
  intros input [<- | [<- | [<- | []]]]; reflexivity.
Defined.

Lemma SVDInsert_skips_boundary_mis_witness :
  exists st out,
    SVDInsert_local ex_output_level ex_border ex_fresh ex_svd ex_orth ex_lls 0
      (ContribTent_new 3 true) ex_rels_bdr ex_received_one (fun _ => 1) false
    = Ok st out /\
    mis_numcoarsedof (sv_this st) 0 = Some 0 /\
    exists basis,
      mis_tent_interps (sv_this st) 0 = Some basis /\
      Height basis = 1 /\ Width basis = 0.
Proof.
  destruct (SVDInsert_local ex_output_level ex_border ex_fresh ex_svd ex_orth ex_lls 0
              (ContribTent_new 3 true) ex_rels_bdr ex_received_one (fun _ => 1) false)
    as [st out|f] eqn:Hrun; [|by vm_compute in Hrun].
  destruct (SVDInsert_skips_boundary_mis ex_output_level ex_border ex_fresh ex_svd
              ex_orth ex_lls 0 (ContribTent_new 3 true) ex_rels_bdr ex_received_one
              (fun _ => 1) false 0 (fun _ => dense_of_list 1 1 [2%float]))
    as [_ Hfinal]; [done | done | done | done | done | |].
  { intros j Hj. change (0 <= j < 1) in Hj. assert (j = 0) as -> by lia. by vm_compute. }
  exists st, out. split; [done|]. by apply (Hfinal st out).
Defined.

Lemma SVDInsert_zero_contribution_witness :
  exists st out,
    SVDInsert_local ex_output_level ex_border ex_fresh ex_svd ex_orth ex_lls 1
      (ContribTent_new 3 false) ex_rels ex_received_zero (fun _ => 1) false
    = Ok st out /\
    mis_numcoarsedof (sv_this st) 1 = Some 0 /\
    exists basis,
      mis_tent_interps (sv_this st) 1 = Some basis /\
      Height basis = 2 /\ Width basis = 0.
Proof.
  destruct (SVDInsert_local ex_output_level ex_border ex_fresh ex_svd ex_orth ex_lls 1
              (ContribTent_new 3 false) ex_rels ex_received_zero (fun _ => 1) false)
    as [st out|f] eqn:Hrun; [|by vm_compute in Hrun].
  pose proof (SVDInsert_zero_contribution ex_output_level ex_border ex_fresh ex_svd
                ex_orth ex_lls 1 (ContribTent_new 3 false) ex_rels ex_received_zero
                (fun _ => 1) false 1 (fun _ => dense_of_list 2 1 [0; 0]%float)) as Hzero.
  cbv zeta in Hzero.
  destruct Hzero as [_ Hfinal];
    [done | done | done | done | done | done | by left | |  |].
  { intros q i Hq Hi. assert (q = 0) as -> by lia. change (0 <= i < 1) in Hi.
    assert (i = 0) as -> by lia. vm_compute. reflexivity. }
  { intros q Hq. by vm_compute. }
  exists st, out. split; [done|]. by apply (Hfinal st out).
Defined.

Lemma SVDInsert_failures_witness :
  SVDInsert_local ex_output_level ex_border ex_fresh ex_svd ex_orth ex_lls 0
    (ContribTent_new 3 false) ex_rels (fun _ => None) (fun _ => 1) false
  = Fault NullPointer /\
  0 <= num_mises ex_rels /\
  exists mis, 0 <= mis < num_mises ex_rels /\ mis_master ex_rels mis = 0.
Proof.
  split; [vm_compute; reflexivity|].
  destruct (SVDInsert_failures ex_output_level ex_border ex_fresh
              ex_svd ex_orth ex_lls 0 (ContribTent_new 3 false) ex_rels (fun _ => None)
              (fun _ => 1) false NullPointer) as ([Hbad _] & _ & Hnull & _);
    [vm_compute; reflexivity|].
  split; [change (0 <= 2); lia|].
  destruct (Hnull eq_refl) as (mis & Hmis & Howner & _). by exists mis.
Defined.

(** A negative number of MISes: the allocations throw. *)
Definition ex_rels_negative : agg_partitioning_relations_t :=
  mkRels 3 (-1) (fun _ => 0) (fun _ => 1) (mkTable (fun _ => 1) (fun mis j => mis + j))
         false.

Example SVDInsert_negative_num_mises :
  SVDInsert_local ex_output_level ex_border ex_fresh ex_svd ex_orth ex_lls 0
    (ContribTent_new 3 false) ex_rels_negative (fun _ => None) (fun _ => 1) false
  = Fault BadArrayNewLength /\
  contrib_ones_local ex_output_level ex_border ex_fresh ex_svd ex_orth ex_lls ex_ints
    0 (ContribTent_new 3 false) ex_rels_negative
  = Fault BadArrayNewLength /\
  contrib_linears_local ex_output_level ex_border ex_fresh ex_svd ex_orth ex_lls ex_ints
    0 (ContribTent_new 3 false) ex_rels_negative 2 2 ex_coords
  = Fault BadArrayNewLength.
Proof. vm_compute. by split_and!. Qed.

Example SVDInsert_rank_without_mis :
  exists st,
    SVDInsert_local ex_output_level ex_border ex_fresh ex_svd ex_orth ex_lls 2
      (ContribTent_new 3 false) ex_rels_ranks (ri_received_mats (ex_input 2))
      (fun _ => 1) false = Ok st [] /\
    sv_num_coarse_dofs st = 0 /\
    map (mis_numcoarsedof (sv_this st)) [0; 1; 2] = [Some 0; Some 0; Some 0].
Proof. eexists. vm_compute. by split_and!. Qed.

(** ** X18: contrib_ones and contrib_linears *)

Example contrib_linears_wrong_coords :
  contrib_linears_local ex_output_level ex_border ex_fresh ex_svd ex_orth ex_lls ex_ints
    0 (ContribTent_new 3 false) ex_rels 2 3 ex_coords
  = Fault AssertFailed.
Proof. vm_compute. reflexivity. Qed.

Example contrib_ones_one_dof :
  match contrib_ones_local ex_output_level ex_border ex_fresh ex_svd ex_orth ex_lls
          ex_ints 0 (ContribTent_new 3 false) ex_rels with
  | Ok st out =>
      filled_cols (sv_this st) = 1 /\ out = [] /\
      sm_entries (tent_interp_ (sv_this st)) !! (0, 0) = Some 1%float
  | Fault _ => False
  end.
Proof. vm_compute. by split_and!. Qed.

Example abs_pair_compare_values :
  abs_pair_compare ((-3)%float, 0) (2%float, 1) = 1 /\
  abs_pair_compare (2%float, 1) ((-3)%float, 0) = -1 /\
  abs_pair_compare ((-2)%float, 5) (2%float, 7) = 0 /\
  abs_pair_compare (nan, 0) (1%float, 1) = 0.
Proof. vm_compute. by split_and!. Qed.

(** ** contrib_ones on three MISes of one dof, two of them owned by rank 0 *)

Lemma contrib_ones_one_dof_mises_witness :
  exists st out,
    contrib_ones_local ex_output_level ex_border ex_fresh ex_svd ex_orth ex_lls
      ex_ints 0 (ContribTent_new 3 false) ex_rels_ranks = Ok st out /\
    out = [] /\ sv_num_coarse_dofs st = 2 /\ filled_cols (sv_this st) = 2 /\
    sm_entries (tent_interp_ (sv_this st)) !! (0, 0) = Some 1%float /\
    sm_entries (tent_interp_ (sv_this st)) !! (1, 1) = Some 1%float.
Proof.
  destruct (contrib_ones_one_dof_mises ex_output_level ex_border ex_fresh ex_svd
              ex_orth ex_lls ex_ints 0 (ContribTent_new 3 false) ex_rels_ranks)
    as (st & out & Hrun & Hout & Hnum & Hfc & Hentries).
  - by vm_compute.
  - reflexivity.
  - vm_compute. reflexivity.
  - intros mis _ _. reflexivity.
  - assert (Hcount : owned_before 0 ex_rels_ranks (num_mises ex_rels_ranks) = 2)
      by (vm_compute; reflexivity).
    rewrite Hcount in Hnum, Hfc.
    destruct (Hentries 0) as [_ Hfirst]; [by vm_compute | reflexivity |].
    destruct (Hentries 1) as [_ Hsecond]; [by vm_compute | reflexivity |].
    assert (Hkey0 : (GetRow (mis_to_dof ex_rels_ranks) 0 0,
                     filled_cols (ContribTent_new 3 false)
                     + owned_before 0 ex_rels_ranks 0) = (0, 0))
      by (vm_compute; reflexivity).
    assert (Hkey1 : (GetRow (mis_to_dof ex_rels_ranks) 1 0,
                     filled_cols (ContribTent_new 3 false)
                     + owned_before 0 ex_rels_ranks 1) = (1, 1))
      by (vm_compute; reflexivity).
    rewrite Hkey0 in Hfirst. rewrite Hkey1 in Hsecond.
    exists st, out. split_and!; try done. by apply Hout.
Defined.

(** ** ExtendWithRBMs: what a returning call has checked *)

Lemma ExtendWithRBMs_returns_only_if_witness :
  exists received_mats' out,
    ExtendWithRBMs 0 (fun _ => None) ex_rels_2d 2 2 ex_coords = Ok received_mats' out /\
    Z.rem (mises_size ex_rels_2d 0) 2 = 0 /\
    node_num_of (GetRow (mis_to_dof ex_rels_2d) 0) 2 1 < 2.
Proof.
  destruct (ExtendWithRBMs 0 (fun _ => None) ex_rels_2d 2 2 ex_coords)
    as [received_mats' out|f] eqn:Hrun; [|by vm_compute in Hrun].
  destruct (ExtendWithRBMs_returns_only_if 0 ex_rels_2d (fun _ => None) received_mats'
              2 2 ex_coords out Hrun 0) as (_ & _ & Hrem & Hnodes); [done | done |].
  exists received_mats', out. split_and!; [done | done |].
  apply Hnodes. change (0 <= 1 < 2). lia.
Defined.

Example Extend_failure_kinds :
  ExtendWithRBMs 0 (fun _ => None) ex_rels_2d 4 2 ex_coords = Fault (Thrown 1) /\
  ExtendWithRBMs 0 (fun _ => None) ex_rels_2d 3 2 ex_coords = Fault AssertFailed /\
  ExtendWithRBMs 0 (fun _ => None) ex_rels_2d 2 1 ex_coords = Fault AssertFailed /\
  ExtendWithPolynomials 0 (fun _ => None) ex_rels_2d 2 2 2 ex_coords = Fault (Thrown 1).
Proof. vm_compute. by split_and!. Qed.
